(** * Talking Practice: a verification development

    The development follows these places of the repository:

    - [JS]: the fragment of JavaScript values the code below computes with
      (truthiness, property reads, [ToString], [String.prototype.trim]);
    - [Chat]: the [useChat] hook ([addMessage], [handleStreamingRequest],
      [handleStandardRequest], [updateMessage], [deleteMessage]);
    - [Mic]: the [MicButton] component (recording, timer, silence check,
      [formatTime]), with the values every render closes over made explicit;
    - [MicAsync]: the same component with [startRecording] in two steps,
      before and after [await getUserMedia], and the [isRecording] prop;
    - [Firestore]: [src/firebase/firestore.ts] over a store of documents;
    - [Tts]: the POST handler of [src/app/api/tts/route.ts];
    - [ChatRoute]: the POST handler of [src/app/api/chat/route.ts], and the
      route as [useChat] reaches it;
    - [Settings]: the account deletion of the settings page, with
      [deleteUserAccount] of [src/lib/firebaseUtils.ts];
    - [Conversation]: [extractTopics], [saveConversationToFirebase] and the
      exchange with [/api/chat] of the voice conversation page;
    - [History]: [calculateMostTalkedTopics] of the talk history page;
    - [TalkDetail]: the loader of the talk detail page.

    The program comes first, module by module; the properties follow, the
    modules named [...Facts] and [...Props].

    Platform functions that are no code of the repository ([JSON.parse],
    [Number.prototype.toString], [Number] on strings, the wording of the
    engine's TypeErrors, the OpenAI client) are Section variables: the
    theorems hold for every behaviour of them. *)

From Stdlib Require Import ZArith NArith List String Ascii Floats Lia Bool DecimalString Sorted.
From Stdlib Require DecimalZ.
From stdpp Require Import base option list gmap strings.

Set Warnings "-inexact-float,-register-all".
Local Open Scope Z_scope.

(* ===================================================================== *)
(** * JavaScript values *)
(* ===================================================================== *)

Module JS.

(** A JavaScript string is its sequence of UTF-16 code units. *)
Abbreviation jsstring := (list N).

(** The string literal [s] of the source (ASCII in every use below). *)
Definition js (s : string) : jsstring :=
  map N_of_ascii (list_ascii_of_string s).

Fixpoint jseqb (a b : jsstring) : bool :=
  match a, b with
  | [], [] => true
  | x :: a', y :: b' => N.eqb x y && jseqb a' b'
  | _, _ => false
  end.

(** [WhiteSpace] and [LineTerminator] of ECMAScript: what [trim] removes. *)
Definition is_whitespace (c : N) : bool :=
  existsb (N.eqb c)
    [9; 10; 11; 12; 13; 32; 160; 5760; 8232; 8233; 8239; 8287; 12288; 65279]%N
  || (N.leb 8192 c && N.leb c 8202).

Fixpoint trimStart (s : jsstring) : jsstring :=
  match s with
  | c :: s' => if is_whitespace c then trimStart s' else s
  | [] => []
  end.

Definition trimEnd (s : jsstring) : jsstring := rev (trimStart (rev s)).

(** [s.trim()] *)
Definition trim (s : jsstring) : jsstring := trimEnd (trimStart s).

(** The values [JSON.parse] and [request.json()] produce, and [undefined]. *)
Inductive JSValue : Type :=
| JUndefined
| JNull
| JBool (b : bool)
| JNum (f : float)
| JStr (s : jsstring)
| JArr (items : list JSValue)
| JObj (fields : list (jsstring * JSValue)).

(** [!!v]: [undefined], [null], [false], [0], [-0], [NaN] and the empty string are falsy. *)
Definition truthy (v : JSValue) : bool :=
  match v with
  | JUndefined | JNull => false
  | JBool b => b
  | JNum f => negb (PrimFloat.eqb f 0%float) && negb (PrimFloat.is_nan f)
  | JStr s => negb (jseqb s [])
  | JArr _ | JObj _ => true
  end.

(** [a || b] *)
Definition or_else (a b : JSValue) : JSValue := if truthy a then a else b.

Definition nullish (v : JSValue) : bool :=
  match v with JUndefined | JNull => true | _ => false end.

Fixpoint lookup_field (k : jsstring) (fields : list (jsstring * JSValue)) : JSValue :=
  match fields with
  | [] => JUndefined
  | (k', v) :: rest => if jseqb k k' then v else lookup_field k rest
  end.

(** [v.k] for a [v] that is neither [undefined] nor [null] (reading those
    throws a TypeError, which the callers decide with [nullish]), and a key
    [k] that names no inherited property: of an object its own field, of an
    array or a string its [length]; every other read is [undefined]. *)
Definition get (v : JSValue) (k : jsstring) : JSValue :=
  match v with
  | JObj fields => lookup_field k fields
  | JArr items => if jseqb k (js "length") then JNum (PrimFloat.of_uint63 (Uint63.of_Z (Z.of_nat (length items)))) else JUndefined
  | JStr s => if jseqb k (js "length") then JNum (PrimFloat.of_uint63 (Uint63.of_Z (Z.of_nat (length s)))) else JUndefined
  | _ => JUndefined
  end.

(** [v[0]] for a [v] that is neither [undefined] nor [null]. *)
Definition get0 (v : JSValue) : JSValue :=
  match v with
  | JObj fields => lookup_field (js "0") fields
  | JArr (x :: _) => x
  | JStr (c :: _) => JStr [c]
  | _ => JUndefined
  end.

(** [v?.k] *)
Definition opt_get (v : JSValue) (k : jsstring) : JSValue :=
  if nullish v then JUndefined else get v k.

(** [v?.[0]] *)
Definition opt_get0 (v : JSValue) : JSValue :=
  if nullish v then JUndefined else get0 v.

Fixpoint join (sep : jsstring) (parts : list jsstring) : jsstring :=
  match parts with
  | [] => []
  | [p] => p
  | p :: rest => p ++ sep ++ join sep rest
  end.

(** Whether an object has a property of its own under a key. *)
Definition has_own (k : jsstring) (fields : list (jsstring * JSValue)) : bool :=
  existsb (fun field => jseqb k (fst field)) fields.

Section ToString.

(** [Number.prototype.toString], the platform's. *)
Variable Number_toString : float -> jsstring.

(** The string [v] contributes to [s + v] and [s += v], and the string
    [Number(v)] reads an object from; [None] when the conversion throws a
    TypeError. An object is converted by the [toString] it finds (the
    [valueOf] it finds returns no primitive): the inherited one prints
    [[object Object]]; a [toString] of its own is no function in a value
    read from JSON, and an object that has one cannot be converted. An
    array prints its elements, converted in turn, between commas, [null]
    and [undefined] as nothing. *)
Fixpoint ToString (v : JSValue) : option jsstring :=
  match v with
  | JUndefined => Some (js "undefined")
  | JNull => Some (js "null")
  | JBool true => Some (js "true")
  | JBool false => Some (js "false")
  | JNum f => Some (Number_toString f)
  | JStr s => Some s
  | JArr items =>
      option_map (join (js ","))
        ((fix elements (l : list JSValue) : option (list jsstring) :=
            match l with
            | [] => Some []
            | x :: rest =>
                match (if nullish x then Some [] else ToString x), elements rest with
                | Some s, Some ss => Some (s :: ss)
                | _, _ => None
                end
            end) items)
  | JObj fields =>
      if has_own (js "toString") fields then None else Some (js "[object Object]")
  end.

End ToString.

(** The decimal numeral of an integer, as a template literal prints it. *)
Definition Z_toString (z : Z) : jsstring :=
  js (NilZero.string_of_int (Z.to_int z)).

(** What a [catch] clause receives: whether the value is an [Error]
    instance, its [name] (when it is an object that has one) and its
    [message]. *)
Record Thrown : Type := mkThrown {
  instanceofError : bool;
  name : option jsstring;
  message : jsstring
}.

(** [new Error(msg)] *)
Definition new_Error (msg : jsstring) : Thrown :=
  mkThrown true (Some (js "Error")) msg.

(** The [DOMException] an aborted [fetch] or body read rejects with. *)
Definition AbortError : Thrown :=
  mkThrown true (Some (js "AbortError")) (js "The operation was aborted.").

End JS.

(* ===================================================================== *)
(** * The [useChat] hook *)
(* ===================================================================== *)

Module Chat.
Import JS.

Inductive MessageRole : Type := user | assistant | system.

Definition role_eqb (a b : MessageRole) : bool :=
  match a, b with
  | user, user | assistant, assistant | system, system => true
  | _, _ => false
  end.

(** [interface Message]. [content] is declared a string; the standard
    request stores whatever the response carried, so it is a value here. *)
Module Message.
Record t : Type := mk {
  id : jsstring;
  content : JSValue;
  role : MessageRole;
  timestamp : Z;
  isLoading : option bool;
  error : option jsstring
}.
End Message.
Abbreviation Message := Message.t.

(** [interface ChatOptions]; a callback is present or not. *)
Record ChatOptions : Type := {
  apiEndpoint : jsstring;
  apiKey : option jsstring;
  maxMessagesToStore : Z;
  onError : bool;
  onMessageResponse : bool;
  streamingEnabled : bool
}.

(** The hook's state: three [useState] cells read by the caller, the
    system message, and whether [abortControllerRef.current] is set. *)
Record Hook : Type := {
  messages : list Message;
  isLoading : bool;
  error : option jsstring;
  currentSystemMessage : jsstring;
  abortControllerRef : bool
}.

(** How the body of a response ends: [reader.read()] reports [done], or rejects. *)
Inductive ReadEnd : Type :=
| Done
| ReadRejects (e : Thrown).

(** A response: [ok], [status], the body as the chunks the reader yields
    (each as [decoder.decode] returns it) with the way the stream ends, and
    what [response.json()] settles to. *)
Record Response : Type := {
  ok : bool;
  status : Z;
  body : option (list jsstring * ReadEnd);
  json : Thrown + JSValue
}.

Inductive FetchOutcome : Type :=
| FetchRejects (e : Thrown)
| FetchResolves (r : Response).

(** What one call of [addMessage] takes from outside: the results of
    [generateId()] and [Date.now()] in the order the call asks for them, and
    what becomes of the request. *)
Record Env : Type := {
  id_message : jsstring;
  now_message : Z;
  id_placeholder : jsstring;
  now_placeholder : Z;
  id_system : jsstring;
  now_system : Z;
  now_final : Z;
  outcome : FetchOutcome
}.

(** What a call does besides updating the state. *)
Inductive Effect : Type :=
| Fetch (endpoint : jsstring) (authorization : option jsstring)
    (apiMessages : list (MessageRole * JSValue)) (stream : bool)
| OnError (errorMessage : jsstring)
| OnMessageResponse (finalMessage : Message).

Definition createMessage (new_id : jsstring) (now : Z) (content : JSValue)
    (role : MessageRole) : Message :=
  Message.mk new_id content role now None None.

(** [{ ...m, content: accumulatedContent, isLoading: false }] *)
Definition with_content (m : Message) (c : JSValue) : Message :=
  Message.mk (Message.id m) c (Message.role m) (Message.timestamp m)
    (Some false) (Message.error m).

(** [{ ...m, error: errorMessage, isLoading: false }] *)
Definition with_error (m : Message) (errorMessage : jsstring) : Message :=
  Message.mk (Message.id m) (Message.content m) (Message.role m)
    (Message.timestamp m) (Some false) (Some errorMessage).

(** [prevMessages.map(m => m.id === target ? f(m) : m)] *)
Definition update_by_id (target : jsstring) (f : Message -> Message)
    (msgs : list Message) : list Message :=
  map (fun m => if jseqb (Message.id m) target then f m else m) msgs.

(** [truncatedMessages.splice(1, 1)] *)
Definition splice_1_1 (l : list Message) : list Message :=
  match l with
  | x :: _ :: rest => x :: rest
  | _ => l
  end.

(** The first [setMessages] updater of [addMessage], before the new message is appended. *)
Definition truncate (opts : ChatOptions) (prev : list Message) : list Message :=
  if Z.of_nat (length prev) >=? maxMessagesToStore opts then
    if existsb (fun m => role_eqb (Message.role m) system) prev
    then splice_1_1 prev
    else tl prev
  else prev.

(** [m.role !== 'assistant' || !m.isLoading] *)
Definition sendable (m : Message) : bool :=
  negb (role_eqb (Message.role m) assistant)
  || negb (match Message.isLoading m with Some b => b | None => false end).

Definition authorization_header (opts : ChatOptions) : option jsstring :=
  match apiKey opts with
  | Some k => if jseqb k [] then None else Some (js "Bearer " ++ k)
  | None => None
  end.

Definition is_AbortError (e : Thrown) : bool :=
  match name e with
  | Some n => jseqb n (js "AbortError")
  | None => false
  end.

Section Platform.

(** [JSON.parse]: [None] when it throws a SyntaxError. *)
Variable JSON_parse : jsstring -> option JSValue.
Variable Number_toString : float -> jsstring.

(** [parsed.content || parsed.choices?.[0]?.delta?.content || ''] for a
    [parsed] that is not [null]. *)
Definition extract (parsed : JSValue) : JSValue :=
  or_else (get parsed (js "content"))
    (or_else
       (opt_get (opt_get (opt_get0 (get parsed (js "choices"))) (js "delta")) (js "content"))
       (JStr [])).

(** The inner [try]/[catch] of the read loop: the content of one chunk.
    [JSON.parse] throwing, or [parsed] being [null] (whose [content] cannot
    be read), lands in the [catch], where [content = chunk]. *)
Definition chunk_content (chunk : jsstring) : JSValue :=
  match JSON_parse chunk with
  | None => JStr chunk
  | Some parsed => if nullish parsed then JStr chunk else extract parsed
  end.

(** The [while (true)] loop over the chunks read before the stream ends:
    [accumulatedContent += content] and the [setMessages] update, per
    chunk. When [+=] throws (the content cannot be converted to a string),
    the outer [catch] logs the error: the chunk adds nothing and the
    messages are not updated. *)
Fixpoint read_loop (assistantId : jsstring) (chunks : list jsstring)
    (accumulatedContent : jsstring) (msgs : list Message)
    : jsstring * list Message :=
  match chunks with
  | [] => (accumulatedContent, msgs)
  | chunk :: rest =>
      let content := chunk_content chunk in
      match ToString Number_toString content with
      | Some text =>
          let accumulatedContent := accumulatedContent ++ text in
          read_loop assistantId rest accumulatedContent
            (update_by_id assistantId (fun m => with_content m (JStr accumulatedContent)) msgs)
      | None => read_loop assistantId rest accumulatedContent msgs
      end
  end.

(** [handleStreamingRequest]: the messages after it, what it did, and what
    it threw, if it threw. *)
Definition handleStreamingRequest (opts : ChatOptions) (env : Env)
    (apiMessages : list (MessageRole * JSValue)) (assistantId : jsstring)
    (msgs : list Message) : list Message * list Effect * option Thrown :=
  let request := Fetch (apiEndpoint opts) (authorization_header opts) apiMessages true in
  match outcome env with
  | FetchRejects e => (msgs, [request], Some e)
  | FetchResolves response =>
      if negb (ok response) then
        (msgs, [request], Some (new_Error (js "Server error: " ++ Z_toString (status response))))
      else
        match body response with
        | None => (msgs, [request], Some (new_Error (js "Response body is null")))
        | Some (chunks, ending) =>
            let '(accumulatedContent, msgs') := read_loop assistantId chunks [] msgs in
            match ending with
            | Done =>
                let finalMessage :=
                  Message.mk assistantId (JStr accumulatedContent) assistant (now_final env) None None in
                (msgs',
                 request :: (if onMessageResponse opts then [OnMessageResponse finalMessage] else []),
                 None)
            | ReadRejects e =>
                if instanceofError e && negb (is_AbortError e)
                then (msgs', [request], Some e)
                else (msgs', [request], None)
            end
        end
  end.

(** [data.content || data.choices?.[0]?.message?.content || ''] *)
Definition extract_standard (data : JSValue) : JSValue :=
  or_else (get data (js "content"))
    (or_else
       (opt_get (opt_get (opt_get0 (get data (js "choices"))) (js "message")) (js "content"))
       (JStr [])).

(** [handleStandardRequest]. Reading [content] of a [null] response throws a TypeError. *)
Definition handleStandardRequest (opts : ChatOptions) (env : Env)
    (apiMessages : list (MessageRole * JSValue)) (assistantId : jsstring)
    (msgs : list Message) : list Message * list Effect * option Thrown :=
  let request := Fetch (apiEndpoint opts) (authorization_header opts) apiMessages false in
  match outcome env with
  | FetchRejects e => (msgs, [request], Some e)
  | FetchResolves response =>
      if negb (ok response) then
        (msgs, [request], Some (new_Error (js "Server error: " ++ Z_toString (status response))))
      else
        match json response with
        | inl e => (msgs, [request], Some e)
        | inr data =>
            if nullish data then
              (msgs, [request],
               Some (mkThrown true (Some (js "TypeError")) (js "Cannot read properties of null (reading 'content')")))
            else
              let content := extract_standard data in
              let finalMessage :=
                Message.mk assistantId content assistant (now_final env) None None in
              (update_by_id assistantId (fun m => with_content m content) msgs,
               request :: (if onMessageResponse opts then [OnMessageResponse finalMessage] else []),
               None)
        end
  end.

(** The [catch] clause of [addMessage]: the message an error is reported with. *)
Definition errorMessage_of (e : Thrown) : jsstring :=
  let errorMessage := js "Failed to communicate with the server" in
  let errorMessage := if instanceofError e then message e else errorMessage in
  if is_AbortError e then js "Request was cancelled" else errorMessage.

(** [addMessage(content, role)], called from the current render (its
    [messages] are the state's), and run until its promise settles. *)
Definition addMessage (opts : ChatOptions) (env : Env) (st : Hook)
    (content : jsstring) (role : MessageRole) : Hook * list Effect :=
  if jseqb (trim content) [] then (st, [])
  else
    let newMessage := createMessage (id_message env) (now_message env) (JStr content) role in
    let msgs1 := truncate opts (messages st) ++ [newMessage] in
    match role with
    | user =>
        let assistantPlaceholder :=
          Message.mk (id_placeholder env) (JStr []) assistant (now_placeholder env) (Some true) None in
        let msgs2 := msgs1 ++ [assistantPlaceholder] in
        let messagesToSend := filter (fun m => sendable m = true) (messages st ++ [newMessage]) in
        let messagesToSend :=
          if jseqb (currentSystemMessage st) [] then messagesToSend
          else createMessage (id_system env) (now_system env) (JStr (currentSystemMessage st)) system
                 :: messagesToSend in
        let apiMessages := map (fun m => (Message.role m, Message.content m)) messagesToSend in
        let '(msgs3, effects, thrown) :=
          if streamingEnabled opts
          then handleStreamingRequest opts env apiMessages (id_placeholder env) msgs2
          else handleStandardRequest opts env apiMessages (id_placeholder env) msgs2 in
        match thrown with
        | None =>
            ({| messages := msgs3; isLoading := false; error := None;
                currentSystemMessage := currentSystemMessage st;
                abortControllerRef := true |},
             effects)
        | Some e =>
            let errorMessage := errorMessage_of e in
            ({| messages :=
                  update_by_id (id_placeholder env) (fun m => with_error m errorMessage) msgs3;
                isLoading := false; error := Some errorMessage;
                currentSystemMessage := currentSystemMessage st;
                abortControllerRef := true |},
             effects ++ (if onError opts then [OnError errorMessage] else []))
        end
    | _ =>
        ({| messages := msgs1; isLoading := isLoading st; error := error st;
            currentSystemMessage := currentSystemMessage st;
            abortControllerRef := abortControllerRef st |},
         [])
    end.

(** The content of a chunk as the specification words it: [parsed.content]
    if the chunk parses and has a [content] field, else
    [parsed.choices[0].delta.content] if present, else the raw chunk text. *)
Definition spec_chunk_content (chunk : jsstring) : JSValue :=
  match JSON_parse chunk with
  | None => JStr chunk
  | Some parsed =>
      if nullish parsed then JStr chunk
      else
        match get parsed (js "content") with
        | JUndefined =>
            match opt_get (opt_get (opt_get0 (get parsed (js "choices"))) (js "delta")) (js "content") with
            | JUndefined => JStr chunk
            | c => c
            end
        | c => c
        end
  end.

(** What a chunk adds to the text, with a given reading of a chunk:
    nothing when its content cannot be converted. *)
Definition contribution (reading : jsstring -> JSValue) (chunk : jsstring) : jsstring :=
  match ToString Number_toString (reading chunk) with
  | Some text => text
  | None => []
  end.

(** The text a stream of chunks adds up to. *)
Definition accumulated (reading : jsstring -> JSValue) (chunks : list jsstring) : jsstring :=
  concat (map (contribution reading) chunks).

(** Whether the loop updates the messages at a chunk, and at any of some chunks. *)
Definition converted (chunk : jsstring) : bool :=
  match ToString Number_toString (chunk_content chunk) with
  | Some _ => true
  | None => false
  end.

Definition updated (chunks : list jsstring) : bool := existsb converted chunks.

End Platform.

(** [abortRequest()] on the hook's side: the controller is aborted and the
    ref cleared; the pending request then settles as the platform settles
    an aborted request. *)
Definition abortRequest (st : Hook) : Hook :=
  {| messages := messages st; isLoading := isLoading st; error := error st;
     currentSystemMessage := currentSystemMessage st;
     abortControllerRef := false |}.

(** What the platform makes of a request aborted before the response
    arrived, and of one aborted while its body was being read, [chunks]
    having been read by then. *)
Definition aborted_before_response : FetchOutcome := FetchRejects AbortError.

Definition aborted_during_body (chunks : list jsstring) : FetchOutcome :=
  FetchResolves {| ok := true; status := 200;
                   body := Some (chunks, ReadRejects AbortError);
                   json := inl AbortError |}.

(** ** Sample platform values

    The closed examples below run the hook on a platform whose [JSON.parse]
    reads the numeral [42] as the number 42, and the texts
    [{"content":"Hi"}] and
    [{"message":{"role":"assistant","content":"Hi"}}] (the shape in which
    the repository's own [/api/chat] route answers) as the objects they
    denote, and rejects the plain text the examples use, as every
    [JSON.parse] does; [Number.prototype.toString] prints 42 as [42].
    Nothing else of either function is evaluated. *)

Definition quote : jsstring := [34%N].

(** The string [s] between double quotes. *)
Definition quoted (s : string) : jsstring := quote ++ js s ++ quote.

(** The chunk [{"content":"Hi"}]. *)
Definition json_chunk : jsstring :=
  js "{" ++ quoted "content" ++ js ":" ++ quoted "Hi" ++ js "}".

(** The chunk [{"message":{"role":"assistant","content":"Hi"}}]. *)
Definition api_chat_chunk : jsstring :=
  js "{" ++ quoted "message" ++ js ":{" ++ quoted "role" ++ js ":" ++ quoted "assistant"
  ++ js "," ++ quoted "content" ++ js ":" ++ quoted "Hi" ++ js "}}".

Definition sample_JSON_parse (s : jsstring) : option JSValue :=
  if jseqb s (js "42") then Some (JNum 42%float)
  else if jseqb s json_chunk then Some (JObj [(js "content", JStr (js "Hi"))])
  else if jseqb s api_chat_chunk
  then Some (JObj [(js "message",
                    JObj [(js "role", JStr (js "assistant")); (js "content", JStr (js "Hi"))])])
  else None.

Definition sample_Number_toString (f : float) : jsstring :=
  if PrimFloat.eqb f 42%float then js "42" else [].

(** The chunks [{"content":{"toString":1}}] and [{"content":{"a":1}}], and
    a [JSON.parse] that reads them (and rejects plain text). *)
Definition toString_chunk : jsstring :=
  js "{" ++ quoted "content" ++ js ":{" ++ quoted "toString" ++ js ":1}}".

Definition object_chunk : jsstring :=
  js "{" ++ quoted "content" ++ js ":{" ++ quoted "a" ++ js ":1}}".

Definition objects_JSON_parse (s : jsstring) : option JSValue :=
  if jseqb s toString_chunk
  then Some (JObj [(js "content", JObj [(js "toString", JNum 1%float)])])
  else if jseqb s object_chunk
  then Some (JObj [(js "content", JObj [(js "a", JNum 1%float)])])
  else None.

Definition sample_options : ChatOptions :=
  {| apiEndpoint := js "/api/chat"; apiKey := None; maxMessagesToStore := 100;
     onError := true; onMessageResponse := true; streamingEnabled := true |}.

Definition sample_hook : Hook :=
  {| messages := []; isLoading := false; error := None;
     currentSystemMessage := []; abortControllerRef := false |}.

Definition sample_env (o : FetchOutcome) : Env :=
  {| id_message := js "m1"; now_message := 1000;
     id_placeholder := js "m2"; now_placeholder := 1001;
     id_system := js "m3"; now_system := 1002;
     now_final := 2000; outcome := o |}.

Definition streamed (chunks : list jsstring) : FetchOutcome :=
  FetchResolves {| ok := true; status := 200; body := Some (chunks, Done);
                   json := inl AbortError |}.

(** The messages handed to [onMessageResponse], and those to [onError]. *)
Definition responses (effects : list Effect) : list Message :=
  flat_map (fun e => match e with OnMessageResponse m => [m] | _ => [] end) effects.

Definition reported (effects : list Effect) : list jsstring :=
  flat_map (fun e => match e with OnError m => [m] | _ => [] end) effects.

Definition requests (effects : list Effect) : list Effect :=
  List.filter (fun e => match e with Fetch _ _ _ _ => true | _ => false end) effects.

(** The placeholder of a call after its streamed body was read, with
    [text] accumulated: it carries [text] and no error, and it no longer
    loads if the loop updated the messages at some chunk ([shown]). *)
Definition streamed_placeholder (env : Env) (text : jsstring) (shown : bool) : Message :=
  Message.mk (id_placeholder env) (JStr text) assistant (now_placeholder env)
    (Some (negb shown)) None.

(** The outcome of a user message whose streamed body ended normally with
    [text] accumulated: the hook has no error and no longer loads, the
    placeholder, last in the list, carries [text], and
    [onMessageResponse], when there is one, received one message that
    carries it; [onError] was not called. *)
Definition streamed_result (opts : ChatOptions) (env : Env) (text : jsstring) (shown : bool)
    (result : Hook * list Effect) : Prop :=
  error (fst result) = None
  /\ isLoading (fst result) = false
  /\ (exists earlier,
        messages (fst result) = earlier ++ [streamed_placeholder env text shown])
  /\ responses (snd result)
     = (if onMessageResponse opts
        then [Message.mk (id_placeholder env) (JStr text) assistant (now_final env) None None]
        else [])
  /\ reported (snd result) = [].

Definition cancelled : jsstring := js "Request was cancelled".

(** An abort that is surfaced: the hook's [error] is the cancellation
    message, the placeholder carries it with [isLoading] false, and
    [onError], when there is one, was called with it. *)
Definition surfaced (opts : ChatOptions) (env : Env) (result : Hook * list Effect) : Prop :=
  error (fst result) = Some cancelled
  /\ isLoading (fst result) = false
  /\ (exists earlier m,
        messages (fst result) = earlier ++ [m]
        /\ Message.id m = id_placeholder env
        /\ Message.error m = Some cancelled
        /\ Message.isLoading m = Some false)
  /\ reported (snd result) = (if onError opts then [cancelled] else []).

(** An abort that leaves no trace, [text] having been accumulated by then:
    no error in the hook, the placeholder, last in the list, keeps [text]
    and carries no error, and neither [onError] nor [onMessageResponse] is
    called. *)
Definition swallowed (env : Env) (text : jsstring) (shown : bool)
    (result : Hook * list Effect) : Prop :=
  error (fst result) = None
  /\ isLoading (fst result) = false
  /\ (exists earlier,
        messages (fst result) = earlier ++ [streamed_placeholder env text shown])
  /\ reported (snd result) = []
  /\ responses (snd result) = [].

(** ** The other operations of the hook *)

(** [Partial<Omit<Message, 'id'>>]: the fields an update gives, each with
    the value it gives it ([isLoading] and [error] may be given as
    [undefined]). *)
Module Updates.
Record t : Type := mk {
  content : option JSValue;
  role : option MessageRole;
  timestamp : option Z;
  isLoading : option (option bool);
  error : option (option jsstring)
}.
End Updates.

(** [{ ...m, ...updates }] *)
Definition merge_updates (m : Message) (updates : Updates.t) : Message :=
  Message.mk (Message.id m)
    (match Updates.content updates with Some c => c | None => Message.content m end)
    (match Updates.role updates with Some r => r | None => Message.role m end)
    (match Updates.timestamp updates with Some t => t | None => Message.timestamp m end)
    (match Updates.isLoading updates with Some l => l | None => Message.isLoading m end)
    (match Updates.error updates with Some e => e | None => Message.error m end).

Definition with_messages (st : Hook) (msgs : list Message) : Hook :=
  {| messages := msgs; isLoading := isLoading st; error := error st;
     currentSystemMessage := currentSystemMessage st;
     abortControllerRef := abortControllerRef st |}.

(** [updateMessage(id, updates)] *)
Definition updateMessage (target : jsstring) (updates : Updates.t) (st : Hook) : Hook :=
  with_messages st (update_by_id target (fun m => merge_updates m updates) (messages st)).

(** [deleteMessage(id)] *)
Definition deleteMessage (target : jsstring) (st : Hook) : Hook :=
  with_messages st
    (List.filter (fun m => negb (jseqb (Message.id m) target)) (messages st)).

(** [clearMessages()] *)
Definition clearMessages (st : Hook) : Hook := with_messages st [].

(** [resetError()] *)
Definition resetError (st : Hook) : Hook :=
  {| messages := messages st; isLoading := isLoading st; error := None;
     currentSystemMessage := currentSystemMessage st;
     abortControllerRef := abortControllerRef st |}.

(** [setSystemMessage(message)] *)
Definition setSystemMessage (message : jsstring) (st : Hook) : Hook :=
  {| messages := messages st; isLoading := isLoading st; error := error st;
     currentSystemMessage := message;
     abortControllerRef := abortControllerRef st |}.

(** A request that failed with [errorMessage]: the hook's [error] is the
    message and it no longer loads, the placeholder, last in the list and
    still empty, carries the message with [isLoading] false, [onError] (when
    there is one) was called once with it and [onMessageResponse] not at all. *)
Definition failed_with (opts : ChatOptions) (env : Env) (errorMessage : jsstring)
    (result : Hook * list Effect) : Prop :=
  error (fst result) = Some errorMessage
  /\ isLoading (fst result) = false
  /\ (exists earlier,
        messages (fst result)
        = earlier ++ [Message.mk (id_placeholder env) (JStr []) assistant (now_placeholder env)
                        (Some false) (Some errorMessage)])
  /\ reported (snd result) = (if onError opts then [errorMessage] else [])
  /\ responses (snd result) = [].

(** The messages a call sends: an entry of the request for each. *)
Definition api_message (m : Message) : MessageRole * JSValue :=
  (Message.role m, Message.content m).

(** Whether [truncate] removes a message from a list. *)
Definition drops (opts : ChatOptions) (prev : list Message) : bool :=
  (Z.of_nat (length prev) >=? maxMessagesToStore opts)
  && (if existsb (fun m => role_eqb (Message.role m) system) prev
      then (2 <=? length prev)%nat else (1 <=? length prev)%nat).

(** A standard response with the given JSON. *)
Definition answered (code : Z) (data : JSValue) : FetchOutcome :=
  FetchResolves {| ok := true; status := code; body := None; json := inr data |}.

(** A function on messages that keeps the id and the role of every message
    and changes no message of another id than [pid]. *)
Definition touches_only (pid : jsstring) (g : Message -> Message) : Prop :=
  forall m,
    Message.id (g m) = Message.id m
    /\ Message.role (g m) = Message.role m
    /\ (jseqb (Message.id m) pid = false -> g m = m).

(** The handler of a request, as [addMessage] chooses it. *)
Definition handle (JSON_parse : jsstring -> option JSValue) (Number_toString : float -> jsstring)
    (opts : ChatOptions) (env : Env) (api : list (MessageRole * JSValue))
    (pid : jsstring) (msgs : list Message) : list Message * list Effect * option Thrown :=
  if streamingEnabled opts
  then handleStreamingRequest JSON_parse Number_toString opts env api pid msgs
  else handleStandardRequest opts env api pid msgs.

(** The parts of a user message's [addMessage]: the system message it
    creates, the messages it sends, and the list it hands to the handler. *)
Definition systemMessages (env : Env) (st : Hook) : list Message :=
  if jseqb (currentSystemMessage st) [] then []
  else [createMessage (id_system env) (now_system env) (JStr (currentSystemMessage st)) system].

Definition sent_messages (env : Env) (st : Hook) (content : jsstring) : list (MessageRole * JSValue) :=
  map api_message
    (systemMessages env st
     ++ filter (fun m => sendable m = true) (messages st)
     ++ [createMessage (id_message env) (now_message env) (JStr content) user]).

Definition pending_messages (opts : ChatOptions) (env : Env) (st : Hook) (content : jsstring)
    : list Message :=
  (truncate opts (messages st)
   ++ [createMessage (id_message env) (now_message env) (JStr content) user])
  ++ [Message.mk (id_placeholder env) (JStr []) assistant (now_placeholder env) (Some true) None].

(** A conversation under way, with a system message at its head, and
    options with a small capacity and no streaming. *)
Definition talking : Hook :=
  {| messages :=
       [ Message.mk (js "s0") (JStr (js "Be brief")) system 10 None None;
         Message.mk (js "u0") (JStr (js "Hi")) user 20 None None;
         Message.mk (js "a0") (JStr (js "Hello!")) assistant 30 (Some false) None ];
     isLoading := false; error := None;
     currentSystemMessage := js "Be brief"; abortControllerRef := false |}.

Definition small_options : ChatOptions :=
  {| apiEndpoint := js "/api/chat"; apiKey := None; maxMessagesToStore := 3;
     onError := true; onMessageResponse := true; streamingEnabled := false |}.

Definition refused (code : Z) : FetchOutcome :=
  FetchResolves {| ok := false; status := code; body := None; json := inr JNull |}.


End Chat.

(* ===================================================================== *)
(** * The [MicButton] component *)
(* ===================================================================== *)

(** A function component's body runs once per render. The state variables
    it declares ([const [isRecording, setIsRecording] = useState(false)],
    ...) are constants of that run, and the functions the body defines
    ([startRecording], [stopRecording], [checkSilence], ...) close over
    them: a callback handed to [setInterval], [setTimeout] or
    [requestAnimationFrame] keeps reading the values of the render that
    created it, whatever the setters have stored since. Refs
    ([useRef]) are shared by all renders. The model keeps the two apart:
    every function of the component takes the render it belongs to, and
    every pending callback records it.

    The component is followed while it is mounted, its props fixed and its
    [isRecording] prop absent; [startRecording] is taken as one step, the
    outcome of [getUserMedia] being given with the click. *)

Module Mic.

Definition Blob : Type := list N.

Record Props : Type := {
  disabled : bool;
  maxDuration : Z;
  autoStopSilence : Z;
  onRecordingComplete : bool;
  onRecordingStart : bool;
  onRecordingCancel : bool;
  onBeforeRecording : bool
}.

(** The [useState] cells; a render is a snapshot of them. *)
Record Cells : Type := {
  isRecording : bool;
  recordingDuration : Z;
  isPermissionDenied : bool;
  recordingLevel : float;
  hasSpeechStarted : bool
}.

Abbreviation Render := Cells.

(** A [MediaRecorder]: recording, or inactive; [Stopping] is inactive with
    the task that fires [dataavailable] and [stop] still queued. *)
Inductive Recorder : Type := Recording | Stopping | Inactive.

(** The [setInterval] of [startRecording]: the render whose callback it
    runs, and [startTime]. *)
Record Interval : Type := {
  interval_render : Render;
  startTime : Z
}.

(** The [setTimeout] of [checkSilence]: the render whose callback it runs,
    when it is due, and whether it has yet to fire. *)
Record Timeout : Type := {
  timeout_render : Render;
  due : Z;
  pending : bool
}.

(** The [useRef] cells. A timer ref holds the timer it names ([None] is
    [null]); [animationFrameRef] holds the render of the [updateLevel] that
    is scheduled. *)
Record Refs : Type := {
  mediaRecorderRef : option Recorder;
  audioChunksRef : list Blob;
  animationFrameRef : option Render;
  timerIntervalRef : option Interval;
  analyserRef : bool;
  micStreamRef : bool;
  silenceTimeoutRef : option Timeout;
  lastAudioLevelRef : float
}.

(** The calls the component makes on its consumer. *)
Inductive Call : Type :=
| RecordingComplete (audioBlob : Blob)
| RecordingStart
| RecordingCancel
| BeforeRecording.

(** The component between two events: the committed state, the refs, the
    frequency data the analyser would hand out, and the calls made so far. *)
Record State : Type := {
  cells : Cells;
  refs : Refs;
  analyserData : list Z;
  calls : list Call
}.

Definition initial : State :=
  {| cells := {| isRecording := false; recordingDuration := 0;
                 isPermissionDenied := false; recordingLevel := 0%float;
                 hasSpeechStarted := false |};
     refs := {| mediaRecorderRef := None; audioChunksRef := [];
                animationFrameRef := None; timerIntervalRef := None;
                analyserRef := false; micStreamRef := false;
                silenceTimeoutRef := None; lastAudioLevelRef := 0%float |};
     analyserData := [];
     calls := [] |}.

(** ** Setters *)

Definition with_cells (st : State) (c : Cells) : State :=
  {| cells := c; refs := refs st; analyserData := analyserData st; calls := calls st |}.

Definition with_refs (st : State) (r : Refs) : State :=
  {| cells := cells st; refs := r; analyserData := analyserData st; calls := calls st |}.

Definition setIsRecording (b : bool) (st : State) : State :=
  with_cells st
    {| isRecording := b; recordingDuration := recordingDuration (cells st);
       isPermissionDenied := isPermissionDenied (cells st);
       recordingLevel := recordingLevel (cells st);
       hasSpeechStarted := hasSpeechStarted (cells st) |}.

Definition setRecordingDuration (d : Z) (st : State) : State :=
  with_cells st
    {| isRecording := isRecording (cells st); recordingDuration := d;
       isPermissionDenied := isPermissionDenied (cells st);
       recordingLevel := recordingLevel (cells st);
       hasSpeechStarted := hasSpeechStarted (cells st) |}.

Definition setIsPermissionDenied (b : bool) (st : State) : State :=
  with_cells st
    {| isRecording := isRecording (cells st);
       recordingDuration := recordingDuration (cells st);
       isPermissionDenied := b;
       recordingLevel := recordingLevel (cells st);
       hasSpeechStarted := hasSpeechStarted (cells st) |}.

Definition setRecordingLevel (l : float) (st : State) : State :=
  with_cells st
    {| isRecording := isRecording (cells st);
       recordingDuration := recordingDuration (cells st);
       isPermissionDenied := isPermissionDenied (cells st);
       recordingLevel := l;
       hasSpeechStarted := hasSpeechStarted (cells st) |}.

Definition setHasSpeechStarted (b : bool) (st : State) : State :=
  with_cells st
    {| isRecording := isRecording (cells st);
       recordingDuration := recordingDuration (cells st);
       isPermissionDenied := isPermissionDenied (cells st);
       recordingLevel := recordingLevel (cells st);
       hasSpeechStarted := b |}.

Definition set_mediaRecorderRef (v : option Recorder) (st : State) : State :=
  with_refs st
    {| mediaRecorderRef := v; audioChunksRef := audioChunksRef (refs st);
       animationFrameRef := animationFrameRef (refs st);
       timerIntervalRef := timerIntervalRef (refs st);
       analyserRef := analyserRef (refs st); micStreamRef := micStreamRef (refs st);
       silenceTimeoutRef := silenceTimeoutRef (refs st);
       lastAudioLevelRef := lastAudioLevelRef (refs st) |}.

Definition set_audioChunksRef (v : list Blob) (st : State) : State :=
  with_refs st
    {| mediaRecorderRef := mediaRecorderRef (refs st); audioChunksRef := v;
       animationFrameRef := animationFrameRef (refs st);
       timerIntervalRef := timerIntervalRef (refs st);
       analyserRef := analyserRef (refs st); micStreamRef := micStreamRef (refs st);
       silenceTimeoutRef := silenceTimeoutRef (refs st);
       lastAudioLevelRef := lastAudioLevelRef (refs st) |}.

Definition set_animationFrameRef (v : option Render) (st : State) : State :=
  with_refs st
    {| mediaRecorderRef := mediaRecorderRef (refs st);
       audioChunksRef := audioChunksRef (refs st);
       animationFrameRef := v;
       timerIntervalRef := timerIntervalRef (refs st);
       analyserRef := analyserRef (refs st); micStreamRef := micStreamRef (refs st);
       silenceTimeoutRef := silenceTimeoutRef (refs st);
       lastAudioLevelRef := lastAudioLevelRef (refs st) |}.

Definition set_timerIntervalRef (v : option Interval) (st : State) : State :=
  with_refs st
    {| mediaRecorderRef := mediaRecorderRef (refs st);
       audioChunksRef := audioChunksRef (refs st);
       animationFrameRef := animationFrameRef (refs st);
       timerIntervalRef := v;
       analyserRef := analyserRef (refs st); micStreamRef := micStreamRef (refs st);
       silenceTimeoutRef := silenceTimeoutRef (refs st);
       lastAudioLevelRef := lastAudioLevelRef (refs st) |}.

Definition set_analyserRef (v : bool) (st : State) : State :=
  with_refs st
    {| mediaRecorderRef := mediaRecorderRef (refs st);
       audioChunksRef := audioChunksRef (refs st);
       animationFrameRef := animationFrameRef (refs st);
       timerIntervalRef := timerIntervalRef (refs st);
       analyserRef := v; micStreamRef := micStreamRef (refs st);
       silenceTimeoutRef := silenceTimeoutRef (refs st);
       lastAudioLevelRef := lastAudioLevelRef (refs st) |}.

Definition set_micStreamRef (v : bool) (st : State) : State :=
  with_refs st
    {| mediaRecorderRef := mediaRecorderRef (refs st);
       audioChunksRef := audioChunksRef (refs st);
       animationFrameRef := animationFrameRef (refs st);
       timerIntervalRef := timerIntervalRef (refs st);
       analyserRef := analyserRef (refs st); micStreamRef := v;
       silenceTimeoutRef := silenceTimeoutRef (refs st);
       lastAudioLevelRef := lastAudioLevelRef (refs st) |}.

Definition set_silenceTimeoutRef (v : option Timeout) (st : State) : State :=
  with_refs st
    {| mediaRecorderRef := mediaRecorderRef (refs st);
       audioChunksRef := audioChunksRef (refs st);
       animationFrameRef := animationFrameRef (refs st);
       timerIntervalRef := timerIntervalRef (refs st);
       analyserRef := analyserRef (refs st); micStreamRef := micStreamRef (refs st);
       silenceTimeoutRef := v;
       lastAudioLevelRef := lastAudioLevelRef (refs st) |}.

Definition set_lastAudioLevelRef (v : float) (st : State) : State :=
  with_refs st
    {| mediaRecorderRef := mediaRecorderRef (refs st);
       audioChunksRef := audioChunksRef (refs st);
       animationFrameRef := animationFrameRef (refs st);
       timerIntervalRef := timerIntervalRef (refs st);
       analyserRef := analyserRef (refs st); micStreamRef := micStreamRef (refs st);
       silenceTimeoutRef := silenceTimeoutRef (refs st);
       lastAudioLevelRef := v |}.

(** [callback?.(...)]: the call is made when the prop is there. *)
Definition call (present : bool) (c : Call) (st : State) : State :=
  if present
  then {| cells := cells st; refs := refs st; analyserData := analyserData st;
          calls := calls st ++ [c] |}
  else st.

(** ** The component's functions *)

(** [mediaRecorderRef.current.stop()]: a recording recorder becomes
    inactive and queues its last [dataavailable] and its [stop]; on an
    inactive one the call does nothing. *)
Definition MediaRecorder_stop (st : State) : State :=
  match mediaRecorderRef (refs st) with
  | Some Recording => set_mediaRecorderRef (Some Stopping) st
  | _ => st
  end.

Definition has_recorder (st : State) : bool :=
  match mediaRecorderRef (refs st) with Some _ => true | None => false end.

(** [stopRecording], of render [r]. *)
Definition stopRecording (r : Render) (st : State) : State :=
  if negb (isRecording r) || negb (has_recorder st) then st
  else MediaRecorder_stop st.

(** [cancelRecording], of render [r]. *)
Definition cancelRecording (p : Props) (r : Render) (st : State) : State :=
  if negb (isRecording r) || negb (has_recorder st) then st
  else call (onRecordingCancel p) RecordingCancel (MediaRecorder_stop st).

Definition SILENCE_THRESHOLD : float := 0.05%float.
Definition MIN_SPEECH_LEVEL : float := 0.1%float.

Definition has_silenceTimeout (st : State) : bool :=
  match silenceTimeoutRef (refs st) with Some _ => true | None => false end.

(** [checkSilence(audioLevel)], of render [r], called at time [now]. *)
Definition checkSilence (p : Props) (r : Render) (now : Z) (audioLevel : float)
    (st : State) : State :=
  let st :=
    if PrimFloat.ltb MIN_SPEECH_LEVEL audioLevel then
      let st := setHasSpeechStarted true st in
      let st := set_lastAudioLevelRef audioLevel st in
      if has_silenceTimeout st then set_silenceTimeoutRef None st else st
    else st in
  let st :=
    if hasSpeechStarted r then
      if PrimFloat.ltb audioLevel SILENCE_THRESHOLD
         && PrimFloat.ltb SILENCE_THRESHOLD (lastAudioLevelRef (refs st))
      then
        if has_silenceTimeout st then st
        else set_silenceTimeoutRef
               (Some {| timeout_render := r; due := now + autoStopSilence p; pending := true |})
               st
      else if PrimFloat.leb SILENCE_THRESHOLD audioLevel && has_silenceTimeout st
      then set_silenceTimeoutRef None st
      else st
    else st in
  set_lastAudioLevelRef audioLevel st.

(** The callback of that timeout: [if (isRecording) stopRecording()]. *)
Definition silence_elapsed (r : Render) (st : State) : State :=
  if isRecording r then stopRecording r st else st.

(** [analyser.frequencyBinCount] after [fftSize = 256]. *)
Definition bufferLength : Z := 128.

(** [Math.min(a, b)] *)
Definition Math_min (a b : float) : float :=
  if PrimFloat.is_nan a || PrimFloat.is_nan b then PrimFloat.nan
  else if PrimFloat.ltb b a then b else a.

Definition to_float (z : Z) : float := PrimFloat.of_uint63 (Uint63.of_Z z).

(** The level [updateLevel] computes from the bytes of [dataArray]:
    [Math.min(1, (sum / bufferLength) / 128)]. *)
Definition level_of (dataArray : list Z) : float :=
  let sum := fold_left Z.add (firstn (Z.to_nat bufferLength) dataArray) 0 in
  let avg := PrimFloat.div (to_float sum) (to_float bufferLength) in
  Math_min 1%float (PrimFloat.div avg 128%float).

(** [updateLevel], of render [r]: one sample, and the next frame requested. *)
Definition updateLevel (p : Props) (r : Render) (now : Z) (st : State) : State :=
  let level := level_of (analyserData st) in
  let st := setRecordingLevel level st in
  let st := checkSilence p r now level st in
  set_animationFrameRef (Some r) st.

(** [visualizeAudio], of render [r]. *)
Definition visualizeAudio (p : Props) (r : Render) (now : Z) (st : State) : State :=
  if negb (analyserRef (refs st)) || negb (isRecording r) then st
  else updateLevel p r now st.

(** [mediaRecorder.ondataavailable] *)
Definition ondataavailable (data : Blob) (st : State) : State :=
  set_audioChunksRef (audioChunksRef (refs st) ++ [data]) st.

(** [mediaRecorder.onstop]; [new Blob(chunks)] is the chunks end to end. *)
Definition onstop (p : Props) (st : State) : State :=
  let audioBlob := concat (audioChunksRef (refs st)) in
  let st := call (onRecordingComplete p) (RecordingComplete audioBlob) st in
  let st := setIsRecording false st in
  let st := setRecordingDuration 0 st in
  let st := setHasSpeechStarted false st in
  let st := set_animationFrameRef None st in
  let st := set_timerIntervalRef None st in
  let st := set_silenceTimeoutRef None st in
  set_micStreamRef false st.

(** The callback of the one-second interval, of render [r], run at [now]. *)
Definition timer_tick (p : Props) (i : Interval) (now : Z) (st : State) : State :=
  let seconds := (now - startTime i) / 1000 in
  let st := setRecordingDuration seconds st in
  if seconds >=? maxDuration p then stopRecording (interval_render i) st else st.

(** [startRecording], of render [r]: [granted] is whether
    [getUserMedia] resolved, [now] the [Date.now()] of [startTime]. *)
Definition startRecording (p : Props) (r : Render) (granted : bool) (now : Z)
    (st : State) : State :=
  if disabled p || isRecording r || isPermissionDenied r then st
  else
    let st := call (onBeforeRecording p) BeforeRecording st in
    if granted then
      let st := set_micStreamRef true st in
      let st := set_analyserRef true st in
      let st := set_mediaRecorderRef (Some Recording) st in
      let st := set_audioChunksRef [] st in
      let st := setIsRecording true st in
      let st := call (onRecordingStart p) RecordingStart st in
      let st := set_timerIntervalRef (Some {| interval_render := r; startTime := now |}) st in
      visualizeAudio p r now st
    else setIsPermissionDenied true st.

(** ** Events *)

Inductive Event : Type :=
| ClickButton (granted : bool) (now : Z)
| ClickCancel
| IntervalTick (now : Z)
| Sound (data : list Z)
| AnimationFrame (now : Z)
| SilenceTimeout (now : Z)
| RecorderStops (data : Blob).

(** One event, handled on the component as last rendered: the button and
    the cancel button carry the functions of the current render; a timer or
    frame callback runs the function it was created with. *)
Definition step (p : Props) (st : State) (e : Event) : State :=
  match e with
  | ClickButton granted now =>
      if disabled p || isPermissionDenied (cells st) then st
      else if isRecording (cells st) then stopRecording (cells st) st
      else startRecording p (cells st) granted now st
  | ClickCancel =>
      if isRecording (cells st) then cancelRecording p (cells st) st else st
  | IntervalTick now =>
      match timerIntervalRef (refs st) with
      | Some i => timer_tick p i now st
      | None => st
      end
  | Sound data =>
      {| cells := cells st; refs := refs st; analyserData := data; calls := calls st |}
  | AnimationFrame now =>
      match animationFrameRef (refs st) with
      | Some r => updateLevel p r now st
      | None => st
      end
  | SilenceTimeout now =>
      match silenceTimeoutRef (refs st) with
      | Some t =>
          if pending t && (due t <=? now) then
            silence_elapsed (timeout_render t)
              (set_silenceTimeoutRef
                 (Some {| timeout_render := timeout_render t; due := due t; pending := false |}) st)
          else st
      | None => st
      end
  | RecorderStops data =>
      match mediaRecorderRef (refs st) with
      | Some Stopping =>
          onstop p (ondataavailable data (set_mediaRecorderRef (Some Inactive) st))
      | _ => st
      end
  end.

Definition run (p : Props) (st : State) (events : list Event) : State :=
  fold_left (step p) events st.

Definition default_props : Props :=
  {| disabled := false; maxDuration := 60; autoStopSilence := 2000;
     onRecordingComplete := true; onRecordingStart := true;
     onRecordingCancel := true; onBeforeRecording := true |}.

(** ** What every reachable state looks like *)

(** The render that starts a recording has [isRecording] false (the guard
    of [startRecording] lets no other through), and that is the render the
    interval, [visualizeAudio] and [checkSilence] of this recording belong
    to. So the interval's [stopRecording] returns at its guard, and
    [visualizeAudio] returns before its first sample: no frame is ever
    requested, [checkSilence] never runs, no timeout is ever armed. *)
Definition stale (st : State) : Prop :=
  (forall i, timerIntervalRef (refs st) = Some i -> isRecording (interval_render i) = false)
  /\ animationFrameRef (refs st) = None
  /\ silenceTimeoutRef (refs st) = None
  /\ hasSpeechStarted (cells st) = false.

(** The events that are no act of the user. *)
Definition automatic (e : Event) : bool :=
  match e with
  | IntervalTick _ | Sound _ | AnimationFrame _ | SilenceTimeout _ => true
  | _ => false
  end.

(** One tick per second, [n] seconds long: at 1000, 2000, ... ms after the start. *)
Definition ticks (n : nat) : list Event :=
  map (fun k => IntervalTick (1000 * Z.of_nat k)) (seq 1 n).

(** 128 bins of loud sound, and of silence. *)
Definition loud : list Z := repeat 200 128.
Definition quiet : list Z := repeat 0 128.

(** [s.padStart(targetLength, pad)] for a filler of one code unit. *)
Definition padStart (targetLength : nat) (pad : N) (s : JS.jsstring) : JS.jsstring :=
  repeat pad (targetLength - length s) ++ s.

(** [formatTime(seconds)], of an integer: [Math.floor(seconds / 60)] is the
    floor of the quotient, [seconds % 60] has the sign of [seconds]. *)
Definition formatTime (seconds : Z) : JS.jsstring :=
  let mins := seconds / 60 in
  let secs := Z.rem seconds 60 in
  JS.Z_toString mins ++ JS.js ":" ++ padStart 2 48%N (JS.Z_toString secs).

(** The code unit of a decimal digit. *)
Definition digit (d : Z) : N := (48 + Z.to_N d)%N.

(** ** The protocol with the consumer *)

(** A recorder that has been started and whose [stop] event is yet to come. *)
Definition active (st : State) : bool :=
  match mediaRecorderRef (refs st) with
  | Some Recording | Some Stopping => true
  | _ => false
  end.

Definition is_complete (c : Call) : bool :=
  match c with RecordingComplete _ => true | _ => false end.

Definition is_start (c : Call) : bool :=
  match c with RecordingStart => true | _ => false end.

Definition completions (cs : list Call) : nat := length (List.filter is_complete cs).
Definition starts (cs : list Call) : nat := length (List.filter is_start cs).

(** What holds between two events: [isRecording] is true from the start of
    a recording to its [stop] event; outside, the duration shown is 0, no
    interval runs and the microphone is released; inside, no data has been
    collected yet and the permission has not been refused. *)
Definition settled (st : State) : Prop :=
  isRecording (cells st) = active st
  /\ (isRecording (cells st) = false ->
      recordingDuration (cells st) = 0
      /\ timerIntervalRef (refs st) = None
      /\ micStreamRef (refs st) = false)
  /\ (isRecording (cells st) = true ->
      audioChunksRef (refs st) = []
      /\ isPermissionDenied (cells st) = false).

(** Every recording started is under way or was delivered. *)
Definition counted (st : State) : Prop :=
  (completions (calls st) + (if active st then 1 else 0) = starts (calls st))%nat.

(** A session: a recording stopped by the button, one cancelled, then a
    refused permission. *)
Definition session : list Event :=
  [ ClickButton true 0; IntervalTick 1000; ClickButton true 1500; RecorderStops [1; 2; 3]%N;
    ClickButton true 5000; ClickCancel; RecorderStops [4; 5]%N;
    ClickButton false 9000 ].

End Mic.

(* ===================================================================== *)
(** * [MicButton]: [startRecording] in two steps *)
(* ===================================================================== *)

(** [startRecording] is [async]: a call returns at [await getUserMedia]
    and resumes, in the render it was called from and without checking its
    guard again, when the permission is answered. Until then the component
    handles whatever else happens: another click, a timer, the stop event
    of a recorder. A call that resumes with the permission granted assigns
    [mediaRecorderRef] and [timerIntervalRef] anew; a recorder or an
    interval they held is then out of the component's reach, although the
    recorder's [onstop] and the interval's callback still act on the
    component when they fire.

    Here the [isRecording] prop may be passed, and change. What follows
    [getUserMedia] in [startRecording] (the audio context, the recorder,
    the consumer's [onRecordingStart]) is taken not to throw. *)
Module MicAsync.
Import Mic.

Record Component : Type := {
  (** the state, the refs and the calls made, as in [Mic] *)
  held : State;
  (** the calls of [startRecording] that await [getUserMedia]: the render
      of each *)
  awaiting : list Render;
  (** how often [getUserMedia] was called *)
  asked : nat;
  (** the recorders [mediaRecorderRef] lost while they were recording, and
      those it lost between their [stop()] and their stop event *)
  abandoned : nat;
  stopping : nat;
  (** the intervals [timerIntervalRef] lost uncleared *)
  leaked : list Interval
}.

Definition initial : Component :=
  {| held := Mic.initial; awaiting := []; asked := 0;
     abandoned := 0; stopping := 0; leaked := [] |}.

Definition on_held (f : State -> State) (c : Component) : Component :=
  {| held := f (held c); awaiting := awaiting c; asked := asked c;
     abandoned := abandoned c; stopping := stopping c; leaked := leaked c |}.

(** [startRecording], of render [r], up to its [await]. *)
Definition startRecording_begins (p : Props) (r : Render) (c : Component) : Component :=
  if disabled p || isRecording r || isPermissionDenied r then c
  else
    {| held := call (onBeforeRecording p) BeforeRecording (held c);
       awaiting := awaiting c ++ [r];
       asked := S (asked c);
       abandoned := abandoned c; stopping := stopping c; leaked := leaked c |}.

(** [startRecording], of render [r], from its [await] on: [granted] is
    whether [getUserMedia] resolved, [now] the [Date.now()] of [startTime]. *)
Definition startRecording_resumes (p : Props) (r : Render) (granted : bool) (now : Z)
    (st : State) : State :=
  if granted then
    let st := set_micStreamRef true st in
    let st := set_analyserRef true st in
    let st := set_mediaRecorderRef (Some Recording) st in
    let st := set_audioChunksRef [] st in
    let st := setIsRecording true st in
    let st := call (onRecordingStart p) RecordingStart st in
    let st := set_timerIntervalRef (Some {| interval_render := r; startTime := now |}) st in
    visualizeAudio p r now st
  else setIsPermissionDenied true st.

(** [getUserMedia] settles for the call at position [k] of those that
    await it. *)
Definition answer (p : Props) (k : nat) (granted : bool) (now : Z) (c : Component)
    : Component :=
  match nth_error (awaiting c) k with
  | None => c
  | Some r =>
      let st := held c in
      {| held := startRecording_resumes p r granted now st;
         awaiting := firstn k (awaiting c) ++ skipn (S k) (awaiting c);
         asked := asked c;
         abandoned :=
           match mediaRecorderRef (refs st) with
           | Some Recording => if granted then S (abandoned c) else abandoned c
           | _ => abandoned c
           end;
         stopping :=
           match mediaRecorderRef (refs st) with
           | Some Stopping => if granted then S (stopping c) else stopping c
           | _ => stopping c
           end;
         leaked :=
           match timerIntervalRef (refs st) with
           | Some i => if granted then leaked c ++ [i] else leaked c
           | None => leaked c
           end |}
  end.

(** The effect on the [isRecording] prop, run when the prop has become [v]. *)
Definition isRecording_effect (p : Props) (v : bool) (c : Component) : Component :=
  let r := cells (held c) in
  if Bool.eqb v (isRecording r) then c
  else if v then startRecording_begins p r c
  else on_held (stopRecording r) c.

Inductive Event : Type :=
| Click
| Answer (k : nat) (granted : bool) (now : Z)
| External (v : bool)
| LeakedTick (k : nat) (now : Z)
| AbandonedStops (data : Blob)
| Other (e : Mic.Event).

(** One event. A click calls [stopRecording], or [startRecording] up to
    its [await]; the answer of [getUserMedia] is an event of its own. The
    events of [Mic] other than its click, which carries an answer and is
    no event here, are handled as there. *)
Definition step (p : Props) (c : Component) (e : Event) : Component :=
  match e with
  | Click =>
      if disabled p || isPermissionDenied (cells (held c)) then c
      else if isRecording (cells (held c)) then on_held (stopRecording (cells (held c))) c
      else startRecording_begins p (cells (held c)) c
  | Answer k granted now => answer p k granted now c
  | External v => isRecording_effect p v c
  | LeakedTick k now =>
      match nth_error (leaked c) k with
      | Some i => on_held (timer_tick p i now) c
      | None => c
      end
  | AbandonedStops data =>
      match stopping c with
      | S n =>
          {| held := onstop p (ondataavailable data (held c));
             awaiting := awaiting c; asked := asked c;
             abandoned := abandoned c; stopping := n; leaked := leaked c |}
      | O => c
      end
  | Other (ClickButton _ _) => c
  | Other e => on_held (fun st => Mic.step p st e) c
  end.

Definition run (p : Props) (c : Component) (events : list Event) : Component :=
  fold_left (step p) events c.

(** The events of [Mic] as events here: the click of [Mic], which carries
    the answer of [getUserMedia], is a click followed at once by that
    answer. *)
Definition expand (e : Mic.Event) : list Event :=
  match e with
  | ClickButton granted now => [Click; Answer 0 granted now]
  | _ => [Other e]
  end.

Definition atomic (events : list Mic.Event) : list Event := flat_map expand events.

(** No call awaits, and the refs have lost nothing. *)
Definition plain (c : Component) : Prop :=
  awaiting c = [] /\ abandoned c = 0%nat /\ stopping c = 0%nat /\ leaked c = [].

(** Every recording started was delivered, or its recorder is yet to stop:
    the one the ref holds, one the ref lost while it was stopping, or one
    it lost while it was recording. *)
Definition accounted (c : Component) : Prop :=
  (completions (calls (held c)) + abandoned c + stopping c
   + (if active (held c) then 1 else 0)
   = starts (calls (held c)))%nat.

(** What every event but a granted answer and a stop event leaves as it is. *)
Definition same_protocol (st st' : State) : Prop :=
  starts (calls st') = starts (calls st)
  /\ completions (calls st') = completions (calls st)
  /\ active st' = active st
  /\ isPermissionDenied (cells st') = isPermissionDenied (cells st).

(** Two clicks before the first answer, both granted; and two clicks of
    which the first is refused and the second granted. *)
Definition double_click : list Event :=
  [Click; Click; Answer 0 true 0; Answer 0 true 100].

Definition late_grant : list Event :=
  [Click; Click; Answer 0 false 0; Answer 0 true 100].

End MicAsync.

(* ===================================================================== *)
(** * [src/firebase/firestore.ts] *)
(* ===================================================================== *)

Module Firestore.

(** The values a document field holds. *)
Inductive Value : Type :=
| VString (s : string)
| VNumber (z : Z)
| VTimestamp (t : Z)
| VArray (items : list Value)
| VMap (fields : list (string * Value)).

(** A document, and an object literal handed to [setDoc], is its fields.
    A document is named by its collection and its id. *)
Abbreviation Doc := (gmap string Value).
Abbreviation DocRef := (string * string)%type.
Abbreviation Store := (gmap (string * string) (gmap string Value)).

Definition USERS_COLLECTION : string := "users".
Definition TALK_HISTORY_COLLECTION : string := "talk_history".

Record User : Type := { uid : string }.

(** The requests the module sends to Firestore. *)
Inductive Request : Type :=
| GetDoc (ref : DocRef)
| SetDoc (ref : DocRef) (data : Doc)
| DeleteDoc (ref : DocRef)
| GetDocs (collection : string) (userId : string).

Inductive Error : Type :=
| NoUser                                (* [new Error('No user logged in')] *)
| FirestoreError (request : Request).   (* the SDK rejected the request *)

Inductive Result (A : Type) : Type :=
| Ok (a : A)
| Throws (e : Error).
Arguments Ok {A} a.
Arguments Throws {A} e.

(** What a call takes from outside: which requests Firestore rejects, the
    two readings of [Timestamp.now()] a call may make, and the id of
    [doc(collection(...))]. *)
Record Env : Type := {
  rejects : Request -> bool;
  now : Z;
  now_again : Z;
  new_id : string
}.

(** The database and the requests sent so far. *)
Record World : Type := {
  store : Store;
  sent : list Request
}.

(** An [async] function: it runs on the world and returns or throws. *)
Definition M (A : Type) : Type := World -> Result A * World.

Definition ret {A : Type} (a : A) : M A := fun w => (Ok a, w).

Definition throw {A : Type} (e : Error) : M A := fun w => (Throws e, w).

(** [await] *)
Definition bind {A B : Type} (m : M A) (k : A -> M B) : M B :=
  fun w =>
    match m w with
    | (Ok a, w') => k a w'
    | (Throws e, w') => (Throws e, w')
    end.

Notation "'await' x <- m ; k" := (bind m (fun x => k))
  (at level 10, x name, m at level 100, k at level 200).

(** A request: it is sent, and rejected or served. *)
Definition request {A : Type} (env : Env) (r : Request)
    (serve : Store -> A * Store) : M A :=
  fun w =>
    let sent' := sent w ++ [r] in
    if rejects env r then (Throws (FirestoreError r), {| store := store w; sent := sent' |})
    else let '(a, s) := serve (store w) in (Ok a, {| store := s; sent := sent' |}).

(** [getDoc(ref)]: [None] when [exists()] is false. *)
Definition getDoc (env : Env) (ref : DocRef) : M (option Doc) :=
  request env (GetDoc ref) (fun s => (s !! ref, s)).

(** [setDoc(ref, data)], without merge options: the document is replaced. *)
Definition setDoc (env : Env) (ref : DocRef) (data : Doc) : M unit :=
  request env (SetDoc ref data) (fun s => (tt, <[ref := data]> s)).

Definition deleteDoc (env : Env) (ref : DocRef) : M unit :=
  request env (DeleteDoc ref) (fun s => (tt, delete ref s)).

(** [where('userId', '==', userId)] *)
Definition has_userId (userId : string) (d : Doc) : bool :=
  match d !! "userId" with
  | Some (VString s) => String.eqb s userId
  | _ => false
  end.

Definition matches (collection userId : string) (entry : DocRef * Doc) : bool :=
  String.eqb (fst (fst entry)) collection && has_userId userId (snd entry).

(** [getDocs(query(collection(db, c), where('userId', '==', userId)))]:
    the documents found, each with its ref, in no order the code relies on. *)
Definition getDocs (env : Env) (collection userId : string) : M (list (DocRef * Doc)) :=
  request env (GetDocs collection userId)
    (fun s => (map_to_list (filter (fun entry => matches collection userId entry = true) s), s)).

(** [Promise.all(promises)] over requests already sent: every one of them
    settles; the result is the first rejection, if any. *)
Fixpoint Promise_all (promises : list (M unit)) : M unit :=
  fun w =>
    match promises with
    | [] => (Ok tt, w)
    | p :: rest =>
        match p w with
        | (Ok _, w') => Promise_all rest w'
        | (Throws e, w') => (Throws e, snd (Promise_all rest w'))
        end
    end.

(** [saveUserSettings(user, settings)] *)
Definition saveUserSettings (env : Env) (user : option User) (settings : Doc) : M unit :=
  match user with
  | None => throw NoUser
  | Some u =>
      let userRef := (USERS_COLLECTION, uid u) in
      await userDoc <- getDoc env userRef;
      let updatedSettings : Doc :=
        <["updatedAt" := VTimestamp (now env)]>
          (settings ∪ (match userDoc with Some data => data | None => ∅ end)) in
      let updatedSettings : Doc :=
        match userDoc with
        | None => <["createdAt" := VTimestamp (now_again env)]> updatedSettings
        | Some _ => updatedSettings
        end in
      setDoc env userRef updatedSettings
  end.

(** [getUserSettings(user)] *)
Definition getUserSettings (env : Env) (user : option User) : M (option Doc) :=
  match user with
  | None => ret None
  | Some u => getDoc env (USERS_COLLECTION, uid u)
  end.

(** [deleteUserData(user)] *)
Definition deleteUserData (env : Env) (user : option User) : M unit :=
  match user with
  | None => throw NoUser
  | Some u =>
      await _ <- deleteDoc env (USERS_COLLECTION, uid u);
      await historyDocs <- getDocs env TALK_HISTORY_COLLECTION (uid u);
      let deletePromises := map (fun d => deleteDoc env (fst d)) historyDocs in
      Promise_all deletePromises
  end.

(** [saveTalkHistory(historyItem)] *)
Definition saveTalkHistory (env : Env) (historyItem : Doc) : M string :=
  let id := new_id env in
  await _ <- setDoc env (TALK_HISTORY_COLLECTION, id) (<["id" := VString id]> historyItem);
  ret id.

Section Ordering.

(** Firestore's order on field values, the platform's: [date_leb a b] when
    [a] sorts no later than [b]. *)
Variable date_leb : Value -> Value -> bool.

(** Insertion into a list ordered by [date], descending. *)
Fixpoint insert_desc (d : Doc) (v : Value) (l : list (Doc * Value)) : list (Doc * Value) :=
  match l with
  | [] => [(d, v)]
  | (d', v') :: rest =>
      if date_leb v' v then (d, v) :: l else (d', v') :: insert_desc d v rest
  end.

(** [orderBy('date', 'desc')]: documents without the field are left out. *)
Definition order_by_date_desc (docs : list Doc) : list Doc :=
  map fst
    (fold_right
       (fun d acc => match d !! "date" with
                     | Some v => insert_desc d v acc
                     | None => acc
                     end)
       [] docs).

(** [getUserTalkHistory(userId)] *)
Definition getUserTalkHistory (env : Env) (userId : string) : M (list Doc) :=
  await historyDocs <- getDocs env TALK_HISTORY_COLLECTION userId;
  ret (order_by_date_desc (map snd historyDocs)).

(** The exported operations of the module, as one type. *)
Inductive Operation : Type :=
| SaveUserSettings (user : option User) (settings : Doc)
| GetUserSettings (user : option User)
| DeleteUserData (user : option User)
| SaveTalkHistory (historyItem : Doc)
| GetUserTalkHistory (userId : string).

(** The world after an operation, whether it returned or threw. *)
Definition perform (env : Env) (op : Operation) (w : World) : World :=
  match op with
  | SaveUserSettings user settings => snd (saveUserSettings env user settings w)
  | GetUserSettings user => snd (getUserSettings env user w)
  | DeleteUserData user => snd (deleteUserData env user w)
  | SaveTalkHistory historyItem => snd (saveTalkHistory env historyItem w)
  | GetUserTalkHistory userId => snd (getUserTalkHistory env userId w)
  end.

End Ordering.

(** ** Sample data for the closed examples *)

Definition alice : User := {| uid := "alice" |}.

Definition serving (t : Z) : Env :=
  {| rejects := fun _ => false; now := t; now_again := t; new_id := "h3" |}.

(** A Firestore that rejects the delete of [talk_history/h2] and nothing else. *)
Definition failing_h2 : Env :=
  {| rejects := fun r => match r with
                         | DeleteDoc (c, i) => String.eqb c "talk_history" && String.eqb i "h2"
                         | _ => false
                         end;
     now := 10; now_again := 10; new_id := "h3" |}.

Definition talk (userId : string) (score : Z) : Doc :=
  <["userId" := VString userId]> (<["score" := VNumber score]> ∅).

(** Alice's settings, two talks of hers and one of Bob's. *)
Definition sample_store : Store :=
  <[("users", "alice") :=
      <["language" := VString "en"]> (<["createdAt" := VTimestamp 1]> (<["updatedAt" := VTimestamp 1]> ∅))]>
  (<[("talk_history", "h1") := talk "alice" 70]>
  (<[("talk_history", "h2") := talk "alice" 80]>
  (<[("talk_history", "b1") := talk "bob" 90]> ∅))).

Definition sample_world : World := {| store := sample_store; sent := [] |}.

(** ** What the properties below speak of *)

(** What the deletes of a [Promise.all] leave of a store: each one that is
    not rejected removes its document. *)
Definition settle_deletes (env : Env) (refs : list DocRef) (s : Store) : Store :=
  fold_left (fun s ref => if rejects env (DeleteDoc ref) then s else delete ref s) refs s.

Definition first_rejected (env : Env) (refs : list DocRef) : Result unit :=
  match find (fun ref => rejects env (DeleteDoc ref)) refs with
  | Some ref => Throws (FirestoreError (DeleteDoc ref))
  | None => Ok tt
  end.

(** The talks of a user that a query finds in a store. *)
Definition history_of (u : User) (s : Store) : list (DocRef * Doc) :=
  map_to_list (filter (fun entry => matches TALK_HISTORY_COLLECTION (uid u) entry = true) s).

(** What [deleteUserData] does once the settings document is deleted and
    the query answered. *)
Definition best_effort (env : Env) (u : User) (w : World) : Prop :=
  let userRef := (USERS_COLLECTION, uid u) in
  let history := map fst (history_of u (store w)) in
  let result := fst (deleteUserData env (Some u) w) in
  let w' := snd (deleteUserData env (Some u) w) in
  (* the settings document first, then one delete per talk of the user *)
  sent w' = sent w ++ [DeleteDoc userRef; GetDocs TALK_HISTORY_COLLECTION (uid u)]
                   ++ map DeleteDoc history
  /\ NoDup history
  /\ (forall ref, ref ∈ history <->
        exists d, store w !! ref = Some d
                  /\ matches TALK_HISTORY_COLLECTION (uid u) (ref, d) = true)
  (* every delete that is not rejected has taken effect, whatever the others did *)
  /\ (forall ref,
        store w' !! ref
        = if bool_decide (ref = userRef) then None
          else if bool_decide (ref ∈ history) && negb (rejects env (DeleteDoc ref)) then None
          else store w !! ref)
  (* the call fails exactly when one of the deletes is rejected *)
  /\ (result = Ok tt <-> forall ref, ref ∈ history -> rejects env (DeleteDoc ref) = false)
  (* in whatever order the deletes settle *)
  /\ (forall order, Permutation order history ->
        settle_deletes env order (delete userRef (store w)) = store w').

(** Timestamps by their time; the order of other values plays no part below. *)
Definition by_timestamp (a b : Value) : bool :=
  match a, b with
  | VTimestamp x, VTimestamp y => x <=? y
  | _, _ => true
  end.

(** The document [saveUserSettings] writes over what is stored. *)
Definition merged (env : Env) (settings : Doc) (stored : option Doc) : Doc :=
  match stored with
  | Some data => <["updatedAt" := VTimestamp (now env)]> (settings ∪ data)
  | None =>
      <["createdAt" := VTimestamp (now_again env)]>
        (<["updatedAt" := VTimestamp (now env)]> (settings ∪ ∅))
  end.

(** A talk with a date. *)
Definition dated (t : Z) (d : Doc) : Doc := <["date" := VTimestamp t]> d.


End Firestore.

(* ===================================================================== *)
(** * The POST handler of [/api/tts] *)
(* ===================================================================== *)

Module Tts.
Import JS.

(** [interface ApiError]: an error object, with the [message] and the
    [status] it may carry. *)
Record ApiError : Type := {
  message : option jsstring;
  status : option Z
}.

(** The argument of [openai.audio.speech.create]. *)
Record SpeechRequest : Type := {
  model : jsstring;
  voice : JSValue;
  input : JSValue;
  speed : float
}.

(** What the handler is called with: whether
    [process.env.NEXT_PUBLIC_OPENAI_API_KEY] is set, and what
    [request.json()] settles to. *)
Record Request : Type := {
  apiKeyConfigured : bool;
  json : ApiError + JSValue
}.

Inductive Body : Type :=
| JsonError (error : jsstring) (details : option jsstring)
| Audio (audioData : list N).

Record Response : Type := {
  response_status : Z;
  body : Body
}.

(** [NextResponse.json({ error }, { status })] *)
Definition json_response (error : jsstring) (code : Z) : Response :=
  {| response_status := code; body := JsonError error None |}.

Definition validVoices : list jsstring :=
  [js "alloy"; js "echo"; js "fable"; js "onyx"; js "nova"; js "shimmer"].

(** [validVoices.includes(voice)] *)
Definition includes (l : list jsstring) (v : JSValue) : bool :=
  match v with
  | JStr s => existsb (jseqb s) l
  | _ => false
  end.

(** A destructuring default: [v = d] takes [d] when the property is [undefined]. *)
Definition default_to (d v : JSValue) : JSValue :=
  match v with JUndefined => d | _ => v end.

(** [isNaN(parsedSpeed) || parsedSpeed < 0.25 || parsedSpeed > 4.0] *)
Definition speed_rejected (parsedSpeed : float) : bool :=
  PrimFloat.is_nan parsedSpeed
  || PrimFloat.ltb parsedSpeed 0.25%float
  || PrimFloat.ltb 4%float parsedSpeed.

(** A number of the closed interval from 0.25 to 4.0. *)
Definition in_speed_range (x : float) : bool :=
  PrimFloat.leb 0.25%float x && PrimFloat.leb x 4%float.

(** [NextResponse.json(content, { status })] for a status that is not a
    literal: the status is read as an [unsigned short], that is modulo
    65536, and outside 200..599 the constructor throws a RangeError
    ([None]). *)
Definition NextResponse_json (content : Body) (code : Z) : option Response :=
  let code := code mod 65536 in
  if (200 <=? code) && (code <=? 599)
  then Some {| response_status := code; body := content |}
  else None.

(** [apiError.status || 500] and [apiError.message || 'Unknown error occurred'] *)
Definition status_of (e : ApiError) : Z :=
  match status e with
  | Some code => if code =? 0 then 500 else code
  | None => 500
  end.

Definition details_of (e : ApiError) : jsstring :=
  match message e with
  | Some m => if jseqb m [] then js "Unknown error occurred" else m
  | None => js "Unknown error occurred"
  end.

(** The [catch] clause: the error as a JSON response, with its status or
    500; [None] when [NextResponse.json] throws there, which nothing
    catches. *)
Definition caught (e : ApiError) : option Response :=
  NextResponse_json (JsonError (js "Failed to generate speech") (Some (details_of e)))
    (status_of e).

(** The response [{ error: 'Failed to generate speech', details }] with a status. *)
Definition failure (code : Z) (details : jsstring) : Response :=
  {| response_status := code;
     body := JsonError (js "Failed to generate speech") (Some details) |}.

(** [message || 'Unknown error occurred'] *)
Definition or_unknown (m : jsstring) : jsstring :=
  if jseqb m [] then js "Unknown error occurred" else m.

(** A [TypeError]: it has a message and no status. *)
Definition TypeError (m : jsstring) : ApiError :=
  {| message := Some m; status := None |}.

(** The engine's wording of the two TypeErrors the handler can meet:
    destructuring [null], and converting an object to a number. *)
Record Wording : Type := {
  null_body : jsstring;
  not_primitive : jsstring
}.

Section Platform.

(** [Number(s)] on a string and [Number.prototype.toString], the platform's. *)
Variable StringToNumber : jsstring -> float.
Variable Number_toString : float -> jsstring.
Variable wording : Wording.

(** The OpenAI client: [create] followed by [arrayBuffer()] yields the
    audio, or one of them throws. *)
Variable speech : SpeechRequest -> ApiError + list N.

(** [Number(v)]: an array or an object is converted to a string first,
    which throws a TypeError ([None]) when it cannot be. *)
Definition Number (v : JSValue) : option float :=
  match v with
  | JUndefined => Some PrimFloat.nan
  | JNull => Some 0%float
  | JBool true => Some 1%float
  | JBool false => Some 0%float
  | JNum f => Some f
  | JStr s => Some (StringToNumber s)
  | JArr _ | JObj _ => option_map StringToNumber (ToString Number_toString v)
  end.

(** The body of the [try]: a response and the calls made on OpenAI, or
    what was thrown. *)
Definition try_POST (request : Request)
    : (ApiError + Response) * list SpeechRequest :=
  if negb (apiKeyConfigured request) then
    (inr (json_response (js "OpenAI API key is not configured") 500), [])
  else
    match json request with
    | inl e => (inl e, [])
    | inr parsed =>
        if nullish parsed then (inl (TypeError (null_body wording)), [])
        else
          let text := get parsed (js "text") in
          let voice := default_to (JStr (js "alloy")) (get parsed (js "voice")) in
          let speed := default_to (JNum 1%float) (get parsed (js "speed")) in
          if negb (truthy text) then
            (inr (json_response (js "Text is required") 400), [])
          else if negb (includes validVoices voice) then
            (inr (json_response (js "Invalid voice option") 400), [])
          else
            match Number speed with
            | None => (inl (TypeError (not_primitive wording)), [])
            | Some parsedSpeed =>
                if speed_rejected parsedSpeed then
                  (inr (json_response (js "Speed must be between 0.25 and 4.0") 400), [])
                else
                  let call := {| model := js "tts-1"; voice := voice; input := text;
                                 speed := parsedSpeed |} in
                  match speech call with
                  | inl e => (inl e, [call])
                  | inr audioData =>
                      (inr {| response_status := 200; body := Audio audioData |}, [call])
                  end
            end
    end.

(** [POST(request)]: the response, or [None] when the handler's promise
    rejects (the [catch] clause itself threw). *)
Definition POST (request : Request) : option Response * list SpeechRequest :=
  match try_POST request with
  | (inr response, calls) => (Some response, calls)
  | (inl e, calls) => (caught e, calls)
  end.

(** The three responses of the input validation. *)
Definition validation_responses : list Response :=
  [json_response (js "Text is required") 400;
   json_response (js "Invalid voice option") 400;
   json_response (js "Speed must be between 0.25 and 4.0") 400].

(** The fields of a body as the handler reads them, and whether it rejects them. *)
Definition text_of (parsed : JSValue) : JSValue := get parsed (js "text").

Definition voice_of (parsed : JSValue) : JSValue :=
  default_to (JStr (js "alloy")) (get parsed (js "voice")).

(** [Number(speed)], [None] when it throws. *)
Definition speed_of (parsed : JSValue) : option float :=
  Number (default_to (JNum 1%float) (get parsed (js "speed"))).

(** The input fails a check: the text is falsy, or else the voice is none
    of the six, or else the speed is converted to something that is no
    number from 0.25 to 4.0. *)
Definition input_rejected (parsed : JSValue) : bool :=
  negb (truthy (text_of parsed))
  || negb (includes validVoices (voice_of parsed))
  || match speed_of parsed with
     | Some parsedSpeed => negb (in_speed_range parsedSpeed)
     | None => false
     end.

(** The input passes the first two checks and its speed cannot be converted. *)
Definition speed_unconvertible (parsed : JSValue) : bool :=
  truthy (text_of parsed)
  && includes validVoices (voice_of parsed)
  && match speed_of parsed with Some _ => false | None => true end.

End Platform.

(** ** Sample platform values

    [Number] reads the string [2] as 2 and the string [fast] as [NaN], as
    every engine does; no other string is converted below. *)
Definition sample_StringToNumber (s : jsstring) : float :=
  if jseqb s (js "2") then 2%float else PrimFloat.nan.

Definition sample_Number_toString (f : float) : jsstring :=
  if PrimFloat.eqb f 2%float then js "2" else [].

(** The wording of V8. *)
Definition sample_wording : Wording :=
  {| null_body := js "Cannot destructure property 'text' of 'object null' as it is null.";
     not_primitive := js "Cannot convert object to primitive value" |}.

(** An OpenAI that answers every request with three bytes of audio, and
    one that refuses every request with status 400. *)
Definition speaking (call : SpeechRequest) : ApiError + list N := inr [73; 68; 51]%N.

Definition refusing (call : SpeechRequest) : ApiError + list N :=
  inl {| message := Some (js "400 Bad Request"); status := Some 400 |}.

Definition hello (fields : list (jsstring * JSValue)) : Request :=
  {| apiKeyConfigured := true;
     json := inr (JObj ((js "text", JStr (js "Hello")) :: fields)) |}.

End Tts.

(* ===================================================================== *)
(** * The POST handler of [/api/chat] *)
(* ===================================================================== *)

Module ChatRoute.
Import JS.

(** [NextResponse.json(payload, { status })] *)
Record Response : Type := {
  status : Z;
  payload : JSValue
}.

Definition error_response (error : jsstring) (code : Z) : Response :=
  {| status := code; payload := JObj [(js "error", JStr error)] |}.

(** The argument of [openai.chat.completions.create]. *)
Record CompletionRequest : Type := {
  model : jsstring;
  request_messages : list (JSValue * JSValue);
  temperature : float;
  max_tokens : Z
}.

Definition TypeError (msg : jsstring) : Thrown :=
  mkThrown true (Some (js "TypeError")) msg.

Definition Array_isArray (v : JSValue) : bool :=
  match v with JArr _ => true | _ => false end.

Definition elements (v : JSValue) : list JSValue :=
  match v with JArr items => items | _ => [] end.

(** [messages.map(msg => ({ role: msg.role, content: msg.content }))]:
    reading a property of [null] throws. *)
Fixpoint format (messages : list JSValue) : Thrown + list (JSValue * JSValue) :=
  match messages with
  | [] => inr []
  | msg :: rest =>
      if nullish msg then inl (TypeError (js "Cannot read properties of null (reading 'role')"))
      else
        match format rest with
        | inl e => inl e
        | inr formatted => inr ((get msg (js "role"), get msg (js "content")) :: formatted)
        end
  end.

Section Platform.

(** The OpenAI client: the completion it resolves to, or what it throws. *)
Variable create : CompletionRequest -> Thrown + JSValue.

(** The body of the [try] block, on what [request.json()] settles to, with
    the requests made to OpenAI. *)
Definition try_POST (body : Thrown + JSValue) : (Thrown + Response) * list CompletionRequest :=
  match body with
  | inl e => (inl e, [])
  | inr b =>
      if nullish b then
        (inl (TypeError (js "Cannot destructure property 'messages' of null")), [])
      else
        let messages := get b (js "messages") in
        if negb (truthy messages) || negb (Array_isArray messages) then
          (inr (error_response (js "Valid messages array is required") 400), [])
        else
          match format (elements messages) with
          | inl e => (inl e, [])
          | inr formattedMessages =>
              let call := {| model := js "gpt-4o"; request_messages := formattedMessages;
                             temperature := 0.7%float; max_tokens := 500 |} in
              match create call with
              | inl e => (inl e, [call])
              | inr completion =>
                  if nullish completion then
                    (inl (TypeError (js "Cannot read properties of null (reading 'choices')")), [call])
                  else
                    let choices := get completion (js "choices") in
                    if nullish choices then
                      (inl (TypeError (js "Cannot read properties of undefined (reading '0')")), [call])
                    else
                      let first := get0 choices in
                      if nullish first then
                        (inl (TypeError (js "Cannot read properties of undefined (reading 'message')")),
                         [call])
                      else
                        (inr {| status := 200;
                                payload := JObj [(js "message", get first (js "message"))] |},
                         [call])
              end
          end
  end.

(** [POST(request)] *)
Definition POST (body : Thrown + JSValue) : Response :=
  match fst (try_POST body) with
  | inr response => response
  | inl _ => error_response (js "Failed to generate response") 500
  end.

Definition calls (body : Thrown + JSValue) : list CompletionRequest := snd (try_POST body).

(** OpenAI resolves, to a completion with a first choice. *)
Definition completed (call : CompletionRequest) : bool :=
  match create call with
  | inl _ => false
  | inr completion =>
      negb (nullish completion)
      && negb (nullish (get completion (js "choices")))
      && negb (nullish (get0 (get completion (js "choices"))))
  end.

End Platform.

(** ** The route as [useChat] reaches it *)

(** What [JSON.parse(JSON.stringify(v))] makes of a value: a field that is
    [undefined] is left out, an array element that is [undefined] and a
    number that is not finite become [null], and [-0] becomes [0]. *)
Fixpoint received (v : JSValue) : JSValue :=
  match v with
  | JUndefined => JUndefined
  | JNull => JNull
  | JBool b => JBool b
  | JNum f =>
      if PrimFloat.is_nan f || PrimFloat.is_infinity f then JNull
      else if PrimFloat.eqb f 0%float then JNum 0%float else JNum f
  | JStr s => JStr s
  | JArr items =>
      JArr (map (fun x => match x with JUndefined => JNull | _ => received x end) items)
  | JObj fields =>
      JObj (flat_map (fun kx => match snd kx with
                                | JUndefined => []
                                | _ => [(fst kx, received (snd kx))]
                                end) fields)
  end.

Definition role_name (r : Chat.MessageRole) : jsstring :=
  match r with
  | Chat.user => js "user"
  | Chat.assistant => js "assistant"
  | Chat.system => js "system"
  end.

(** [JSON.stringify({ messages: apiMessages })], with [stream: true] for a
    streaming request, as the route parses it. *)
Definition request_body (apiMessages : list (Chat.MessageRole * JSValue)) (stream : bool) : JSValue :=
  received
    (JObj ((js "messages",
            JArr (map (fun m => JObj [(js "role", JStr (role_name (fst m)));
                                      (js "content", snd m)]) apiMessages))
           :: (if stream then [(js "stream", JBool true)] else []))).

(** The completion the route asks for when it receives these messages. *)
Definition conversation_request (apiMessages : list (Chat.MessageRole * JSValue))
    : CompletionRequest :=
  {| model := js "gpt-4o";
     request_messages :=
       map (fun m => (JStr (role_name (fst m)), received (snd m))) apiMessages;
     temperature := 0.7%float; max_tokens := 500 |}.

(** The route's response as [fetch] resolves to it, the body arriving in
    the given chunks. *)
Definition response_of (chunks : list jsstring) (r : Response) : Chat.FetchOutcome :=
  Chat.FetchResolves
    {| Chat.ok := (200 <=? status r) && (status r <=? 299);
       Chat.status := status r;
       Chat.body := Some (chunks, Chat.Done);
       Chat.json := inr (received (payload r)) |}.

(** A call of [addMessage] whose request the route answers. *)
Definition served (create : CompletionRequest -> Thrown + JSValue) (chunks : list jsstring)
    (env : Chat.Env) (st : Chat.Hook) (content : jsstring) : Chat.Env :=
  {| Chat.id_message := Chat.id_message env; Chat.now_message := Chat.now_message env;
     Chat.id_placeholder := Chat.id_placeholder env;
     Chat.now_placeholder := Chat.now_placeholder env;
     Chat.id_system := Chat.id_system env; Chat.now_system := Chat.now_system env;
     Chat.now_final := Chat.now_final env;
     Chat.outcome :=
       response_of chunks
         (POST create (inr (request_body (Chat.sent_messages env st content) false))) |}.

(** OpenAI answering with one choice, and OpenAI refusing the key. *)
Definition completes (answer : jsstring) (_ : CompletionRequest) : Thrown + JSValue :=
  inr (JObj [(js "choices",
              JArr [JObj [(js "message",
                           JObj [(js "role", JStr (js "assistant"));
                                 (js "content", JStr answer)])]])]).

Definition unauthorized (_ : CompletionRequest) : Thrown + JSValue :=
  inl (new_Error (js "401 Incorrect API key provided")).

End ChatRoute.

(* ===================================================================== *)

(** * Account deletion on the settings page *)
(* ===================================================================== *)

(** [handleDeleteAccount] of [src/app/settings/page.tsx], with
    [deleteUserAccount] of [src/lib/firebaseUtils.ts]. Firebase Auth is the
    platform's: whether it accepts a password, and whether it then deletes
    the account, is given with the call. *)

Module Settings.
Import Firestore.

(** [auth.currentUser]: the user and their [email]. *)
Record AuthUser : Type := {
  user : User;
  email : option string
}.

(** The requests made to Firebase Auth. *)
Inductive AuthRequest : Type :=
| Reauthenticate (email password : string)
| DeleteUser (uid : string).

(** What a [catch] clause of the page receives. *)
Inductive Failure : Type :=
| FromFirestore (e : Firestore.Error)
| NoUserOrEmail           (* [new Error("No user logged in or email undefined")] *)
| AuthError (request : AuthRequest).

(** What [setError] is given: a text of the page, or the [message] of
    what was caught. *)
Inductive ErrorShown : Type :=
| Text (s : string)
| MessageOf (e : Failure).

(** The cells of the page the handler writes, and the calls of
    [router.push]. *)
Record Page : Type := {
  error : option ErrorShown;
  loading : bool;
  pushed : list string
}.

(** Firebase: the database, whether the account exists, the signed-in
    user and the requests made to Auth. *)
Record System : Type := {
  world : World;
  account : bool;
  currentUser : option AuthUser;
  auth_sent : list AuthRequest
}.

(** Which requests Firebase Auth rejects. *)
Record AuthEnv : Type := {
  auth_rejects : AuthRequest -> bool
}.

Definition falsy (s : option string) : bool :=
  match s with
  | None => true
  | Some s => String.eqb s ""
  end.

Definition with_world (sys : System) (w : World) : System :=
  {| world := w; account := account sys; currentUser := currentUser sys;
     auth_sent := auth_sent sys |}.

(** [deleteUserAccount(currentPassword)]: a deleted account signs the user out. *)
Definition deleteUserAccount (aenv : AuthEnv) (currentPassword : string) (sys : System)
    : option Failure * System :=
  match currentUser sys with
  | None => (Some NoUserOrEmail, sys)
  | Some u =>
      if falsy (email u) then (Some NoUserOrEmail, sys)
      else
        let address := match email u with Some a => a | None => EmptyString end in
        let reauthenticate := Reauthenticate address currentPassword in
        let sys1 := {| world := world sys; account := account sys;
                       currentUser := currentUser sys;
                       auth_sent := auth_sent sys ++ [reauthenticate] |} in
        if auth_rejects aenv reauthenticate then (Some (AuthError reauthenticate), sys1)
        else
          let delete := DeleteUser (uid (user u)) in
          if auth_rejects aenv delete then
            (Some (AuthError delete),
             {| world := world sys; account := account sys; currentUser := currentUser sys;
                auth_sent := auth_sent sys1 ++ [delete] |})
          else
            (None,
             {| world := world sys; account := false; currentUser := None;
                auth_sent := auth_sent sys1 ++ [delete] |})
  end.

(** The body of the [try] block of [handleDeleteAccount]. *)
Definition try_delete (env : Env) (aenv : AuthEnv) (deletePassword : string) (sys : System)
    : option Failure * System :=
  let '(deleted, sys1) :=
    match currentUser sys with
    | Some u =>
        match deleteUserData env (Some (user u)) (world sys) with
        | (Ok _, w) => (None, with_world sys w)
        | (Throws e, w) => (Some (FromFirestore e), with_world sys w)
        end
    | None => (None, sys)
    end in
  match deleted with
  | Some e => (Some e, sys1)
  | None => deleteUserAccount aenv deletePassword sys1
  end.

(** [handleDeleteAccount()], of a render with the given inputs. *)
Definition handleDeleteAccount (env : Env) (aenv : AuthEnv)
    (deleteConfirmation deletePassword : string) (page : Page) (sys : System)
    : Page * System :=
  if negb (String.eqb deleteConfirmation "DELETE") then
    ({| error := Some (Text "Please type DELETE to confirm account deletion");
        loading := loading page; pushed := pushed page |}, sys)
  else if String.eqb deletePassword "" then
    ({| error := Some (Text "Please enter your password");
        loading := loading page; pushed := pushed page |}, sys)
  else
    match try_delete env aenv deletePassword sys with
    | (None, sys') =>
        ({| error := None; loading := true; pushed := pushed page ++ ["/"] |}, sys')
    | (Some e, sys') =>
        ({| error := Some (MessageOf e); loading := false; pushed := pushed page |}, sys')
    end.

(** Alice signed in on the settings page, and an Auth that refuses the
    password given. *)
Definition alice_signed_in : System :=
  {| world := sample_world; account := true;
     currentUser := Some {| user := alice; email := Some "alice@example.com" |};
     auth_sent := [] |}.

Definition settings_page : Page := {| error := None; loading := false; pushed := [] |}.

Definition wrong_password : AuthEnv :=
  {| auth_rejects := fun r => match r with Reauthenticate _ _ => true | _ => false end |}.

End Settings.

(* ===================================================================== *)

(** * Saving a conversation from the voice conversation page *)
(* ===================================================================== *)

(** [extractTopics] and [saveConversationToFirebase] of
    [src/app/notes/[id]/page.tsx]. The texts a conversation stores are
    strings of the Firestore model. *)

Module Conversation.
Import JS Firestore.

Inductive Role : Type := user | assistant.

Record Message : Type := {
  id : string;
  role : Role;
  content : string;
  timestamp : Z
}.

(** What [saveConversationToFirebase] closes over: the state of its
    render, the language context and [auth.currentUser]. *)
Record Page : Type := {
  isAuthenticated : bool;
  startTime : option Z;
  messages : list Message;
  language : string;
  languageLevel : string;
  currentUser : option User
}.

Definition topicKeywords : list (string * list string) :=
  [ ("Weather", ["weather"; "rain"; "sunny"; "cold"; "hot"; "temperature"; "wind"; "forecast"]);
    ("Food", ["food"; "eat"; "restaurant"; "cooking"; "recipe"; "delicious"; "meal"; "dinner";
              "lunch"]);
    ("Travel", ["travel"; "trip"; "vacation"; "visit"; "country"; "city"; "journey"; "tourist";
                "destination"]);
    ("Hobbies", ["hobby"; "interest"; "collection"; "activity"; "leisure"; "free time";
                 "playing"; "reading"]);
    ("Movies", ["movie"; "film"; "actor"; "actress"; "cinema"; "watch"; "director"; "scene"]);
    ("Music", ["music"; "song"; "listen"; "artist"; "band"; "concert"; "album"; "genre"]);
    ("Books", ["book"; "read"; "author"; "novel"; "story"; "literature"; "character"]);
    ("Sports", ["sports"; "game"; "team"; "play"; "athlete"; "fitness"; "exercise"; "training"]);
    ("Technology", ["technology"; "computer"; "internet"; "app"; "phone"; "device"; "digital";
                    "software"]);
    ("Family", ["family"; "parent"; "child"; "mother"; "father"; "sister"; "brother"]);
    ("Education", ["education"; "school"; "college"; "university"; "learn"; "study"; "student";
                   "teacher"]);
    ("Work", ["work"; "job"; "career"; "office"; "business"; "professional"; "company"]);
    ("Health", ["health"; "doctor"; "medical"; "symptom"; "disease"; "medicine"; "treatment";
                "healthy"]);
    ("Culture", ["culture"; "tradition"; "custom"; "heritage"; "belief"; "celebration";
                 "festival"]) ].

Fixpoint starts_with (sub s : jsstring) : bool :=
  match sub, s with
  | [], _ => true
  | x :: sub', y :: s' => N.eqb x y && starts_with sub' s'
  | _ :: _, [] => false
  end.

(** [s.includes(sub)] *)
Fixpoint includes (s sub : jsstring) : bool :=
  starts_with sub s
  || match s with
     | [] => false
     | _ :: s' => includes s' sub
     end.

(** [[...new Set(l)]]: the elements of [l], each at its first occurrence. *)
Fixpoint unique_from (seen l : list string) : list string :=
  match l with
  | [] => []
  | x :: l' =>
      if existsb (String.eqb x) seen then unique_from seen l'
      else x :: unique_from (x :: seen) l'
  end.

Definition unique (l : list string) : list string := unique_from [] l.

Section Platform.

(** [String.prototype.toLowerCase], the platform's. *)
Variable toLowerCase : jsstring -> jsstring.

(** Whether one of the keywords occurs in the text. *)
Definition mentions (lowercaseText : jsstring) (keywords : list string) : bool :=
  existsb (fun keyword => includes lowercaseText (toLowerCase (js keyword))) keywords.

Definition matchedTopics (text : jsstring) : list string :=
  map fst (List.filter (fun entry => mentions (toLowerCase text) (snd entry)) topicKeywords).

(** [extractTopics(text)] *)
Definition extractTopics (text : jsstring) : list string :=
  firstn 5 (unique (matchedTopics text)).

Definition role_name (r : Role) : string :=
  match r with user => "user" | assistant => "assistant" end.

(** [Math.max(50, Math.min(100, Math.min(100, messages.length * 10)))] *)
Definition score_of (count : Z) : Z :=
  let scoreBase := Z.min 100 (count * 10) in
  Z.max 50 (Z.min 100 scoreBase).

(** [auth.currentUser?.uid || 'anonymous'] *)
Definition userId_of (u : option User) : string :=
  match u with
  | Some u => if String.eqb (uid u) "" then "anonymous" else uid u
  | None => "anonymous"
  end.

(** The item handed to [saveTalkHistory]; [durationSeconds] is
    [Math.round((endTime.getTime() - startTime.getTime()) / 1000)], from
    the clock. *)
Definition historyItem (env : Env) (durationSeconds : Z) (page : Page) : Doc :=
  let allText := String.concat " " (map content (messages page)) in
  let topics := extractTopics (js allText) in
  let score := score_of (Z.of_nat (length (messages page))) in
  <["userId" := VString (userId_of (currentUser page))]>
  (<["date" := VTimestamp (now env)]>
  (<["duration" := VNumber durationSeconds]>
  (<["topics" := VArray (map VString topics)]>
  (<["score" := VNumber score]>
  (<["messages" :=
       VArray (map (fun msg => VMap [("role", VString (role_name (role msg)));
                                     ("content", VString (content msg));
                                     ("timestamp", VTimestamp (timestamp msg))])
                 (messages page))]>
  (<["language" := VString (language page)]>
  (<["languageLevel" := VString (languageLevel page)]> ∅))))))).

(** Whether the guard of [saveConversationToFirebase] returns at once. *)
Definition skipped (page : Page) : bool :=
  negb (isAuthenticated page)
  || match startTime page with None => true | Some _ => false end
  || (length (messages page) <? 3)%nat.

(** [saveConversationToFirebase()]: what [saveTalkHistory] throws is
    caught and logged. *)
Definition saveConversationToFirebase (env : Env) (durationSeconds : Z) (page : Page)
    : M unit :=
  fun w =>
    if skipped page then (Ok tt, w)
    else (Ok tt, snd (saveTalkHistory env (historyItem env durationSeconds page) w)).

End Platform.

(** ** The exchange with [/api/chat]

    The second step of the page's handler of a recording: the request it
    sends for a transcription, answered by the handler of [/api/chat], and
    the content of the assistant message it adds, or what it throws. *)

Definition chat_messages (systemMessage : string) (messages : list Message)
    (transcription : string) : list (string * string) :=
  ("system", systemMessage)
  :: map (fun msg => (role_name (role msg), content msg)) messages
  ++ [("user", transcription)].

(** [JSON.stringify({ messages: [...].map(msg => ({ role, content })) })],
    as the route parses it. *)
Definition chat_body (systemMessage : string) (messages : list Message)
    (transcription : string) : JSValue :=
  ChatRoute.received
    (JObj [(js "messages",
            JArr (map (fun m => JObj [(js "role", JStr (js (fst m)));
                                      (js "content", JStr (js (snd m)))])
                    (chat_messages systemMessage messages transcription)))]).

Definition exchange (create : ChatRoute.CompletionRequest -> Thrown + JSValue)
    (systemMessage : string) (messages : list Message) (transcription : string)
    : Thrown + JSValue :=
  let chatResponse :=
    ChatRoute.POST create (inr (chat_body systemMessage messages transcription)) in
  let ok := (200 <=? ChatRoute.status chatResponse) && (ChatRoute.status chatResponse <=? 299) in
  if negb ok then inl (new_Error (js "Failed to get AI response"))
  else
    let data := ChatRoute.received (ChatRoute.payload chatResponse) in
    if nullish data then
      inl (ChatRoute.TypeError (js "Cannot destructure property 'message' of null"))
    else
      let aiResponse := get data (js "message") in
      if nullish aiResponse then
        inl (ChatRoute.TypeError (js "Cannot read properties of undefined (reading 'content')"))
      else inr (get aiResponse (js "content")).

(** The completion the route asks for. *)
Definition chat_call (systemMessage : string) (messages : list Message)
    (transcription : string) : ChatRoute.CompletionRequest :=
  {| ChatRoute.model := js "gpt-4o";
     ChatRoute.request_messages :=
       map (fun m => (JStr (js (fst m)), JStr (js (snd m))))
         (chat_messages systemMessage messages transcription);
     ChatRoute.temperature := 0.7%float; ChatRoute.max_tokens := 500 |}.

(** [completion.choices[0].message] *)
Definition first_message (completion : JSValue) : JSValue :=
  get (get0 (get completion (js "choices"))) (js "message").

(** ** Samples *)

(** Lower case of the letters A to Z, as every engine has it. *)
Definition ascii_toLowerCase (s : jsstring) : jsstring :=
  map (fun c => if N.leb 65 c && N.leb c 90 then (c + 32)%N else c) s.

Definition small_talk : Page :=
  {| isAuthenticated := true; startTime := Some 1000;
     messages :=
       [ {| id := "1"; role := assistant; content := "Hi there!"; timestamp := 1000 |};
         {| id := "2"; role := user; content := "The Weather is nice"; timestamp := 2000 |};
         {| id := "3"; role := assistant; content := "Do you like hiking?"; timestamp := 3000 |} ];
     language := "english"; languageLevel := "beginner";
     currentUser := Some alice |}.

(** The page one exchange later. *)
Definition longer_talk : Page :=
  {| isAuthenticated := true; startTime := Some 1000;
     messages :=
       messages small_talk
       ++ [ {| id := "4"; role := user; content := "Yes"; timestamp := 4000 |};
            {| id := "5"; role := assistant; content := "Where?"; timestamp := 5000 |} ];
     language := "english"; languageLevel := "beginner";
     currentUser := Some alice |}.

(** Firestore serving at time [t], its next auto-id being [i]. *)
Definition serving_as (t : Z) (i : string) : Env :=
  {| rejects := fun _ => false; now := t; now_again := t; new_id := i |}.

End Conversation.

(* ===================================================================== *)

(** * The most talked topics of the history page *)
(* ===================================================================== *)

(** [calculateMostTalkedTopics] of the talk history page. *)

Module History.

(** An object used as a map from topics to counts: its own keys with their
    values, in the order of their creation. Reading a key the object does
    not have yields [undefined] unless the key names a property every
    object inherits; the model is of the topics that name none. *)
Abbreviation TopicCount := (list (string * Z)).

(** The properties of [Object.prototype]. *)
Definition inherited : list string :=
  [ "constructor"; "hasOwnProperty"; "isPrototypeOf"; "propertyIsEnumerable";
    "toLocaleString"; "toString"; "valueOf"; "__proto__";
    "__defineGetter__"; "__defineSetter__"; "__lookupGetter__"; "__lookupSetter__" ].

Definition plain (history : list (list string)) : Prop :=
  forall topic, In topic (concat history) -> ~ In topic inherited.

(** [acc[topic] = (acc[topic] || 0) + 1] *)
Fixpoint bump (topic : string) (acc : TopicCount) : TopicCount :=
  match acc with
  | [] => [(topic, 1)]
  | (k, n) :: rest =>
      if String.eqb k topic then (k, (if n =? 0 then 0 else n) + 1) :: rest
      else (k, n) :: bump topic rest
  end.

(** The [reduce] over the history, each talk given by its [topics]. *)
Definition topicCount (history : list (list string)) : TopicCount :=
  fold_left (fun acc talk => fold_left (fun acc topic => bump topic acc) talk acc) history [].

(** A key that is an array index: the canonical numeral of an integer
    below [2^32 - 1]. *)
Definition index_of (k : string) : option N :=
  match NilZero.uint_of_string k with
  | Some d =>
      let n := N.of_uint d in
      if String.eqb (NilZero.string_of_uint (N.to_uint n)) k && (n <? 4294967295)%N
      then Some n else None
  | None => None
  end.

(** Insertion before the first element that [x] may precede: a stable sort. *)
Fixpoint insert_sorted {A : Type} (precedes : A -> A -> bool) (x : A) (l : list A) : list A :=
  match l with
  | [] => [x]
  | y :: rest => if precedes x y then x :: l else y :: insert_sorted precedes x rest
  end.

Definition stable_sort {A : Type} (precedes : A -> A -> bool) (l : list A) : list A :=
  fold_right (insert_sorted precedes) [] l.

Definition index_or_zero (e : string * Z) : N :=
  match index_of (fst e) with Some n => n | None => 0%N end.

Definition is_index (e : string * Z) : bool :=
  match index_of (fst e) with Some _ => true | None => false end.

(** [Object.entries(o)]: the array indices in ascending order, then the
    other keys in the order of their creation. *)
Definition Object_entries (o : TopicCount) : list (string * Z) :=
  stable_sort (fun a b => (index_or_zero a <=? index_or_zero b)%N) (List.filter is_index o)
  ++ List.filter (fun e => negb (is_index e)) o.

(** [.sort((a, b) => b[1] - a[1])]: by count, descending; the sort is stable. *)
Definition by_count (a b : string * Z) : bool := snd b <=? snd a.

(** [calculateMostTalkedTopics(history)]: what [setMostTalkedTopics] is given. *)
Definition calculateMostTalkedTopics (history : list (list string)) : list (string * Z) :=
  firstn 5 (stable_sort by_count (Object_entries (topicCount history))).

(** The count an object holds for a key, 0 when it has none. *)
Fixpoint count_in (acc : TopicCount) (k : string) : Z :=
  match acc with
  | [] => 0
  | (k', n) :: rest => if String.eqb k' k then n else count_in rest k
  end.

(** How often a topic occurs in the talks of a history. *)
Definition occurrences (history : list (list string)) (topic : string) : Z :=
  Z.of_nat (count_occ string_dec (concat history) topic).

Definition sample_history : list (list string) :=
  [ ["Weather"; "Food"]; ["Food"; "Travel"]; ["Food"; "Weather"; "Music"];
    ["Books"]; ["Sports"; "Work"]; ["Work"] ].

End History.

(* ===================================================================== *)

(** * The talk detail page *)
(* ===================================================================== *)

(** The loader of [src/app/talk-detail/[id]/page.tsx]: the callback of
    [onAuthStateChanged], for the user it is called with. *)

Module TalkDetail.
Import Firestore.

(** The cells of the page, and the calls of [router.push]. *)
Record Page : Type := {
  conversation : option Doc;
  loading : bool;
  error : option string;
  pushed : list string
}.

Definition opened : Page :=
  {| conversation := None; loading := true; error := None; pushed := [] |}.

(** [data.userId === user.uid] *)
Definition belongs_to (u : User) (data : Doc) : bool := has_userId (uid u) data.

Definition load (env : Env) (user : option User) (conversationId : string)
    (page : Page) (w : World) : Page * World :=
  match user with
  | None =>
      ({| conversation := conversation page; loading := loading page; error := error page;
          pushed := pushed page ++ ["/login"] |}, w)
  | Some u =>
      match getDoc env ("talk_history", conversationId) w with
      | (Ok (Some data), w') =>
          if belongs_to u data then
            ({| conversation := Some data; loading := false; error := error page;
                pushed := pushed page |}, w')
          else
            ({| conversation := conversation page; loading := false;
                error := Some "You don't have permission to view this conversation";
                pushed := pushed page |}, w')
      | (Ok None, w') =>
          ({| conversation := conversation page; loading := false;
              error := Some "Conversation not found"; pushed := pushed page |}, w')
      | (Throws _, w') =>
          ({| conversation := conversation page; loading := false;
              error := Some "Failed to load conversation details"; pushed := pushed page |}, w')
      end
  end.

Definition bob : User := {| uid := "bob" |}.

End TalkDetail.

(* ===================================================================== *)

(** * Properties *)
(* ===================================================================== *)

Module JSFacts.
Import JS.

Lemma jseqb_eq (a b : jsstring) : jseqb a b = true <-> a = b.
Proof.
  revert b; induction a as [|x a IH]; intros [|y b]; simpl; try (split; congruence).
  rewrite andb_true_iff, N.eqb_eq, IH. split.
  - intros [-> ->]; reflexivity.
  - intros [= -> ->]; split; reflexivity.
Qed.

Lemma jseqb_refl (a : jsstring) : jseqb a a = true.
Proof. apply jseqb_eq; reflexivity. Qed.

Lemma jseqb_neq (a b : jsstring) : jseqb a b = false <-> a <> b.
Proof.
  rewrite <- jseqb_eq. destruct (jseqb a b); split; congruence.
Qed.

(** A string of white space only trims to the empty string, and only such a
    string does. *)
Lemma trimStart_whitespace (s : jsstring) :
  forallb is_whitespace s = true -> trimStart s = [].
Proof.
  induction s as [|c s IH]; simpl; [reflexivity|].
  intros [Hc Hs]%andb_true_iff. rewrite Hc. auto.
Qed.

Lemma trimStart_nil_inv (s : jsstring) :
  trimStart s = [] -> forallb is_whitespace s = true.
Proof.
  induction s as [|c s IH]; simpl; [reflexivity|].
  destruct (is_whitespace c); simpl; [exact IH | discriminate].
Qed.

Lemma trim_empty_iff (s : jsstring) :
  trim s = [] <-> forallb is_whitespace s = true.
Proof.
  unfold trim, trimEnd. split.
  - intros H. apply trimStart_nil_inv.
    destruct (trimStart s) as [|c t] eqn:E; [reflexivity|].
    exfalso. apply (f_equal (@rev N)) in H. rewrite rev_involutive in H. simpl in H.
    assert (Hk : trimStart (c :: t) = c :: t).
    { rewrite <- E. clear. induction s as [|x s IH]; simpl; [reflexivity|].
      destruct (is_whitespace x) eqn:Hx; [exact IH|]. simpl. rewrite Hx. reflexivity. }
    simpl in Hk. destruct (is_whitespace c) eqn:Hc.
    + (* impossible: trimStart never returns a string that starts with white space *)
      clear -E Hc. induction s as [|x s IH]; simpl in E; [discriminate|].
      destruct (is_whitespace x) eqn:Hx; [auto|]. congruence.
    + clear -H Hc.
      assert (Hr : forall u, trimStart (u ++ [c]) <> []).
      { induction u as [|y u IH]; simpl; [rewrite Hc; discriminate|].
        destruct (is_whitespace y); [exact IH | discriminate]. }
      apply (Hr (rev t)). exact H.
  - intros H. rewrite (trimStart_whitespace _ H). reflexivity.
Qed.

End JSFacts.

Module ChatFacts.
Import JS JSFacts Chat.

Section Facts.

Variable JSON_parse : jsstring -> option JSValue.
Variable Number_toString : float -> jsstring.

Local Abbreviation chunk_content := (chunk_content JSON_parse).
Local Abbreviation read_loop := (read_loop JSON_parse Number_toString).
Local Abbreviation accumulated := (accumulated Number_toString).
Local Abbreviation contribution := (contribution Number_toString).
Local Abbreviation converted := (converted JSON_parse Number_toString).
Local Abbreviation updated := (updated JSON_parse Number_toString).
Local Abbreviation addMessage := (addMessage JSON_parse Number_toString).

Lemma update_by_id_app (a : jsstring) (f : Message -> Message) (l1 l2 : list Message) :
  update_by_id a f (l1 ++ l2) = update_by_id a f l1 ++ update_by_id a f l2.
Proof. unfold update_by_id. apply map_app. Qed.

Lemma update_by_id_own (a : jsstring) (f : Message -> Message) (m : Message) :
  Message.id m = a -> update_by_id a f [m] = [f m].
Proof. intros <-. unfold update_by_id. simpl. rewrite jseqb_refl. reflexivity. Qed.

Lemma update_by_id_content_twice (a : jsstring) (c1 c2 : JSValue) (l : list Message) :
  update_by_id a (fun m => with_content m c2) (update_by_id a (fun m => with_content m c1) l)
  = update_by_id a (fun m => with_content m c2) l.
Proof.
  unfold update_by_id. rewrite map_map. apply map_ext. intros m.
  destruct (jseqb (Message.id m) a) eqn:E; simpl; rewrite E; reflexivity.
Qed.

Lemma accumulated_cons (reading : jsstring -> JSValue) (c : jsstring) (cs : list jsstring) :
  accumulated reading (c :: cs) = contribution reading c ++ accumulated reading cs.
Proof. reflexivity. Qed.

Lemma accumulated_app (reading : jsstring -> JSValue) (l1 l2 : list jsstring) :
  accumulated reading (l1 ++ l2) = accumulated reading l1 ++ accumulated reading l2.
Proof. unfold Chat.accumulated. rewrite map_app. apply concat_app. Qed.

(** Chunks of which none is converted add nothing. *)
Lemma accumulated_skipped (chunks : list jsstring) :
  updated chunks = false -> accumulated chunk_content chunks = [].
Proof.
  induction chunks as [|c rest IH]; [reflexivity|].
  unfold Chat.updated. cbn [existsb]. intros [Hc Hr]%orb_false_iff.
  rewrite accumulated_cons, (IH Hr), app_nil_r.
  unfold Chat.converted in Hc. unfold Chat.contribution.
  destruct (ToString Number_toString (chunk_content c)); [discriminate | reflexivity].
Qed.

(** The loop adds to the text, in arrival order, the contents of the chunks
    it can convert, and leaves in the message of the given id the whole
    text read so far, if it converted any. *)
Lemma read_loop_spec (a : jsstring) (chunks : list jsstring) :
  forall (acc : jsstring) (msgs : list Message),
    read_loop a chunks acc msgs
    = (acc ++ accumulated chunk_content chunks,
       if updated chunks
       then update_by_id a
              (fun m => with_content m (JStr (acc ++ accumulated chunk_content chunks))) msgs
       else msgs).
Proof.
  induction chunks as [|c rest IH]; intros acc msgs.
  - simpl. unfold Chat.accumulated. simpl. rewrite app_nil_r. reflexivity.
  - cbn [Chat.read_loop]. rewrite accumulated_cons.
    unfold Chat.updated. cbn [existsb]. fold (updated rest).
    unfold Chat.converted, Chat.contribution.
    destruct (ToString Number_toString (chunk_content c)) as [text|].
    + cbn [orb]. rewrite IH, <- app_assoc. f_equal.
      destruct (updated rest) eqn:Hr.
      * rewrite update_by_id_content_twice. reflexivity.
      * rewrite (accumulated_skipped rest Hr), !app_nil_r. reflexivity.
    + cbn [orb]. rewrite IH. reflexivity.
Qed.

(** When the conversion of a value to a string throws. *)
Lemma ToString_object (fields : list (jsstring * JSValue)) :
  ToString Number_toString (JObj fields)
  = if has_own (js "toString") fields then None else Some (js "[object Object]").
Proof. reflexivity. Qed.

Lemma updated_iff (chunks : list jsstring) :
  updated chunks = true
  <-> exists chunk, In chunk chunks
        /\ ToString Number_toString (chunk_content chunk) <> None.
Proof.
  unfold Chat.updated. rewrite existsb_exists. unfold Chat.converted.
  split; intros (chunk & Hin & H); exists chunk; (split; [exact Hin|]);
    destruct (ToString Number_toString (chunk_content chunk)); congruence.
Qed.

Lemma whitespace_is_no_content (content : jsstring) :
  forallb is_whitespace content = true -> jseqb (trim content) [] = true.
Proof. intros H. apply jseqb_eq. apply trim_empty_iff. exact H. Qed.

Lemma content_is_sent (content : jsstring) :
  trim content <> [] -> jseqb (trim content) [] = false.
Proof. intros H. apply jseqb_neq. exact H. Qed.

(** How the code reads one chunk. *)
Lemma chunk_content_cases (chunk : jsstring) :
  (JSON_parse chunk = None -> chunk_content chunk = JStr chunk)
  /\ (JSON_parse chunk = Some JNull -> chunk_content chunk = JStr chunk)
  /\ (forall parsed, JSON_parse chunk = Some parsed -> nullish parsed = false ->
       let direct := get parsed (js "content") in
       let delta :=
         opt_get (opt_get (opt_get0 (get parsed (js "choices"))) (js "delta")) (js "content") in
       chunk_content chunk
       = if truthy direct then direct else if truthy delta then delta else JStr []).
Proof.
  unfold Chat.chunk_content. repeat split.
  - intros ->. reflexivity.
  - intros ->. reflexivity.
  - intros parsed -> Hn. rewrite Hn. reflexivity.
Qed.

(** The state and the effects of a user message whose streamed request
    succeeds and whose body ends normally. *)
Lemma addMessage_streamed (opts : ChatOptions) (env : Env) (st : Hook)
    (content : jsstring) (chunks : list jsstring) (r : Response) :
  trim content <> [] ->
  streamingEnabled opts = true ->
  outcome env = FetchResolves r -> ok r = true -> body r = Some (chunks, Done) ->
  let text := accumulated chunk_content chunks in
  exists earlier request,
    addMessage opts env st content user
    = ({| messages := earlier ++ [streamed_placeholder env text (updated chunks)];
          isLoading := false; error := None;
          currentSystemMessage := currentSystemMessage st;
          abortControllerRef := true |},
       request ::
       (if onMessageResponse opts
        then [OnMessageResponse
                (Message.mk (id_placeholder env) (JStr text) assistant (now_final env) None None)]
        else []))
    /\ requests [request] = [request].
Proof.
  intros Hc Hs Ho Hok Hb text.
  unfold Chat.addMessage. rewrite (content_is_sent _ Hc), Hs.
  unfold handleStreamingRequest. rewrite Ho, Hok, Hb. simpl negb. cbv iota.
  rewrite read_loop_spec, app_nil_l. unfold streamed_placeholder.
  destruct (updated chunks) eqn:Hu.
  - rewrite update_by_id_app, update_by_id_own by reflexivity.
    eexists _, _. split; [reflexivity|]. reflexivity.
  - subst text. rewrite (accumulated_skipped chunks Hu).
    eexists _, _. split; [reflexivity|]. reflexivity.
Qed.

(** C1 (as amended). When the streamed request of a user message succeeds
    ([response.ok], a body) and the body ends normally, the assistant
    message ends with the concatenation, in arrival order, of the contents
    of the chunks read, each converted to a string as [+=] converts it, and
    [onMessageResponse] receives a message with exactly that text. The
    content of a chunk is the raw chunk text only when [JSON.parse] throws
    or yields [null]; for a chunk that parses it is [parsed.content] if
    truthy, else [parsed.choices[0].delta.content] if truthy, else the
    empty string. A chunk whose content cannot be converted to a string (an
    object with a [toString] property of its own, or an array that holds
    one) is skipped: it adds nothing and the messages are not updated at
    it; another object adds [[object Object]]. The placeholder stops
    loading at the first chunk that is not skipped. *)
Theorem streaming_content_accumulates (opts : ChatOptions) (env : Env) (st : Hook)
    (content : jsstring) (chunks : list jsstring) (r : Response) :
  trim content <> [] ->
  streamingEnabled opts = true ->
  outcome env = FetchResolves r -> ok r = true -> body r = Some (chunks, Done) ->
  streamed_result opts env (accumulated chunk_content chunks) (updated chunks)
    (addMessage opts env st content user)
  /\ (forall before chunk after,
        accumulated chunk_content (before ++ chunk :: after)
        = accumulated chunk_content before
          ++ contribution chunk_content chunk
          ++ accumulated chunk_content after)
  /\ (forall chunk text,
        chunk_content chunk = JStr text -> contribution chunk_content chunk = text)
  /\ (forall chunk fields,
        chunk_content chunk = JObj fields ->
        contribution chunk_content chunk
        = if has_own (js "toString") fields then [] else js "[object Object]")
  /\ (forall chunk,
        ToString Number_toString (chunk_content chunk) = None ->
        contribution chunk_content chunk = [])
  /\ (updated chunks = true
      <-> exists chunk, In chunk chunks
            /\ ToString Number_toString (chunk_content chunk) <> None)
  /\ (forall chunk,
        (JSON_parse chunk = None -> chunk_content chunk = JStr chunk)
        /\ (JSON_parse chunk = Some JNull -> chunk_content chunk = JStr chunk)
        /\ (forall parsed, JSON_parse chunk = Some parsed -> nullish parsed = false ->
             let direct := get parsed (js "content") in
             let delta :=
               opt_get (opt_get (opt_get0 (get parsed (js "choices"))) (js "delta")) (js "content") in
             chunk_content chunk
             = if truthy direct then direct else if truthy delta then delta else JStr [])).
Proof.
  intros Hc Hs Ho Hok Hb.
  split; [|split; [|split; [|split; [|split; [|split]]]]].
  - destruct (addMessage_streamed opts env st content chunks r Hc Hs Ho Hok Hb)
      as (earlier & request & -> & Hreq).
    unfold streamed_result. simpl fst. simpl snd.
    split; [reflexivity|]. split; [reflexivity|].
    split; [eexists; reflexivity|].
    unfold responses, reported. simpl flat_map.
    destruct request; try discriminate Hreq.
    destruct (onMessageResponse opts); split; reflexivity.
  - intros before chunk after. rewrite accumulated_app, accumulated_cons. reflexivity.
  - intros chunk text E. unfold Chat.contribution. rewrite E. reflexivity.
  - intros chunk fields E. unfold Chat.contribution. rewrite E, ToString_object.
    destruct (has_own (js "toString") fields); reflexivity.
  - intros chunk E. unfold Chat.contribution. rewrite E. reflexivity.
  - apply updated_iff.
  - apply chunk_content_cases.
Qed.

Ltac prove_surfaced :=
  unfold surfaced; simpl fst; simpl snd;
  rewrite update_by_id_app, update_by_id_own by reflexivity;
  split; [reflexivity|]; split; [reflexivity|]; split;
  [ eexists _, _; split; [reflexivity|]; repeat split
  | match goal with |- context [onError ?o] => destruct (onError o) end; reflexivity ].

(** C7 (as amended). An abort is surfaced as [Request was cancelled] (on
    the placeholder with [isLoading] false, in the hook's [error], and to
    [onError]) when the request is aborted before the response arrives, in
    either mode, and when a standard request is aborted while
    [response.json()] is read. An abort while the body of a streamed
    response is being read is swallowed by [handleStreamingRequest]: the
    placeholder keeps the text of the chunks read by then (and still loads
    if none was shown), no error is set anywhere, and neither [onError] nor
    [onMessageResponse] is called. *)
Theorem abort_is_surfaced_or_swallowed (opts : ChatOptions) (env : Env) (st : Hook)
    (content : jsstring) :
  trim content <> [] ->
  (outcome env = aborted_before_response ->
   surfaced opts env (addMessage opts env st content user))
  /\ (streamingEnabled opts = false ->
      forall r, outcome env = FetchResolves r -> ok r = true -> json r = inl AbortError ->
      surfaced opts env (addMessage opts env st content user))
  /\ (streamingEnabled opts = true ->
      forall r chunks, outcome env = FetchResolves r -> ok r = true ->
      body r = Some (chunks, ReadRejects AbortError) ->
      swallowed env (accumulated chunk_content chunks) (updated chunks)
        (addMessage opts env st content user)).
Proof.
  intros Hc. split; [|split].
  - intros Ho. unfold Chat.addMessage. rewrite (content_is_sent _ Hc).
    unfold handleStreamingRequest, handleStandardRequest. rewrite Ho.
    unfold aborted_before_response.
    destruct (streamingEnabled opts); prove_surfaced.
  - intros Hs r Ho Hok Hj. unfold Chat.addMessage. rewrite (content_is_sent _ Hc), Hs.
    unfold handleStandardRequest. rewrite Ho, Hok, Hj. simpl negb. cbv iota.
    prove_surfaced.
  - intros Hs r chunks Ho Hok Hb. unfold Chat.addMessage. rewrite (content_is_sent _ Hc), Hs.
    unfold handleStreamingRequest. rewrite Ho, Hok, Hb. simpl negb. cbv iota.
    rewrite read_loop_spec, app_nil_l.
    change (instanceofError AbortError && negb (is_AbortError AbortError)) with false.
    cbv iota. unfold swallowed, streamed_placeholder. simpl fst. simpl snd.
    split; [reflexivity|]. split; [reflexivity|].
    split; [|split; reflexivity].
    destruct (updated chunks) eqn:Hu.
    + rewrite update_by_id_app, update_by_id_own by reflexivity.
      eexists. reflexivity.
    + rewrite (accumulated_skipped chunks Hu). eexists. reflexivity.
Qed.

(** C9. A call of [addMessage] whose content is empty or white space only
    changes nothing: the state (message list, [isLoading], [error]) is the
    one before the call, whatever it was, and nothing is requested. *)
Theorem blank_message_is_noop (opts : ChatOptions) (env : Env) (st : Hook)
    (content : jsstring) (role : MessageRole) :
  forallb is_whitespace content = true ->
  addMessage opts env st content role = (st, []).
Proof.
  intros H. unfold Chat.addMessage.
  rewrite (whitespace_is_no_content _ H). reflexivity.
Qed.

End Facts.

(** ** The theorems at concrete inputs *)

(** A JSON chunk followed by a plain-text chunk: the message reads [Hi there]. *)
Lemma streaming_content_accumulates_witness :
  trim (js "Hello") <> []
  /\ streamed_result sample_options (sample_env (streamed [json_chunk; js " there"]))
       (js "Hi there") true
       (addMessage sample_JSON_parse sample_Number_toString sample_options
          (sample_env (streamed [json_chunk; js " there"])) sample_hook (js "Hello") user).
Proof.
  assert (H : trim (js "Hello") <> []) by (vm_compute; discriminate).
  split; [exact H|].
  exact (proj1 (streaming_content_accumulates sample_JSON_parse sample_Number_toString
                  sample_options (sample_env (streamed [json_chunk; js " there"]))
                  sample_hook (js "Hello") [json_chunk; js " there"] _
                  H eq_refl eq_refl eq_refl eq_refl)).
Defined.

(** C1 as stated fails: a chunk that parses as JSON but carries neither
    field contributes the empty string, not its raw text. The answer of the
    repository's [/api/chat] route, read as a stream, leaves the assistant
    message empty, and of the plain-text stream [The answer is ], [42] the
    message keeps [The answer is ]; [onMessageResponse] receives the same.
    The concatenation the claim describes is the raw JSON text in the
    first case and [The answer is 42] in the second. *)
Lemma streaming_raw_text_counterexample :
  let run chunks :=
    addMessage sample_JSON_parse sample_Number_toString sample_options
      (sample_env (streamed chunks)) sample_hook (js "Hello") user in
  let claimed chunks :=
    accumulated sample_Number_toString (spec_chunk_content sample_JSON_parse) chunks in
  (map Message.content (messages (fst (run [api_chat_chunk]))) = [JStr (js "Hello"); JStr []]
   /\ map Message.content (responses (snd (run [api_chat_chunk]))) = [JStr []]
   /\ claimed [api_chat_chunk] = api_chat_chunk)
  /\ (map Message.content (messages (fst (run [js "The answer is "; js "42"])))
      = [JStr (js "Hello"); JStr (js "The answer is ")]
     /\ map Message.content (responses (snd (run [js "The answer is "; js "42"])))
        = [JStr (js "The answer is ")]
     /\ claimed [js "The answer is "; js "42"] = js "The answer is 42").
Proof. vm_compute. repeat split. Qed.

(** An abort before the response is surfaced; an abort after the chunk
    [Hel] was read is swallowed. *)
Lemma abort_is_surfaced_or_swallowed_witness :
  trim (js "Hello") <> []
  /\ surfaced sample_options (sample_env aborted_before_response)
       (addMessage sample_JSON_parse sample_Number_toString sample_options
          (sample_env aborted_before_response) sample_hook (js "Hello") user)
  /\ swallowed (sample_env (aborted_during_body [js "Hel"])) (js "Hel") true
       (addMessage sample_JSON_parse sample_Number_toString sample_options
          (sample_env (aborted_during_body [js "Hel"])) sample_hook (js "Hello") user).
Proof.
  assert (H : trim (js "Hello") <> []) by (vm_compute; discriminate).
  split; [exact H|]. split.
  - exact (proj1 (abort_is_surfaced_or_swallowed sample_JSON_parse sample_Number_toString
                    sample_options (sample_env aborted_before_response) sample_hook
                    (js "Hello") H) eq_refl).
  - exact (proj2 (proj2 (abort_is_surfaced_or_swallowed sample_JSON_parse sample_Number_toString
                    sample_options (sample_env (aborted_during_body [js "Hel"])) sample_hook
                    (js "Hello") H)) eq_refl _ [js "Hel"] eq_refl eq_refl eq_refl).
Defined.

(** C7 as stated fails: with streaming on (the default), a request aborted
    while its body is read leaves the hook without an error, the placeholder
    with the text read so far and no error, and [onError] uncalled. *)
Lemma abort_during_stream_counterexample :
  let result :=
    addMessage sample_JSON_parse sample_Number_toString sample_options
      (sample_env (aborted_during_body [js "Hel"])) sample_hook (js "Hello") user in
  error (fst result) = None
  /\ reported (snd result) = []
  /\ messages (fst result)
     = [Message.mk (js "m1") (JStr (js "Hello")) user 1000 None None;
        Message.mk (js "m2") (JStr (js "Hel")) assistant 1001 (Some false) None].
Proof. vm_compute. repeat split. Qed.

(** Of the chunks [A], [{"content":{"toString":1}}], [B] the message reads
    [AB]: the second chunk is skipped. Of [A], [{"content":{"a":1}}], [B]
    it reads [A[object Object]B]. A stream of the first object alone leaves
    the placeholder empty and loading. *)
Example unconvertible_chunk_is_skipped :
  let run chunks :=
    addMessage objects_JSON_parse sample_Number_toString sample_options
      (sample_env (streamed chunks)) sample_hook (js "Hello") user in
  messages (fst (run [js "A"; toString_chunk; js "B"]))
  = [Message.mk (js "m1") (JStr (js "Hello")) user 1000 None None;
     Message.mk (js "m2") (JStr (js "AB")) assistant 1001 (Some false) None]
  /\ responses (snd (run [js "A"; toString_chunk; js "B"]))
     = [Message.mk (js "m2") (JStr (js "AB")) assistant 2000 None None]
  /\ messages (fst (run [js "A"; object_chunk; js "B"]))
     = [Message.mk (js "m1") (JStr (js "Hello")) user 1000 None None;
        Message.mk (js "m2") (JStr (js "A[object Object]B")) assistant 1001 (Some false) None]
  /\ messages (fst (run [toString_chunk]))
     = [Message.mk (js "m1") (JStr (js "Hello")) user 1000 None None;
        Message.mk (js "m2") (JStr []) assistant 1001 (Some true) None]
  /\ error (fst (run [toString_chunk])) = None
  /\ reported (snd (run [toString_chunk])) = [].
Proof. vm_compute. repeat split. Qed.

(** Spaces, a tab, a no-break space and a line feed make no message. *)
Lemma blank_message_is_noop_witness :
  forallb is_whitespace [32; 9; 160; 10]%N = true
  /\ addMessage sample_JSON_parse sample_Number_toString sample_options
       (sample_env aborted_before_response) sample_hook [32; 9; 160; 10]%N user
     = (sample_hook, []).
Proof.
  split; [reflexivity|].
  exact (blank_message_is_noop sample_JSON_parse sample_Number_toString sample_options
           (sample_env aborted_before_response) sample_hook [32; 9; 160; 10]%N user eq_refl).
Defined.

End ChatFacts.

Module MicFacts.
Import Mic.

Lemma stale_initial : stale initial.
Proof. repeat split; try reflexivity. intros i [=]. Qed.

Lemma stopRecording_stale (r : Render) (st : State) :
  stale st -> stale (stopRecording r st).
Proof.
  intros H. unfold stopRecording, MediaRecorder_stop.
  destruct (negb (isRecording r) || negb (has_recorder st)); [exact H|].
  destruct (mediaRecorderRef (refs st)) as [[]|]; exact H.
Qed.

Lemma call_stale (b : bool) (c : Call) (st : State) : stale st -> stale (call b c st).
Proof. destruct b; intros H; exact H. Qed.

Lemma step_stale (p : Props) (st : State) (e : Event) :
  stale st -> stale (step p st e).
Proof.
  intros H. destruct e as [granted now| |now|data|now|now|data]; simpl.
  - destruct (disabled p || isPermissionDenied (cells st)); [exact H|].
    destruct (isRecording (cells st)) eqn:Hrec; [apply stopRecording_stale; exact H|].
    unfold startRecording. rewrite Hrec.
    destruct (disabled p || false || isPermissionDenied (cells st)); [exact H|].
    destruct granted.
    + unfold visualizeAudio. rewrite Hrec. rewrite orb_true_r.
      destruct H as (_ & H2 & H3 & H4).
      destruct (onBeforeRecording p), (onRecordingStart p); simpl;
        (split; [intros i [= <-]; exact Hrec | repeat split; assumption]).
    + destruct H as (H1 & H2 & H3 & H4).
      destruct (onBeforeRecording p); simpl; repeat split; assumption.
  - destruct (isRecording (cells st)); [|exact H].
    unfold cancelRecording, MediaRecorder_stop.
    destruct (negb (isRecording (cells st)) || negb (has_recorder st)); [exact H|].
    apply call_stale. destruct (mediaRecorderRef (refs st)) as [[]|]; exact H.
  - destruct (timerIntervalRef (refs st)) as [i|] eqn:Hi; [|exact H].
    unfold timer_tick.
    assert (Hs : stale (setRecordingDuration ((now - startTime i) / 1000) st)) by exact H.
    destruct ((now - startTime i) / 1000 >=? maxDuration p); [|exact Hs].
    apply stopRecording_stale. exact Hs.
  - exact H.
  - destruct H as (H1 & H2 & H3 & H4). rewrite H2. repeat split; assumption.
  - destruct H as (H1 & H2 & H3 & H4). rewrite H3. repeat split; assumption.
  - destruct (mediaRecorderRef (refs st)) as [[]|]; try exact H.
    destruct H as (H1 & H2 & H3 & H4).
    unfold onstop. destruct (onRecordingComplete p); simpl;
      (split; [intros i [=] | repeat split]).
Qed.

Lemma run_stale (p : Props) (events : list Event) :
  forall st, stale st -> stale (run p st events).
Proof.
  induction events as [|e events IH]; intros st H; [exact H|].
  simpl. apply IH. apply step_stale. exact H.
Qed.

(** No automatic event stops the recorder of a reachable state: only the
    user's clicks do. *)
Lemma automatic_step_keeps_recorder (p : Props) (st : State) (e : Event) :
  stale st -> automatic e = true ->
  mediaRecorderRef (refs (step p st e)) = mediaRecorderRef (refs st)
  /\ isRecording (cells (step p st e)) = isRecording (cells st)
  /\ calls (step p st e) = calls st.
Proof.
  intros (H1 & H2 & H3 & H4) Ha. destruct e; try discriminate Ha; simpl.
  - destruct (timerIntervalRef (refs st)) as [i|] eqn:Hi; [|repeat split].
    unfold timer_tick, stopRecording. rewrite (H1 i eq_refl). simpl.
    destruct ((now - startTime i) / 1000 >=? maxDuration p); repeat split.
  - repeat split.
  - rewrite H2. repeat split.
  - rewrite H3. repeat split.
Qed.

Lemma automatic_run_keeps_recorder (p : Props) (events : list Event) :
  forall st, stale st -> forallb automatic events = true ->
  mediaRecorderRef (refs (run p st events)) = mediaRecorderRef (refs st)
  /\ isRecording (cells (run p st events)) = isRecording (cells st)
  /\ calls (run p st events) = calls st.
Proof.
  induction events as [|e events IH]; intros st H Ha; [repeat split|].
  simpl in Ha. apply andb_true_iff in Ha as [He Ha]. simpl.
  destruct (automatic_step_keeps_recorder p st e H He) as (E1 & E2 & E3).
  destruct (IH (step p st e) (step_stale p st e H) Ha) as (F1 & F2 & F3).
  rewrite F1, F2, F3. repeat split; assumption.
Qed.

(** The silence check in every state the component reaches from its first
    render: speech is never marked as started, no timeout is armed, no
    sample is scheduled. *)
Lemma silence_check_is_dead (p : Props) (events : list Event) :
  hasSpeechStarted (cells (run p initial events)) = false
  /\ silenceTimeoutRef (refs (run p initial events)) = None
  /\ animationFrameRef (refs (run p initial events)) = None.
Proof.
  destruct (run_stale p events initial stale_initial) as (_ & H2 & H3 & H4).
  repeat split; assumption.
Qed.

(** [checkSilence] as written, had it been called: it marks speech as
    started exactly on a level above 0.1, and arms a timeout only for a
    render that saw speech started, on a level below 0.05. *)
Lemma checkSilence_marks_speech (p : Props) (r : Render) (now : Z) (l : float) (st : State) :
  hasSpeechStarted (cells (checkSilence p r now l st))
  = PrimFloat.ltb MIN_SPEECH_LEVEL l || hasSpeechStarted (cells st).
Proof.
  unfold checkSilence.
  destruct (PrimFloat.ltb MIN_SPEECH_LEVEL l); simpl;
    repeat match goal with |- context [if ?b then _ else _] => destruct b end;
    reflexivity.
Qed.

Lemma checkSilence_arms (p : Props) (r : Render) (now : Z) (l : float) (st : State) (t : Timeout) :
  silenceTimeoutRef (refs st) = None ->
  silenceTimeoutRef (refs (checkSilence p r now l st)) = Some t ->
  hasSpeechStarted r = true
  /\ PrimFloat.ltb l SILENCE_THRESHOLD = true
  /\ t = {| timeout_render := r; due := now + autoStopSilence p; pending := true |}.
Proof.
  intros Hn. unfold checkSilence, has_silenceTimeout.
  destruct (PrimFloat.ltb MIN_SPEECH_LEVEL l); simpl; rewrite ?Hn; simpl;
    destruct (hasSpeechStarted r); simpl; try (rewrite Hn; discriminate);
    destruct (PrimFloat.ltb l SILENCE_THRESHOLD); simpl;
    repeat match goal with |- context [if ?b then _ else _] => destruct b; simpl end;
    rewrite ?Hn; try discriminate; intros [= <-]; repeat split.
Qed.

(** C2, on the code. A recording is started, loud sound (level 1, above
    0.1) is followed by silence, frames and five seconds pass: speech was
    never marked as started, no timeout was armed, no sample was taken
    (the level shown is still 0), and the recorder is still recording. *)
Theorem silence_check_never_runs :
  let st :=
    run default_props initial
      [ClickButton true 0; Sound loud; AnimationFrame 16; AnimationFrame 32;
       Sound quiet; AnimationFrame 48; AnimationFrame 3000; SilenceTimeout 5000] in
  PrimFloat.ltb MIN_SPEECH_LEVEL (level_of loud) = true
  /\ PrimFloat.ltb (level_of quiet) SILENCE_THRESHOLD = true
  /\ hasSpeechStarted (cells st) = false
  /\ silenceTimeoutRef (refs st) = None
  /\ animationFrameRef (refs st) = None
  /\ PrimFloat.eqb (recordingLevel (cells st)) 0%float = true
  /\ mediaRecorderRef (refs st) = Some Recording
  /\ isRecording (cells st) = true.
Proof. vm_compute. repeat split. Qed.

(** C3, on the code. With the default [maxDuration] of 60 the interval
    ticks every second for two minutes: the recorder is still recording,
    nothing was delivered, and the duration shown is 120 seconds. *)
Theorem recording_outlasts_maxDuration :
  let st := run default_props initial (ClickButton true 0 :: ticks 120) in
  mediaRecorderRef (refs st) = Some Recording
  /\ isRecording (cells st) = true
  /\ recordingDuration (cells st) = 120
  /\ maxDuration default_props = 60
  /\ calls st = [BeforeRecording; RecordingStart].
Proof. vm_compute. repeat split. Qed.

(** The same for every [maxDuration] and every run of the timer: the ticks
    set the duration shown and leave the recorder recording. *)
Lemma timer_never_stops_recording (p : Props) (n : nat) :
  disabled p = false ->
  let st := run p initial (ClickButton true 0 :: ticks n) in
  mediaRecorderRef (refs st) = Some Recording /\ isRecording (cells st) = true.
Proof.
  intros Hd st.
  assert (Hstart : stale (step p initial (ClickButton true 0)))
    by (apply step_stale, stale_initial).
  assert (Hauto : forallb automatic (ticks n) = true).
  { unfold ticks. apply forallb_forall. intros e [k [<- _]]%in_map_iff. reflexivity. }
  destruct (automatic_run_keeps_recorder p (ticks n) _ Hstart Hauto) as (E1 & E2 & _).
  subst st.
  change (run p initial (ClickButton true 0 :: ticks n))
    with (run p (step p initial (ClickButton true 0)) (ticks n)).
  rewrite E1, E2. simpl. rewrite Hd. simpl.
  unfold startRecording. rewrite Hd. simpl.
  destruct (onBeforeRecording p), (onRecordingStart p); split; reflexivity.
Qed.

(** C10. Cancelling a recording in progress stops the recorder and leaves
    its [onstop] handler in place: when the recorder has delivered its data,
    [onRecordingCancel] and then [onRecordingComplete] have been called, the
    latter with the blob of everything recorded, exactly the call (and the
    state) a recording stopped with the button ends in. *)
Theorem cancel_delivers_recording (p : Props) (st : State) (data : Blob) :
  isRecording (cells st) = true ->
  mediaRecorderRef (refs st) = Some Recording ->
  let audioBlob := concat (audioChunksRef (refs st) ++ [data]) in
  let delivered := if onRecordingComplete p then [RecordingComplete audioBlob] else [] in
  let cancelled := run p st [ClickCancel; RecorderStops data] in
  let stopped := step p (stopRecording (cells st) st) (RecorderStops data) in
  calls cancelled
  = calls st ++ (if onRecordingCancel p then [RecordingCancel] else []) ++ delivered
  /\ calls stopped = calls st ++ delivered
  /\ cells cancelled = cells stopped
  /\ refs cancelled = refs stopped
  /\ mediaRecorderRef (refs cancelled) = Some Inactive.
Proof.
  intros Hrec Hmr. destruct st as [c r d l]. simpl in Hrec, Hmr.
  unfold run, stopRecording, has_recorder, MediaRecorder_stop. simpl.
  unfold cancelRecording, has_recorder, MediaRecorder_stop. simpl.
  rewrite Hrec, Hmr. simpl. unfold onstop, ondataavailable, call.
  destruct (onRecordingCancel p), (onRecordingComplete p); simpl;
    rewrite ?app_nil_r, <- ?app_assoc; repeat split.
Qed.

(** A recording just started, with three bytes recorded when it is cancelled. *)
Lemma cancel_delivers_recording_witness :
  let st := run default_props initial [ClickButton true 0] in
  isRecording (cells st) = true
  /\ mediaRecorderRef (refs st) = Some Recording
  /\ calls (run default_props st [ClickCancel; RecorderStops [1; 2; 3]%N])
     = [BeforeRecording; RecordingStart; RecordingCancel; RecordingComplete [1; 2; 3]%N].
Proof.
  split; [reflexivity|]. split; [reflexivity|].
  exact (proj1 (cancel_delivers_recording default_props
                  (run default_props initial [ClickButton true 0]) [1; 2; 3]%N
                  eq_refl eq_refl)).
Defined.

End MicFacts.

Module FirestoreFacts.
Import Firestore.

(** ** Requests *)

Lemma request_rejected {A : Type} (env : Env) (r : Request) (serve : Store -> A * Store) (w : World) :
  rejects env r = true ->
  request env r serve w = (Throws (FirestoreError r), {| store := store w; sent := sent w ++ [r] |}).
Proof. unfold request. intros ->. reflexivity. Qed.

Lemma request_served {A : Type} (env : Env) (r : Request) (serve : Store -> A * Store) (w : World) :
  rejects env r = false ->
  request env r serve w
  = (Ok (fst (serve (store w))), {| store := snd (serve (store w)); sent := sent w ++ [r] |}).
Proof. unfold request. intros ->. destruct (serve (store w)); reflexivity. Qed.

Lemma Promise_all_world (env : Env) (refs : list DocRef) :
  forall w,
    snd (Promise_all (map (deleteDoc env) refs) w)
    = {| store := settle_deletes env refs (store w);
         sent := sent w ++ map DeleteDoc refs |}.
Proof.
  induction refs as [|ref refs IH]; intros w; simpl.
  - rewrite app_nil_r. destruct w; reflexivity.
  - unfold deleteDoc at 1, request.
    destruct (rejects env (DeleteDoc ref)) eqn:E; simpl; rewrite IH; simpl;
      rewrite <- app_assoc; reflexivity.
Qed.

Lemma Promise_all_result (env : Env) (refs : list DocRef) :
  forall w, fst (Promise_all (map (deleteDoc env) refs) w) = first_rejected env refs.
Proof.
  unfold first_rejected.
  induction refs as [|ref refs IH]; intros w; simpl; [reflexivity|].
  unfold deleteDoc at 1, request.
  destruct (rejects env (DeleteDoc ref)) eqn:E; simpl; [reflexivity|]. apply IH.
Qed.

Lemma settle_deletes_lookup (env : Env) (refs : list DocRef) (k : DocRef) :
  forall s : Store,
    settle_deletes env refs s !! k
    = if existsb (fun ref => bool_decide (ref = k) && negb (rejects env (DeleteDoc ref))) refs
      then None else s !! k.
Proof.
  unfold settle_deletes.
  induction refs as [|ref refs IH]; intros s; simpl; [reflexivity|].
  rewrite IH. destruct (rejects env (DeleteDoc ref)) eqn:E; simpl.
  - rewrite andb_false_r. reflexivity.
  - rewrite andb_true_r. destruct (bool_decide_reflect (ref = k)) as [->|Hne]; simpl.
    + rewrite lookup_delete_eq. destruct (existsb _ refs); reflexivity.
    + rewrite lookup_delete_ne by exact Hne. reflexivity.
Qed.

(** The order in which the deletes settle does not matter. *)
Lemma settle_deletes_unordered (env : Env) (refs refs' : list DocRef) (s : Store) :
  Permutation refs refs' -> settle_deletes env refs s = settle_deletes env refs' s.
Proof.
  intros HP. apply map_eq. intros k. rewrite !settle_deletes_lookup.
  assert (E : forall f : DocRef -> bool, existsb f refs = existsb f refs').
  { intros f. induction HP; simpl; try congruence.
    destruct (f x), (f y); reflexivity. }
  rewrite E. reflexivity.
Qed.

Lemma history_of_spec (u : User) (s : Store) (ref : DocRef) :
  ref ∈ map fst (history_of u s)
  <-> exists d, s !! ref = Some d /\ matches TALK_HISTORY_COLLECTION (uid u) (ref, d) = true.
Proof.
  unfold history_of. rewrite list_elem_of_In, in_map_iff. split.
  - intros ([k d] & <- & Hin). apply list_elem_of_In in Hin.
    apply elem_of_map_to_list in Hin. apply map_lookup_filter_Some in Hin as [H1 H2].
    exists d. split; assumption.
  - intros (d & H1 & H2). exists (ref, d). split; [reflexivity|].
    apply list_elem_of_In. apply elem_of_map_to_list. apply map_lookup_filter_Some.
    split; assumption.
Qed.

Lemma history_of_NoDup (u : User) (s : Store) : NoDup (map fst (history_of u s)).
Proof. unfold history_of. apply NoDup_fst_map_to_list. Qed.

Lemma users_is_no_talk (i : string) (userId : string) (d : Doc) :
  matches TALK_HISTORY_COLLECTION userId ((USERS_COLLECTION, i), d) = false.
Proof. reflexivity. Qed.

Lemma history_after_settings_delete (u : User) (s : Store) :
  history_of u (delete (USERS_COLLECTION, uid u) s) = history_of u s.
Proof.
  unfold history_of. f_equal. rewrite map_filter_delete. apply delete_id.
  apply map_lookup_filter_None. right. intros d _. rewrite users_is_no_talk. discriminate.
Qed.

Lemma deleteUserData_run (env : Env) (u : User) (w : World) :
  rejects env (DeleteDoc (USERS_COLLECTION, uid u)) = false ->
  rejects env (GetDocs TALK_HISTORY_COLLECTION (uid u)) = false ->
  deleteUserData env (Some u) w
  = Promise_all (map (deleteDoc env) (map fst (history_of u (store w))))
      {| store := delete (USERS_COLLECTION, uid u) (store w);
         sent := sent w ++ [DeleteDoc (USERS_COLLECTION, uid u);
                            GetDocs TALK_HISTORY_COLLECTION (uid u)] |}.
Proof.
  intros Hd Hq. unfold deleteUserData, bind, deleteDoc at 1, getDocs.
  rewrite (request_served _ _ _ _ Hd). simpl.
  rewrite (request_served _ _ _ _ Hq). simpl.
  fold (history_of u (delete (USERS_COLLECTION, uid u) (store w))).
  rewrite history_after_settings_delete, map_map, <- app_assoc. reflexivity.
Qed.

Lemma first_rejected_Ok (env : Env) (refs : list DocRef) :
  first_rejected env refs = Ok tt
  <-> forall ref, ref ∈ refs -> rejects env (DeleteDoc ref) = false.
Proof.
  unfold first_rejected. induction refs as [|r refs IH]; simpl.
  - split; [intros _ ref Hin; inversion Hin | reflexivity].
  - destruct (rejects env (DeleteDoc r)) eqn:E.
    + split; [discriminate|]. intros H. rewrite (H r) in E by left. discriminate.
    + rewrite IH. split.
      * intros H ref Hin. apply elem_of_cons in Hin as [->|Hin]; [exact E | apply H, Hin].
      * intros H ref Hin. apply H. right. exact Hin.
Qed.

Lemma existsb_settled (env : Env) (refs : list DocRef) (k : DocRef) :
  existsb (fun ref => bool_decide (ref = k) && negb (rejects env (DeleteDoc ref))) refs
  = bool_decide (k ∈ refs) && negb (rejects env (DeleteDoc k)).
Proof.
  induction refs as [|r refs IH]; simpl; [reflexivity|].
  rewrite IH. destruct (bool_decide_reflect (r = k)) as [->|Hne]; simpl.
  - rewrite (bool_decide_eq_true_2 (k ∈ k :: refs)) by left. simpl.
    destruct (rejects env (DeleteDoc k)); simpl; [apply andb_false_r | reflexivity].
  - destruct (bool_decide_reflect (k ∈ refs)) as [Hin|Hnin]; simpl.
    + rewrite (bool_decide_eq_true_2 (k ∈ r :: refs)) by (right; exact Hin). reflexivity.
    + rewrite (bool_decide_eq_false_2 (k ∈ r :: refs)); [reflexivity|].
      intros [->|Hin]%elem_of_cons; [apply Hne; reflexivity | exact (Hnin Hin)].
Qed.

Lemma deleteUserData_settled (env : Env) (u : User) (w : World) :
  rejects env (DeleteDoc (USERS_COLLECTION, uid u)) = false ->
  rejects env (GetDocs TALK_HISTORY_COLLECTION (uid u)) = false ->
  best_effort env u w.
Proof.
  intros Hd Hq. unfold best_effort.
  rewrite (deleteUserData_run env u w Hd Hq).
  rewrite Promise_all_world, Promise_all_result. simpl.
  split; [rewrite <- app_assoc; reflexivity|].
  split; [apply history_of_NoDup|].
  split; [apply history_of_spec|].
  split; [|split].
  - intros ref. rewrite settle_deletes_lookup, existsb_settled.
    destruct (bool_decide_reflect (ref = (USERS_COLLECTION, uid u))) as [->|Hne].
    + rewrite lookup_delete_eq. destruct (_ && _); reflexivity.
    + rewrite lookup_delete_ne by congruence. reflexivity.
  - apply first_rejected_Ok.
  - intros order HP. apply settle_deletes_unordered. exact HP.
Qed.

(** C5. [deleteUserData(user)] deletes [users/{uid}] and then sends one
    delete per [talk_history] document whose [userId] is the user's; the
    deletes that are not rejected take effect whatever becomes of the
    others and in whatever order they settle, and the call fails exactly
    when one is rejected: nothing is rolled back. When the first delete is
    rejected nothing else is sent; when the query is rejected the settings
    document stays deleted. *)
Theorem deleteUserData_best_effort (env : Env) (u : User) (w : World) :
  let userRef := (USERS_COLLECTION, uid u) in
  let query := GetDocs TALK_HISTORY_COLLECTION (uid u) in
  (rejects env (DeleteDoc userRef) = true ->
   deleteUserData env (Some u) w
   = (Throws (FirestoreError (DeleteDoc userRef)),
      {| store := store w; sent := sent w ++ [DeleteDoc userRef] |}))
  /\ (rejects env (DeleteDoc userRef) = false -> rejects env query = true ->
      deleteUserData env (Some u) w
      = (Throws (FirestoreError query),
         {| store := delete userRef (store w);
            sent := (sent w ++ [DeleteDoc userRef]) ++ [query] |}))
  /\ (rejects env (DeleteDoc userRef) = false -> rejects env query = false ->
      best_effort env u w).
Proof.
  intros userRef query. split; [|split].
  - intros Hd. unfold deleteUserData, bind, deleteDoc.
    rewrite (request_rejected _ _ _ _ Hd). reflexivity.
  - intros Hd Hq. unfold deleteUserData, bind, deleteDoc, getDocs.
    rewrite (request_served _ _ _ _ Hd). simpl.
    rewrite (request_rejected _ _ _ _ Hq). reflexivity.
  - apply deleteUserData_settled.
Qed.

(** Firestore rejects the delete of one of Alice's two talks: the call
    throws, and her settings and her other talk are gone all the same. *)
Lemma deleteUserData_best_effort_witness :
  rejects failing_h2 (DeleteDoc (USERS_COLLECTION, uid alice)) = false
  /\ rejects failing_h2 (GetDocs TALK_HISTORY_COLLECTION (uid alice)) = false
  /\ best_effort failing_h2 alice sample_world
  /\ fst (deleteUserData failing_h2 (Some alice) sample_world)
     = Throws (FirestoreError (DeleteDoc ("talk_history", "h2")))
  /\ map (fun ref => bool_decide (is_Some (store (snd (deleteUserData failing_h2 (Some alice) sample_world)) !! ref)))
       [("users", "alice"); ("talk_history", "h1"); ("talk_history", "h2"); ("talk_history", "b1")]
     = [false; false; true; true].
Proof.
  split; [reflexivity|]. split; [reflexivity|]. split.
  - exact (proj2 (proj2 (deleteUserData_best_effort failing_h2 alice sample_world))
             eq_refl eq_refl).
  - vm_compute. split; reflexivity.
Defined.

Section Facts.

Variable date_leb : Value -> Value -> bool.

Lemma saveUserSettings_touches_users_only (env : Env) (user : option User) (settings : Doc)
    (w : World) (c i : string) :
  c <> USERS_COLLECTION ->
  store (snd (saveUserSettings env user settings w)) !! (c, i) = store w !! (c, i).
Proof.
  intros Hc. destruct user as [u|]; [|reflexivity].
  unfold saveUserSettings, bind, getDoc, setDoc, request.
  destruct (rejects env (GetDoc _)); simpl; [reflexivity|].
  destruct (rejects env (SetDoc _ _)); simpl; [reflexivity|].
  apply lookup_insert_ne. congruence.
Qed.

Lemma deleteUserData_only_deletes (env : Env) (user : option User) (w : World) (id : string) (d : Doc) :
  store w !! (TALK_HISTORY_COLLECTION, id) = Some d ->
  store (snd (deleteUserData env user w)) !! (TALK_HISTORY_COLLECTION, id) = Some d
  \/ (store (snd (deleteUserData env user w)) !! (TALK_HISTORY_COLLECTION, id) = None
      /\ exists u, user = Some u /\ has_userId (uid u) d = true).
Proof.
  intros Hk. destruct user as [u|]; [|left; exact Hk].
  destruct (rejects env (DeleteDoc (USERS_COLLECTION, uid u))) eqn:Hd.
  { left. unfold deleteUserData, bind, deleteDoc. rewrite (request_rejected _ _ _ _ Hd). exact Hk. }
  destruct (rejects env (GetDocs TALK_HISTORY_COLLECTION (uid u))) eqn:Hq.
  { left. unfold deleteUserData, bind, deleteDoc, getDocs.
    rewrite (request_served _ _ _ _ Hd). simpl. rewrite (request_rejected _ _ _ _ Hq). simpl.
    rewrite lookup_delete_ne by discriminate. exact Hk. }
  destruct (deleteUserData_settled env u w Hd Hq) as (_ & _ & Hh & Hl & _).
  rewrite Hl. rewrite bool_decide_eq_false_2 by discriminate.
  destruct (bool_decide_reflect ((TALK_HISTORY_COLLECTION, id) ∈ map fst (history_of u (store w))))
    as [Hin|Hnin]; simpl; [|left; exact Hk].
  destruct (rejects env (DeleteDoc (TALK_HISTORY_COLLECTION, id))); simpl; [left; exact Hk|].
  right. split; [reflexivity|]. exists u. split; [reflexivity|].
  apply Hh in Hin as (d' & Hd' & Hm). rewrite Hk in Hd'. injection Hd' as <-.
  unfold matches in Hm. simpl in Hm. exact Hm.
Qed.

(** C4. [saveTalkHistory] creates one new [talk_history] document: the item
    with its [id] set to the generated document id, which it returns, every
    other document being left as it was; and no operation of the module
    changes a [talk_history] document that exists: after any of them the
    document is as before, or deleted (by [deleteUserData] for the user it
    belongs to). The generated id is one no document has, as Firestore
    generates them. *)
Theorem talk_history_created_never_updated (env : Env) (w : World) :
  store w !! (TALK_HISTORY_COLLECTION, new_id env) = None ->
  (forall historyItem,
      let document := <["id" := VString (new_id env)]> historyItem in
      rejects env (SetDoc (TALK_HISTORY_COLLECTION, new_id env) document) = false ->
      let result := saveTalkHistory env historyItem w in
      fst result = Ok (new_id env)
      /\ sent (snd result) = sent w ++ [SetDoc (TALK_HISTORY_COLLECTION, new_id env) document]
      /\ store (snd result) !! (TALK_HISTORY_COLLECTION, new_id env) = Some document
      /\ (forall ref, ref <> (TALK_HISTORY_COLLECTION, new_id env) ->
           store (snd result) !! ref = store w !! ref))
  /\ (forall op id d,
        store w !! (TALK_HISTORY_COLLECTION, id) = Some d ->
        let w' := perform date_leb env op w in
        store w' !! (TALK_HISTORY_COLLECTION, id) = Some d
        \/ (store w' !! (TALK_HISTORY_COLLECTION, id) = None
            /\ exists u, op = DeleteUserData (Some u) /\ has_userId (uid u) d = true)).
Proof.
  intros Hfresh. split.
  - intros historyItem document Hs result. subst result.
    unfold saveTalkHistory, bind, setDoc. fold document.
    rewrite (request_served _ _ _ _ Hs). simpl.
    repeat split.
    + apply lookup_insert_eq.
    + intros ref Hne. apply lookup_insert_ne. congruence.
  - intros op id d Hk w'. subst w'.
    destruct op as [user settings|user|user|historyItem|userId]; simpl.
    + left. rewrite saveUserSettings_touches_users_only by discriminate. exact Hk.
    + left. destruct user as [u|]; [|exact Hk].
      unfold getUserSettings, getDoc, request.
      destruct (rejects env _); exact Hk.
    + destruct (deleteUserData_only_deletes env user w id d Hk) as [H|(H & u & -> & Hu)].
      * left. exact H.
      * right. split; [exact H|]. exists u. split; [reflexivity | exact Hu].
    + left. unfold saveTalkHistory, bind, setDoc, request.
      destruct (rejects env _); simpl; [exact Hk|].
      rewrite lookup_insert_ne; [exact Hk|].
      intros [= E]. rewrite E, Hk in Hfresh. discriminate.
    + left. unfold getUserTalkHistory, bind, getDocs, request.
      destruct (rejects env _); exact Hk.
Qed.

End Facts.

(** A third talk is saved under the fresh id [h3]; Bob's account is then
    deleted, and Alice's talk [h1] is as it was. *)
Lemma talk_history_created_never_updated_witness :
  store sample_world !! (TALK_HISTORY_COLLECTION, new_id (serving 10)) = None
  /\ fst (saveTalkHistory (serving 10) (talk "alice" 95) sample_world) = Ok "h3"
  /\ store (snd (saveTalkHistory (serving 10) (talk "alice" 95) sample_world))
       !! (TALK_HISTORY_COLLECTION, "h3")
     = Some (<["id" := VString "h3"]> (talk "alice" 95))
  /\ (store (perform by_timestamp (serving 10) (DeleteUserData (Some {| uid := "bob" |})) sample_world)
        !! (TALK_HISTORY_COLLECTION, "h1") = Some (talk "alice" 70)
      \/ (store (perform by_timestamp (serving 10) (DeleteUserData (Some {| uid := "bob" |})) sample_world)
            !! (TALK_HISTORY_COLLECTION, "h1") = None
          /\ exists u, DeleteUserData (Some {| uid := "bob" |}) = DeleteUserData (Some u)
                       /\ has_userId (uid u) (talk "alice" 70) = true)).
Proof.
  assert (Hfresh : store sample_world !! (TALK_HISTORY_COLLECTION, new_id (serving 10)) = None)
    by reflexivity.
  destruct (talk_history_created_never_updated by_timestamp (serving 10) sample_world Hfresh)
    as [Hcreate Hkeep].
  split; [exact Hfresh|].
  destruct (Hcreate (talk "alice" 95) eq_refl) as (H1 & _ & H3 & _).
  split; [exact H1|]. split; [exact H3|].
  exact (Hkeep (DeleteUserData (Some {| uid := "bob" |})) "h1" (talk "alice" 70) eq_refl).
Defined.

(** C8 (as amended). With Firestore serving the read and the write,
    [saveUserSettings(user, settings)] replaces the user's document by a
    merge: [updatedAt] is the current timestamp on every call; every other
    field takes the value [settings] gives it, and keeps its stored value
    when [settings] has none; [createdAt] is set to the current timestamp
    when the document did not exist, and when it existed it is the stored
    value unless [settings] carries a [createdAt], which then replaces it.
    No other document changes. *)
Theorem saveUserSettings_merges (env : Env) (u : User) (settings : Doc) (w : World) :
  (forall r, rejects env r = false) ->
  let userRef := (USERS_COLLECTION, uid u) in
  let result := saveUserSettings env (Some u) settings w in
  exists written : Doc,
    fst result = Ok tt
    /\ store (snd result) !! userRef = Some written
    /\ (forall ref, ref <> userRef -> store (snd result) !! ref = store w !! ref)
    /\ written !! "updatedAt" = Some (VTimestamp (now env))
    /\ match store w !! userRef with
       | Some stored =>
           forall field, field <> "updatedAt" ->
             written !! field
             = match settings !! field with Some v => Some v | None => stored !! field end
       | None =>
           written !! "createdAt" = Some (VTimestamp (now_again env))
           /\ forall field, field <> "updatedAt" -> field <> "createdAt" ->
                written !! field = settings !! field
       end.
Proof.
  intros Hserve userRef result. subst result.
  unfold saveUserSettings, bind, getDoc, setDoc. fold userRef.
  rewrite (request_served _ _ _ _ (Hserve _)). simpl.
  rewrite (request_served _ _ _ _ (Hserve _)). simpl.
  eexists. split; [reflexivity|]. split; [apply lookup_insert_eq|].
  split; [intros ref Hne; apply lookup_insert_ne; congruence|].
  destruct (store w !! userRef) as [stored|] eqn:Hst.
  - split; [apply lookup_insert_eq|].
    intros field Hf. rewrite lookup_insert_ne by congruence.
    rewrite lookup_union. destruct (settings !! field), (stored !! field); reflexivity.
  - split; [rewrite lookup_insert_ne by discriminate; apply lookup_insert_eq|].
    split; [apply lookup_insert_eq|].
    intros field Hf Hc. rewrite !lookup_insert_ne by congruence.
    rewrite lookup_union, lookup_empty. destruct (settings !! field); reflexivity.
Qed.

(** Alice changes her language: the stored [createdAt] stays, [updatedAt] moves. *)
Lemma saveUserSettings_merges_witness :
  (forall r, rejects (serving 10) r = false)
  /\ exists written : Doc,
      fst (saveUserSettings (serving 10) (Some alice) (<["language" := VString "fr"]> ∅) sample_world)
      = Ok tt
      /\ store (snd (saveUserSettings (serving 10) (Some alice) (<["language" := VString "fr"]> ∅)
                       sample_world)) !! ("users", "alice") = Some written
      /\ written !! "updatedAt" = Some (VTimestamp 10)
      /\ written !! "createdAt" = Some (VTimestamp 1)
      /\ written !! "language" = Some (VString "fr").
Proof.
  split; [intros r; reflexivity|].
  destruct (saveUserSettings_merges (serving 10) alice (<["language" := VString "fr"]> ∅)
              sample_world (fun r => eq_refl))
    as (written & H1 & H2 & _ & H4 & H5).
  exists written. split; [exact H1|]. split; [exact H2|]. split; [exact H4|].
  change (store sample_world !! (USERS_COLLECTION, uid alice))
    with (Some (<["language" := VString "en"]>
                  (<["createdAt" := VTimestamp 1]> (<["updatedAt" := VTimestamp 1]> (∅ : Doc)))))
    in H5.
  split.
  - rewrite (H5 "createdAt") by discriminate. reflexivity.
  - rewrite (H5 "language") by discriminate. reflexivity.
Defined.

(** C8 as stated fails: the document exists, [settings] carries a
    [createdAt], and the stored value is not preserved. *)
Lemma createdAt_overwritten_counterexample :
  let settings : Doc := <["createdAt" := VTimestamp 5]> ∅ in
  let w' := snd (saveUserSettings (serving 10) (Some alice) settings sample_world) in
  match store sample_world !! ("users", "alice") with
  | Some stored => stored !! "createdAt"
  | None => None
  end = Some (VTimestamp 1)
  /\ match store w' !! ("users", "alice") with
     | Some written => written !! "createdAt"
     | None => None
     end = Some (VTimestamp 5).
Proof. vm_compute. split; reflexivity. Qed.

End FirestoreFacts.

Module TtsFacts.
Import JS Tts.

(** ** The order of floating-point numbers *)

Lemma SFcompare_antisym (a b : spec_float) :
  SFcompare b a = option_map CompOpp (SFcompare a b).
Proof.
  destruct a as [sa|sa| |sa ma ea], b as [sb|sb| |sb mb eb];
    cbn [SFcompare option_map]; try reflexivity;
    try (destruct sa; reflexivity); try (destruct sb; reflexivity);
    try (destruct sa, sb; reflexivity).
  f_equal. rewrite (Z.compare_antisym ea eb).
  destruct sa, sb; cbn [CompOpp]; try reflexivity;
    destruct (ea ?= eb)%Z; cbn [CompOpp]; try reflexivity.
  - rewrite (ZC4 mb ma). rewrite CompOpp_involutive. reflexivity.
  - apply ZC4.
Qed.

Lemma SFcompare_refl (a : spec_float) :
  SFcompare a a = match a with S754_nan => None | _ => Some Eq end.
Proof.
  destruct a as [s|s| |s m e]; cbn [SFcompare]; try reflexivity;
    try (destruct s; reflexivity).
  rewrite Z.compare_refl, Pos.compare_cont_refl. destruct s; reflexivity.
Qed.

(** The handler rejects a speed exactly when it is no number of the closed
    interval from 0.25 to 4.0 ([NaN] is in no interval). *)
Lemma speed_rejected_spec (p : float) : speed_rejected p = negb (in_speed_range p).
Proof.
  unfold speed_rejected, in_speed_range, PrimFloat.is_nan.
  rewrite FloatAxioms.eqb_spec, !FloatAxioms.ltb_spec, !FloatAxioms.leb_spec.
  unfold SFeqb, SFltb, SFleb.
  rewrite (SFcompare_antisym (Prim2SF p) (Prim2SF 0.25)).
  rewrite (SFcompare_antisym (Prim2SF 4) (Prim2SF p)).
  rewrite SFcompare_refl.
  assert (H1 : Prim2SF 0.25 = S754_finite false 4503599627370496 (-54))
    by (vm_compute; reflexivity).
  assert (H4 : Prim2SF 4 = S754_finite false 4503599627370496 (-50))
    by (vm_compute; reflexivity).
  rewrite H1, H4. clear H1 H4.
  generalize 4503599627370496%positive. intros c.
  generalize (-54)%Z (-50)%Z. intros e1 e4.
  destruct (Prim2SF p) as [s|s| |s m e];
    cbn [SFcompare option_map CompOpp negb orb andb]; try reflexivity.
  - destruct s; reflexivity.
  - destruct s; cbn [SFcompare option_map CompOpp negb orb andb]; [reflexivity|].
    destruct (e ?= e1)%Z; cbn [option_map CompOpp negb orb andb];
      try destruct (PosDef.Pos.compare_cont Eq m c); cbn [option_map CompOpp negb orb andb];
      destruct (e4 ?= e)%Z; cbn [option_map CompOpp negb orb andb];
      try destruct (PosDef.Pos.compare_cont Eq c m); cbn [option_map CompOpp negb orb andb];
      reflexivity.
Qed.

Section Facts.

Variable StringToNumber : jsstring -> float.
Variable Number_toString : float -> jsstring.
Variable wording : Wording.
Variable speech : SpeechRequest -> ApiError + list N.

Local Abbreviation POST := (POST StringToNumber Number_toString wording speech).
Local Abbreviation try_POST := (try_POST StringToNumber Number_toString wording speech).
Local Abbreviation input_rejected := (input_rejected StringToNumber Number_toString).
Local Abbreviation speed_unconvertible := (speed_unconvertible StringToNumber Number_toString).
Local Abbreviation speed_of := (speed_of StringToNumber Number_toString).

Lemma caught_is_no_validation_response (e : ApiError) (response : Response) :
  caught e = Some response -> ~ In response validation_responses.
Proof.
  unfold caught, NextResponse_json. cbv zeta.
  destruct (_ && _); [|discriminate]. intros [= <-].
  unfold validation_responses, json_response. simpl.
  intros [H|[H|[H|[]]]]; discriminate H.
Qed.

Lemma audio_is_no_validation_response (code : Z) (audioData : list N) :
  ~ In {| response_status := code; body := Audio audioData |} validation_responses.
Proof.
  unfold validation_responses, json_response. simpl.
  intros [H|[H|[H|[]]]]; discriminate H.
Qed.

(** The [catch] clause answers when the status, read as an [unsigned
    short], is one a response can carry, and throws otherwise. *)
Lemma caught_cases (e : ApiError) :
  let code := status_of e mod 65536 in
  (200 <= code <= 599 -> caught e = Some (failure code (details_of e)))
  /\ (code < 200 \/ 599 < code -> caught e = None).
Proof.
  unfold caught, NextResponse_json, failure. cbv zeta.
  destruct (200 <=? status_of e mod 65536) eqn:E1;
    destruct (status_of e mod 65536 <=? 599) eqn:E2; cbn [andb]; split; intros H;
    try reflexivity; exfalso; lia.
Qed.

Lemma caught_TypeError (m : jsstring) :
  caught (TypeError m) = Some (failure 500 (or_unknown m)).
Proof. reflexivity. Qed.

(** The handler on a body that is an object (or any value but [null]),
    the key being configured. *)
Lemma POST_on_body (request : Request) (parsed : JSValue) :
  apiKeyConfigured request = true -> json request = inr parsed -> nullish parsed = false ->
  POST request
  = if negb (truthy (text_of parsed))
    then (Some (json_response (js "Text is required") 400), [])
    else if negb (includes validVoices (voice_of parsed))
    then (Some (json_response (js "Invalid voice option") 400), [])
    else
      match speed_of parsed with
      | None => (Some (failure 500 (or_unknown (not_primitive wording))), [])
      | Some parsedSpeed =>
          if negb (in_speed_range parsedSpeed)
          then (Some (json_response (js "Speed must be between 0.25 and 4.0") 400), [])
          else
            let call := {| model := js "tts-1"; voice := voice_of parsed;
                           input := text_of parsed; speed := parsedSpeed |} in
            (match speech call with
             | inl e => caught e
             | inr audioData => Some {| response_status := 200; body := Audio audioData |}
             end, [call])
      end.
Proof.
  intros Hk Hj Hn. unfold Tts.POST, Tts.try_POST. rewrite Hk, Hj, Hn. cbn [negb].
  fold (text_of parsed) (voice_of parsed).
  destruct (negb (truthy (text_of parsed))); [reflexivity|].
  destruct (negb (includes validVoices (voice_of parsed))); [reflexivity|].
  fold (speed_of parsed). destruct (speed_of parsed) as [parsedSpeed|]; [|reflexivity].
  rewrite speed_rejected_spec.
  destruct (negb (in_speed_range parsedSpeed)); [reflexivity|].
  cbv zeta. destruct (speech _); reflexivity.
Qed.


End Facts.

(** ** The theorem at concrete inputs *)



(** A speed that is the object [{ toString: 1 }] is answered 500, not 400,
    and an OpenAI error of status 1000 is not answered at all. *)
Example unconvertible_speed_is_a_failure :
  POST sample_StringToNumber sample_Number_toString sample_wording speaking
    (hello [(js "speed", JObj [(js "toString", JNum 1%float)])])
  = (Some (failure 500 (js "Cannot convert object to primitive value")), [])
  /\ fst (POST sample_StringToNumber sample_Number_toString sample_wording
            (fun _ => inl {| message := Some (js "odd"); status := Some 1000 |}) (hello []))
     = None.
Proof. vm_compute. split; reflexivity. Qed.

End TtsFacts.

(* ===================================================================== *)
(** * Further properties of [useChat] *)
(* ===================================================================== *)

Module ChatProps.
Import JS JSFacts Chat ChatFacts.

Lemma touches_only_id (pid : jsstring) : touches_only pid (fun m => m).
Proof. intros m. repeat split. Qed.

Lemma touches_only_update (pid : jsstring) (f : Message -> Message) :
  (forall m, Message.id (f m) = Message.id m /\ Message.role (f m) = Message.role m) ->
  touches_only pid (fun m => if jseqb (Message.id m) pid then f m else m).
Proof.
  intros Hf m. destruct (jseqb (Message.id m) pid) eqn:E.
  - destruct (Hf m) as [H1 H2]. repeat split; try assumption. discriminate.
  - repeat split.
Qed.

Lemma touches_only_compose (pid : jsstring) (g1 g2 : Message -> Message) :
  touches_only pid g1 -> touches_only pid g2 -> touches_only pid (fun m => g2 (g1 m)).
Proof.
  intros H1 H2 m. destruct (H1 m) as (A1 & A2 & A3), (H2 (g1 m)) as (B1 & B2 & B3).
  repeat split; try congruence.
  intros E. rewrite B3 by (rewrite A1; exact E). apply A3, E.
Qed.

Lemma update_by_id_map (pid : jsstring) (f : Message -> Message) (l : list Message) :
  update_by_id pid f l = map (fun m => if jseqb (Message.id m) pid then f m else m) l.
Proof. reflexivity. Qed.

Section Facts.

Variable JSON_parse : jsstring -> option JSValue.
Variable Number_toString : float -> jsstring.

Local Abbreviation addMessage := (addMessage JSON_parse Number_toString).
Local Abbreviation handle := (handle JSON_parse Number_toString).

(** Whatever becomes of the request, the handler sends it once, changes no
    message but those of the placeholder's id, and leaves their id and role. *)
Lemma handle_shape (opts : ChatOptions) (env : Env) (api : list (MessageRole * JSValue))
    (pid : jsstring) (msgs : list Message) :
  exists g rest,
    touches_only pid g
    /\ fst (fst (handle opts env api pid msgs)) = map g msgs
    /\ snd (fst (handle opts env api pid msgs))
       = Fetch (apiEndpoint opts) (authorization_header opts) api (streamingEnabled opts) :: rest
    /\ requests rest = [] /\ reported rest = [].
Proof.
  assert (Hc : forall c, touches_only pid
                 (fun m => if jseqb (Message.id m) pid then with_content m c else m)).
  { intros c. apply touches_only_update. intros m. split; reflexivity. }
  unfold Chat.handle. destruct (streamingEnabled opts).
  - unfold handleStreamingRequest.
    destruct (outcome env) as [e|r].
    { exists (fun m => m), []. rewrite map_id. repeat split. }
    destruct (ok r); cbn [negb].
    2: { exists (fun m => m), []. rewrite map_id. repeat split. }
    destruct (body r) as [[chunks ending]|].
    2: { exists (fun m => m), []. rewrite map_id. repeat split. }
    rewrite read_loop_spec, app_nil_l.
    destruct (Chat.updated JSON_parse Number_toString chunks).
    2: destruct ending as [|e].
    2: { exists (fun m => m). eexists. rewrite map_id.
         split; [apply touches_only_id|]. split; [reflexivity|]. split; [reflexivity|].
         destruct (onMessageResponse opts); split; reflexivity. }
    2: { exists (fun m => m), []. rewrite map_id.
         destruct (instanceofError e && negb (is_AbortError e)); repeat split. }
    destruct ending as [|e].
    + eexists. eexists. split; [apply Hc|]. split; [reflexivity|]. split; [reflexivity|].
      destruct (onMessageResponse opts); split; reflexivity.
    + eexists. exists []. split; [apply Hc|].
      destruct (instanceofError e && negb (is_AbortError e)); repeat split.
  - unfold handleStandardRequest.
    destruct (outcome env) as [e|r].
    { exists (fun m => m), []. rewrite map_id. repeat split. }
    destruct (ok r); cbn [negb].
    2: { exists (fun m => m), []. rewrite map_id. repeat split. }
    destruct (json r) as [e|data].
    { exists (fun m => m), []. rewrite map_id. repeat split. }
    destruct (nullish data).
    { exists (fun m => m), []. rewrite map_id. repeat split. }
    eexists. eexists. split; [apply Hc|]. split; [reflexivity|]. split; [reflexivity|].
    destruct (onMessageResponse opts); split; reflexivity.
Qed.

Lemma addMessage_user (opts : ChatOptions) (env : Env) (st : Hook) (content : jsstring) :
  trim content <> [] ->
  let h := handle opts env (sent_messages env st content) (id_placeholder env)
             (pending_messages opts env st content) in
  addMessage opts env st content user
  = match snd h with
    | None =>
        ({| messages := fst (fst h); isLoading := false; error := None;
            currentSystemMessage := currentSystemMessage st; abortControllerRef := true |},
         snd (fst h))
    | Some e =>
        ({| messages :=
              update_by_id (id_placeholder env) (fun m => with_error m (errorMessage_of e))
                (fst (fst h));
            isLoading := false; error := Some (errorMessage_of e);
            currentSystemMessage := currentSystemMessage st; abortControllerRef := true |},
         snd (fst h) ++ (if onError opts then [OnError (errorMessage_of e)] else []))
    end.
Proof.
  intros Hc h. unfold Chat.addMessage. rewrite (content_is_sent _ Hc).
  assert (Hapi :
    map (fun m => (Message.role m, Message.content m))
      (if jseqb (currentSystemMessage st) []
       then filter (fun m => sendable m = true)
              (messages st ++ [createMessage (id_message env) (now_message env) (JStr content) user])
       else createMessage (id_system env) (now_system env) (JStr (currentSystemMessage st)) system
            :: filter (fun m => sendable m = true)
                 (messages st ++ [createMessage (id_message env) (now_message env) (JStr content) user]))
    = sent_messages env st content).
  { unfold sent_messages, systemMessages. rewrite filter_app.
    destruct (jseqb (currentSystemMessage st) []); reflexivity. }
  rewrite Hapi. subst h. unfold Chat.handle, pending_messages.
  destruct (streamingEnabled opts).
  - destruct (Chat.handleStreamingRequest JSON_parse Number_toString opts env _ _ _)
      as [[a b] [e|]]; reflexivity.
  - destruct (handleStandardRequest opts env _ _ _) as [[a b] [e|]]; reflexivity.
Qed.

Lemma requests_app (a b : list Effect) : requests (a ++ b) = requests a ++ requests b.
Proof. unfold requests. apply List.filter_app. Qed.

Lemma reported_app (a b : list Effect) : reported (a ++ b) = reported a ++ reported b.
Proof. unfold reported. apply flat_map_app. Qed.


(** After a user message, the list is the one handed to the handler, with
    changes to the messages of the placeholder's id only. *)
Lemma addMessage_user_messages (opts : ChatOptions) (env : Env) (st : Hook) (content : jsstring) :
  trim content <> [] ->
  exists g,
    touches_only (id_placeholder env) g
    /\ messages (fst (addMessage opts env st content user))
       = map g (pending_messages opts env st content).
Proof.
  intros Hc. rewrite (addMessage_user opts env st content Hc). cbv zeta.
  destruct (handle_shape opts env (sent_messages env st content)
              (id_placeholder env) (pending_messages opts env st content))
    as (g & rest & Hg & Hm & _).
  destruct (snd (handle opts env _ _ _)) as [e|]; cbn [fst messages]; rewrite Hm.
  - eexists. split; [|rewrite update_by_id_map, map_map; reflexivity].
    apply (touches_only_compose _ g
             (fun m => if jseqb (Message.id m) (id_placeholder env)
                       then with_error m (errorMessage_of e) else m)); [exact Hg|].
    apply touches_only_update. intros m. split; reflexivity.
  - exists g. split; [exact Hg | reflexivity].
Qed.

Lemma truncate_length (opts : ChatOptions) (prev : list Message) :
  (length (truncate opts prev) + (if drops opts prev then 1 else 0) = length prev)%nat.
Proof.
  unfold truncate, drops.
  destruct (Z.of_nat (length prev) >=? maxMessagesToStore opts); cbn [andb]; [|lia].
  destruct (existsb (fun m => role_eqb (Message.role m) system) prev).
  - destruct prev as [|x [|y r]]; cbn; lia.
  - destruct prev as [|x r]; cbn; lia.
Qed.

(** X2. Each call of [addMessage] drops at most one old message, and only from
    a list that has reached [maxMessagesToStore]; a user message appends
    two (the message and the assistant placeholder). So the list never
    shrinks, and every user message makes it longer: [maxMessagesToStore]
    does not bound it. *)
Theorem message_list_grows (opts : ChatOptions) (env : Env) (st : Hook)
    (content : jsstring) (role : MessageRole) :
  trim content <> [] ->
  (length (messages (fst (addMessage opts env st content role)))
   + (if drops opts (messages st) then 1 else 0)
   = length (messages st) + (if role_eqb role user then 2 else 1))%nat
  /\ (length (messages st) <= length (messages (fst (addMessage opts env st content role))))%nat
  /\ (role = user ->
      (length (messages st) < length (messages (fst (addMessage opts env st content role))))%nat).
Proof.
  intros Hc.
  assert (H : (length (messages (fst (addMessage opts env st content role)))
               + (if drops opts (messages st) then 1 else 0)
               = length (messages st) + (if role_eqb role user then 2 else 1))%nat).
  { pose proof (truncate_length opts (messages st)) as Ht.
    destruct role.
    - destruct (addMessage_user_messages opts env st content Hc) as (g & _ & ->).
      unfold pending_messages. rewrite length_map, !length_app. cbn. lia.
    - unfold Chat.addMessage. rewrite (content_is_sent _ Hc). cbn. rewrite length_app. cbn. lia.
    - unfold Chat.addMessage. rewrite (content_is_sent _ Hc). cbn. rewrite length_app. cbn. lia. }
  split; [exact H|].
  split; [destruct (drops opts (messages st)), role; cbn in H; lia|].
  intros ->. destruct (drops opts (messages st)); cbn in H; lia.
Qed.

(** X3. A system message at the head of the list stays there, unchanged,
    through every [addMessage] (its id being none the call generates for
    the placeholder): what is dropped at capacity is the second message,
    and nothing below capacity. After a call that is not blank the list is
    the head, the messages that followed it (but the first of them, at
    capacity), the new message and, for a user message, the placeholder,
    with changes to messages of the placeholder's id only. *)
Theorem head_system_message_survives (opts : ChatOptions) (env : Env) (st : Hook)
    (content : jsstring) (role : MessageRole) (m0 : Message) (rest : list Message) :
  messages st = m0 :: rest ->
  Message.role m0 = system ->
  Message.id m0 <> id_placeholder env ->
  (exists rest', messages (fst (addMessage opts env st content role)) = m0 :: rest')
  /\ (trim content <> [] ->
      let kept :=
        if Z.of_nat (length (messages st)) >=? maxMessagesToStore opts
        then tl rest else rest in
      truncate opts (messages st) = m0 :: kept
      /\ exists g,
           touches_only (id_placeholder env) g
           /\ messages (fst (addMessage opts env st content role))
              = m0 :: map g
                        (kept
                         ++ createMessage (id_message env) (now_message env) (JStr content) role
                            :: (if role_eqb role user
                                then [Message.mk (id_placeholder env) (JStr []) assistant
                                        (now_placeholder env) (Some true) None]
                                else []))).
Proof.
  intros Hm Hr Hid.
  assert (Ht : truncate opts (messages st)
               = m0 :: (if Z.of_nat (length (messages st)) >=? maxMessagesToStore opts
                        then tl rest else rest)).
  { unfold truncate. rewrite Hm.
    destruct (_ >=? _); [|reflexivity].
    cbn [existsb]. rewrite Hr. cbn [role_eqb orb].
    destruct rest; reflexivity. }
  assert (Hfull : trim content <> [] ->
            exists g,
              touches_only (id_placeholder env) g
              /\ messages (fst (addMessage opts env st content role))
                 = m0 :: map g
                           ((if Z.of_nat (length (messages st)) >=? maxMessagesToStore opts
                             then tl rest else rest)
                            ++ createMessage (id_message env) (now_message env) (JStr content) role
                               :: (if role_eqb role user
                                   then [Message.mk (id_placeholder env) (JStr []) assistant
                                           (now_placeholder env) (Some true) None]
                                   else []))).
  { intros Hc. destruct role.
    - destruct (addMessage_user_messages opts env st content Hc) as (g & Hg & ->).
      exists g. split; [exact Hg|].
      unfold pending_messages. rewrite Ht. rewrite <- app_assoc. cbn [app map role_eqb].
      destruct (Hg m0) as (_ & _ & Hsame). rewrite Hsame by (apply jseqb_neq; exact Hid).
      reflexivity.
    - exists (fun m => m). split; [apply touches_only_id|].
      unfold Chat.addMessage. rewrite (content_is_sent _ Hc). cbn [fst messages role_eqb].
      rewrite Ht, map_id. reflexivity.
    - exists (fun m => m). split; [apply touches_only_id|].
      unfold Chat.addMessage. rewrite (content_is_sent _ Hc). cbn [fst messages role_eqb].
      rewrite Ht, map_id. reflexivity. }
  split.
  - destruct (jseqb (trim content) []) eqn:Hc.
    { unfold Chat.addMessage. rewrite Hc. exists rest. exact Hm. }
    apply jseqb_neq in Hc. destruct (Hfull Hc) as (g & _ & ->). eexists; reflexivity.
  - intros Hc. cbv zeta. split; [exact Ht | exact (Hfull Hc)].
Qed.

Ltac prove_failed :=
  unfold failed_with; cbn [fst snd error isLoading messages];
  rewrite update_by_id_app, update_by_id_own by reflexivity;
  split; [reflexivity|]; split; [reflexivity|]; split;
  [ eexists; reflexivity
  | match goal with |- context [onError ?o] => destruct (onError o) end; split; reflexivity ].

Lemma addMessage_not_ok (opts : ChatOptions) (env : Env) (st : Hook)
    (content : jsstring) (r : Response) :
  trim content <> [] ->
  outcome env = FetchResolves r ->
  ok r = false ->
  failed_with opts env (js "Server error: " ++ Z_toString (status r))
    (addMessage opts env st content user).
Proof.
  intros Hc Ho Hok. unfold Chat.addMessage. rewrite (content_is_sent _ Hc).
  unfold handleStreamingRequest, handleStandardRequest. rewrite Ho, Hok. cbn [negb].
  destruct (streamingEnabled opts); prove_failed.
Qed.

Lemma addMessage_standard (opts : ChatOptions) (env : Env) (st : Hook)
    (content : jsstring) (r : Response) (data : JSValue) :
  trim content <> [] ->
  streamingEnabled opts = false ->
  outcome env = FetchResolves r -> ok r = true -> json r = inr data ->
  nullish data = false ->
  (exists earlier,
      messages (fst (addMessage opts env st content user))
      = earlier ++ [Message.mk (id_placeholder env) (extract_standard data) assistant
                      (now_placeholder env) (Some false) None])
  /\ error (fst (addMessage opts env st content user)) = None
  /\ isLoading (fst (addMessage opts env st content user)) = false
  /\ responses (snd (addMessage opts env st content user))
     = (if onMessageResponse opts
        then [Message.mk (id_placeholder env) (extract_standard data) assistant
                (now_final env) None None]
        else []).
Proof.
  intros Hc Hs Ho Hok Hj Hn.
  unfold Chat.addMessage. rewrite (content_is_sent _ Hc), Hs.
  unfold handleStandardRequest. rewrite Ho, Hok, Hj, Hn. cbn [negb].
  cbn [fst snd error isLoading messages].
  rewrite update_by_id_app, update_by_id_own by reflexivity.
  split; [eexists; reflexivity|]. split; [reflexivity|]. split; [reflexivity|].
  destruct (onMessageResponse opts); reflexivity.
Qed.

(** X4. A response that is not [ok] is reported as [Server error: ] followed by
    the status, in either mode, and a streamed response without a body as
    [Response body is null]: the hook stops loading with that error, the
    placeholder carries it, [onError] is called once and
    [onMessageResponse] not at all. *)
Theorem failed_response_is_reported (opts : ChatOptions) (env : Env) (st : Hook)
    (content : jsstring) (r : Response) :
  trim content <> [] ->
  outcome env = FetchResolves r ->
  (ok r = false ->
   failed_with opts env (js "Server error: " ++ Z_toString (status r))
     (addMessage opts env st content user))
  /\ (ok r = true -> streamingEnabled opts = true -> body r = None ->
      failed_with opts env (js "Response body is null")
        (addMessage opts env st content user)).
Proof.
  intros Hc Ho. split.
  - intros Hok. apply addMessage_not_ok; assumption.
  - intros Hok Hs Hb. unfold Chat.addMessage. rewrite (content_is_sent _ Hc), Hs.
    unfold handleStreamingRequest. rewrite Ho, Hok, Hb. cbn [negb].
    prove_failed.
Qed.

(** X5. A [fetch] that rejects is reported, in either mode, with the
    cancellation message when the value thrown is named [AbortError], else
    with its [message] when it is an [Error], else with
    [Failed to communicate with the server]. *)
Theorem rejected_fetch_is_reported (opts : ChatOptions) (env : Env) (st : Hook)
    (content : jsstring) (e : Thrown) :
  trim content <> [] ->
  outcome env = FetchRejects e ->
  failed_with opts env
    (if is_AbortError e then js "Request was cancelled"
     else if instanceofError e then message e
     else js "Failed to communicate with the server")
    (addMessage opts env st content user).
Proof.
  intros Hc Ho. unfold Chat.addMessage. rewrite (content_is_sent _ Hc).
  unfold handleStreamingRequest, handleStandardRequest. rewrite Ho.
  replace (if is_AbortError e then js "Request was cancelled"
           else if instanceofError e then message e
           else js "Failed to communicate with the server")
    with (errorMessage_of e)
    by (unfold errorMessage_of; destruct (is_AbortError e), (instanceofError e); reflexivity).
  destruct (streamingEnabled opts); prove_failed.
Qed.

(** X6. A standard request that succeeds stores [data.content], else
    [data.choices[0].message.content], else the empty string (never
    [undefined] or [null]) in the placeholder, which stops loading, and
    hands [onMessageResponse] a message with the same content; a response
    whose JSON is [null] fails, and is reported as every failure is. *)
Theorem standard_response_is_stored (opts : ChatOptions) (env : Env) (st : Hook)
    (content : jsstring) (r : Response) (data : JSValue) :
  trim content <> [] ->
  streamingEnabled opts = false ->
  outcome env = FetchResolves r -> ok r = true -> json r = inr data ->
  let answer := extract_standard data in
  (nullish data = false ->
   (exists earlier,
       messages (fst (addMessage opts env st content user))
       = earlier ++ [Message.mk (id_placeholder env) answer assistant (now_placeholder env)
                       (Some false) None])
   /\ error (fst (addMessage opts env st content user)) = None
   /\ isLoading (fst (addMessage opts env st content user)) = false
   /\ responses (snd (addMessage opts env st content user))
      = (if onMessageResponse opts
         then [Message.mk (id_placeholder env) answer assistant (now_final env) None None]
         else [])
   /\ (truthy answer = true \/ answer = JStr []))
  /\ (data = JNull ->
      (exists errorMessage, failed_with opts env errorMessage (addMessage opts env st content user))).
Proof.
  intros Hc Hs Ho Hok Hj answer. split; [intros Hn | intros ->; pose proof (eq_refl : nullish JNull = true) as Hn].
  - destruct (addMessage_standard opts env st content r data Hc Hs Ho Hok Hj Hn)
      as (H1 & H2 & H3 & H4).
    split; [exact H1|]. split; [exact H2|]. split; [exact H3|]. split; [exact H4|].
    subst answer. unfold extract_standard, or_else.
    destruct (truthy (get data (js "content"))) eqn:E1; [left; exact E1|].
    destruct (truthy (opt_get _ _)) eqn:E2; [left; exact E2 | right; reflexivity].
  - eexists. unfold Chat.addMessage. rewrite (content_is_sent _ Hc), Hs.
    unfold handleStandardRequest. rewrite Ho, Hok, Hj, Hn. cbn [negb].
    prove_failed.
Qed.

End Facts.

Lemma update_by_id_ids (target : jsstring) (f : Message -> Message) (l : list Message) :
  (forall m, Message.id (f m) = Message.id m) ->
  map Message.id (update_by_id target f l) = map Message.id l.
Proof.
  intros Hf. unfold update_by_id. rewrite map_map. apply map_ext. intros m.
  destruct (jseqb (Message.id m) target); [apply Hf | reflexivity].
Qed.

Lemma filter_update_by_id (target : jsstring) (f : Message -> Message) (l : list Message) :
  (forall m, Message.id (f m) = Message.id m) ->
  List.filter (fun m => negb (jseqb (Message.id m) target)) (update_by_id target f l)
  = List.filter (fun m => negb (jseqb (Message.id m) target)) l.
Proof.
  intros Hf. unfold update_by_id. induction l as [|m l IH]; [reflexivity|].
  cbn [map List.filter]. rewrite IH.
  destruct (jseqb (Message.id m) target) eqn:E.
  - rewrite Hf, E. reflexivity.
  - rewrite E. reflexivity.
Qed.

(** X7. [updateMessage] changes the messages of the given id, in place, and
    never an id: the list keeps its ids in their order, and the messages of
    other ids are as before. [deleteMessage] removes exactly the messages
    of the given id; so an update followed by the delete of the same id is
    that delete, and an update of an id no message has is no change. *)
Theorem update_and_delete_by_id (target : jsstring) (updates : Updates.t) (st : Hook) :
  map Message.id (messages (updateMessage target updates st)) = map Message.id (messages st)
  /\ (forall m, In m (messages st) -> Message.id m <> target ->
       In m (messages (updateMessage target updates st)))
  /\ (forall m, In m (messages (deleteMessage target st))
              <-> In m (messages st) /\ Message.id m <> target)
  /\ deleteMessage target (updateMessage target updates st) = deleteMessage target st
  /\ ((forall m, In m (messages st) -> Message.id m <> target) ->
      updateMessage target updates st = st).
Proof.
  split; [|split; [|split; [|split]]].
  - apply update_by_id_ids. intros m. reflexivity.
  - intros m Hin Hne. cbn. unfold update_by_id. apply in_map_iff. exists m.
    split; [|exact Hin]. apply jseqb_neq in Hne. rewrite Hne. reflexivity.
  - intros m. cbn. rewrite List.filter_In, negb_true_iff, jseqb_neq. reflexivity.
  - unfold deleteMessage, updateMessage, with_messages. cbn. f_equal.
    apply filter_update_by_id. intros m. reflexivity.
  - intros H. destruct st as [msgs l e s a]. unfold updateMessage, with_messages. cbn in *.
    f_equal. unfold update_by_id. rewrite <- (map_id msgs) at 2. apply map_ext_in.
    intros m Hin. apply H in Hin. apply jseqb_neq in Hin. rewrite Hin. reflexivity.
Qed.


Lemma message_list_grows_witness :
  trim (js "Hello") <> []
  /\ (length (messages talking)
      < length (messages (fst (addMessage sample_JSON_parse sample_Number_toString small_options
                                 (sample_env (refused 503)) talking (js "Hello") user))))%nat.
Proof.
  assert (H : trim (js "Hello") <> []) by (vm_compute; discriminate).
  split; [exact H|].
  exact (proj2 (proj2 (message_list_grows sample_JSON_parse sample_Number_toString
                         small_options (sample_env (refused 503)) talking (js "Hello") user H))
           eq_refl).
Defined.

(** At capacity 3, the conversation [s0], [u0], [a0] loses [u0]. *)
Lemma head_system_message_survives_witness :
  Message.id (Message.mk (js "s0") (JStr (js "Be brief")) system 10 None None) <> js "m2"
  /\ trim (js "Hello") <> []
  /\ (exists rest',
        messages (fst (addMessage sample_JSON_parse sample_Number_toString small_options
                         (sample_env (refused 503)) talking (js "Hello") user))
        = Message.mk (js "s0") (JStr (js "Be brief")) system 10 None None :: rest')
  /\ truncate small_options (messages talking)
     = [Message.mk (js "s0") (JStr (js "Be brief")) system 10 None None;
        Message.mk (js "a0") (JStr (js "Hello!")) assistant 30 (Some false) None].
Proof.
  assert (H : Message.id (Message.mk (js "s0") (JStr (js "Be brief")) system 10 None None)
              <> js "m2") by (vm_compute; discriminate).
  assert (Hc : trim (js "Hello") <> []) by (vm_compute; discriminate).
  split; [exact H|]. split; [exact Hc|].
  pose proof (head_system_message_survives sample_JSON_parse sample_Number_toString
                small_options (sample_env (refused 503)) talking (js "Hello") user _ _
                eq_refl eq_refl H) as [H1 H2].
  split; [exact H1 | exact (proj1 (H2 Hc))].
Defined.

Lemma failed_response_is_reported_witness :
  trim (js "Hello") <> []
  /\ failed_with small_options (sample_env (refused 503))
       (js "Server error: " ++ Z_toString 503)
       (addMessage sample_JSON_parse sample_Number_toString small_options
          (sample_env (refused 503)) talking (js "Hello") user).
Proof.
  assert (H : trim (js "Hello") <> []) by (vm_compute; discriminate).
  split; [exact H|].
  exact (proj1 (failed_response_is_reported sample_JSON_parse sample_Number_toString
                  small_options (sample_env (refused 503)) talking (js "Hello")
                  {| ok := false; status := 503; body := None; json := inr JNull |}
                  H eq_refl) eq_refl).
Defined.

Lemma rejected_fetch_is_reported_witness :
  trim (js "Hello") <> []
  /\ failed_with small_options (sample_env (FetchRejects (new_Error (js "Failed to fetch"))))
       (js "Failed to fetch")
       (addMessage sample_JSON_parse sample_Number_toString small_options
          (sample_env (FetchRejects (new_Error (js "Failed to fetch")))) talking
          (js "Hello") user).
Proof.
  assert (H : trim (js "Hello") <> []) by (vm_compute; discriminate).
  split; [exact H|].
  exact (rejected_fetch_is_reported sample_JSON_parse sample_Number_toString
           small_options (sample_env (FetchRejects (new_Error (js "Failed to fetch"))))
           talking (js "Hello") (new_Error (js "Failed to fetch")) H eq_refl).
Defined.

Lemma standard_response_is_stored_witness :
  trim (js "Hello") <> []
  /\ responses (snd (addMessage sample_JSON_parse sample_Number_toString small_options
                       (sample_env (answered 200 (JObj [(js "content", JStr (js "Hi there"))])))
                       talking (js "Hello") user))
     = [Message.mk (js "m2") (JStr (js "Hi there")) assistant 2000 None None].
Proof.
  assert (H : trim (js "Hello") <> []) by (vm_compute; discriminate).
  split; [exact H|].
  exact (proj1 (proj2 (proj2 (proj2
           (proj1 (standard_response_is_stored sample_JSON_parse sample_Number_toString
                     small_options
                     (sample_env (answered 200 (JObj [(js "content", JStr (js "Hi there"))])))
                     talking (js "Hello")
                     {| ok := true; status := 200; body := None;
                        json := inr (JObj [(js "content", JStr (js "Hi there"))]) |}
                     (JObj [(js "content", JStr (js "Hi there"))])
                     H eq_refl eq_refl eq_refl eq_refl) eq_refl))))).
Defined.

End ChatProps.


(* ===================================================================== *)
(** * Properties of the [/api/chat] handler *)
(* ===================================================================== *)

Module RouteProps.
Import JS JSFacts Chat ChatFacts ChatProps.

Lemma format_request_body (api : list (MessageRole * JSValue)) (stream : bool) :
  ChatRoute.format
    (ChatRoute.elements (get (ChatRoute.request_body api stream) (js "messages")))
  = inr (map (fun m => (JStr (ChatRoute.role_name (fst m)), ChatRoute.received (snd m))) api).
Proof.
  unfold ChatRoute.request_body.
  cbn [ChatRoute.received flat_map snd fst app get lookup_field].
  replace (jseqb (js "messages") (js "messages")) with true by reflexivity.
  cbn [ChatRoute.elements]. rewrite map_map.
  induction api as [|[r c] api IH]; [reflexivity|].
  cbn [map ChatRoute.format fst snd]. rewrite IH.
  destruct c; reflexivity.
Qed.

Section Facts.

Variable JSON_parse : jsstring -> option JSValue.
Variable Number_toString : float -> jsstring.
Variable create : ChatRoute.CompletionRequest -> Thrown + JSValue.

Local Abbreviation addMessage := (addMessage JSON_parse Number_toString).
Local Abbreviation POST := (ChatRoute.POST create).
Local Abbreviation calls := (ChatRoute.calls create).

(** The ways a call of the handler ends. *)
Lemma POST_cases (body : Thrown + JSValue) :
  let invalid := exists b, body = inr b /\ nullish b = false
                           /\ ChatRoute.Array_isArray (get b (js "messages")) = false in
  (invalid
   /\ POST body = ChatRoute.error_response (js "Valid messages array is required") 400
   /\ calls body = [])
  \/ (~ invalid
      /\ POST body = ChatRoute.error_response (js "Failed to generate response") 500
      /\ calls body = [])
  \/ (~ invalid
      /\ exists c b,
          calls body = [c] /\ ChatRoute.model c = js "gpt-4o" /\ body = inr b
          /\ ChatRoute.format (ChatRoute.elements (get b (js "messages")))
             = inr (ChatRoute.request_messages c)
          /\ (POST body = ChatRoute.error_response (js "Failed to generate response") 500
              \/ ChatRoute.status (POST body) = 200 /\ exists completion, create c = inr completion)).
Proof.
  intros invalid. subst invalid.
  unfold ChatRoute.POST, ChatRoute.calls, ChatRoute.try_POST.
  destruct body as [e|b].
  { right; left. cbn. split; [|split; reflexivity]. intros (b & [=] & _). }
  destruct (nullish b) eqn:Hb.
  { right; left. cbn. split; [|split; reflexivity]. intros (b' & [= <-] & Hn & _). congruence. }
  destruct (ChatRoute.Array_isArray (get b (js "messages"))) eqn:Ha.
  2: { rewrite orb_true_r. left. cbn. split; [|split; reflexivity]. exists b. auto. }
  assert (Ht : truthy (get b (js "messages")) = true).
  { destruct (get b (js "messages")); cbn in *; congruence. }
  rewrite Ht. cbn [negb orb].
  assert (Hno : ~ exists b', @inr Thrown JSValue b = inr b' /\ nullish b' = false
                       /\ ChatRoute.Array_isArray (get b' (js "messages")) = false).
  { intros (b' & [= <-] & _ & H). congruence. }
  destruct (ChatRoute.format _) as [e|formatted] eqn:Hf.
  { right; left. cbn. split; [exact Hno | split; reflexivity]. }
  right; right. split; [exact Hno|].
  eexists. exists b.
  destruct (create _) as [e|completion] eqn:Hcr.
  { cbn. split; [reflexivity|]. split; [reflexivity|]. split; [reflexivity|].
    split; [exact Hf|]. left. reflexivity. }
  destruct (nullish completion);
    [cbn; do 3 (split; [reflexivity|]); split; [exact Hf | left; reflexivity]|].
  destruct (nullish (get completion (js "choices")));
    [cbn; do 3 (split; [reflexivity|]); split; [exact Hf | left; reflexivity]|].
  destruct (nullish (get0 (get completion (js "choices"))));
    [cbn; do 3 (split; [reflexivity|]); split; [exact Hf | left; reflexivity]|].
  cbn. do 3 (split; [reflexivity|]). split; [exact Hf|]. right. split; [reflexivity|].
  exists completion. exact Hcr.
Qed.

Lemma format_all (l : list JSValue) :
  (forall msg, In msg l -> nullish msg = false) ->
  ChatRoute.format l = inr (map (fun msg => (get msg (js "role"), get msg (js "content"))) l).
Proof.
  induction l as [|x l IH]; intros H; [reflexivity|].
  cbn [ChatRoute.format map]. rewrite (H x (or_introl eq_refl)).
  rewrite IH by (intros msg Hin; apply H; right; exact Hin). reflexivity.
Qed.

Lemma format_throws (l : list JSValue) :
  (exists msg, In msg l /\ nullish msg = true) -> exists e, ChatRoute.format l = inl e.
Proof.
  induction l as [|x l IH]; intros (msg & Hin & Hn); [destruct Hin|].
  cbn [ChatRoute.format]. destruct (nullish x) eqn:Hx; [eexists; reflexivity|].
  destruct Hin as [->|Hin]; [congruence|].
  destruct (IH (ex_intro _ msg (conj Hin Hn))) as [e ->]. eexists; reflexivity.
Qed.

(** The handler on a body whose [messages] is an array. *)
Lemma POST_on_messages (b : JSValue) :
  nullish b = false -> ChatRoute.Array_isArray (get b (js "messages")) = true ->
  let items := ChatRoute.elements (get b (js "messages")) in
  ((exists msg, In msg items /\ nullish msg = true) ->
   POST (inr b) = ChatRoute.error_response (js "Failed to generate response") 500
   /\ calls (inr b) = [])
  /\ ((forall msg, In msg items -> nullish msg = false) ->
      let call :=
        {| ChatRoute.model := js "gpt-4o";
           ChatRoute.request_messages :=
             map (fun msg => (get msg (js "role"), get msg (js "content"))) items;
           ChatRoute.temperature := 0.7%float; ChatRoute.max_tokens := 500 |} in
      calls (inr b) = [call]
      /\ (ChatRoute.completed create call = true ->
          exists completion,
            create call = inr completion
            /\ POST (inr b)
               = {| ChatRoute.status := 200;
                    ChatRoute.payload :=
                      JObj [(js "message",
                             get (get0 (get completion (js "choices"))) (js "message"))] |})
      /\ (ChatRoute.completed create call = false ->
          POST (inr b) = ChatRoute.error_response (js "Failed to generate response") 500)).
Proof.
  intros Hb Ha items.
  assert (Ht : truthy (get b (js "messages")) = true).
  { destruct (get b (js "messages")); cbn in *; congruence. }
  unfold ChatRoute.POST, ChatRoute.calls, ChatRoute.try_POST, ChatRoute.completed.
  rewrite Hb, Ht, Ha. cbn [negb orb]. fold items. split.
  - intros H. destruct (format_throws items H) as [e ->]. split; reflexivity.
  - intros H. rewrite (format_all items H). cbv zeta.
    destruct (create _) as [e|completion].
    { cbn. split; [reflexivity|]. split; [intros [=] | reflexivity]. }
    destruct (nullish completion); cbn [negb andb fst snd];
      [split; [reflexivity|]; split; [intros [=] | reflexivity]|].
    destruct (nullish (get completion (js "choices"))); cbn [negb andb fst snd];
      [split; [reflexivity|]; split; [intros [=] | reflexivity]|].
    destruct (nullish (get0 (get completion (js "choices")))); cbn [negb andb fst snd];
      [split; [reflexivity|]; split; [intros [=] | reflexivity]|].
    split; [reflexivity|]. split; [intros _; eexists; split; reflexivity | intros [=]].
Qed.

(** X8. The handler answers 200, 400 or 500. It answers 400, with
    [Valid messages array is required] and without calling OpenAI, exactly
    when the body is an object (or another value that is not [null]) whose
    [messages] is no array. Everything thrown, by [request.json()], by a
    [null] body or a [null] or [undefined] message (each without a call of
    OpenAI), or by OpenAI whatever its status, is answered 500 with
    [Failed to generate response], and so is a completion without a first
    choice. OpenAI is called exactly when [messages] is an array without
    such an element, once, with model [gpt-4o], temperature 0.7, 500
    tokens and the [role] and [content] of each message in order; the
    answer is 200, with the [message] of the first choice, exactly when
    that call resolves to a completion with a first choice. *)
Theorem chat_route_responses (body : Thrown + JSValue) :
  ((forall e, body = inl e ->
      POST body = ChatRoute.error_response (js "Failed to generate response") 500
      /\ calls body = [])
   /\ (forall b, body = inr b -> nullish b = true ->
       POST body = ChatRoute.error_response (js "Failed to generate response") 500
       /\ calls body = [])
   /\ (forall b, body = inr b -> nullish b = false ->
       ChatRoute.Array_isArray (get b (js "messages")) = true ->
       let items := ChatRoute.elements (get b (js "messages")) in
       ((exists msg, In msg items /\ nullish msg = true) ->
        POST body = ChatRoute.error_response (js "Failed to generate response") 500
        /\ calls body = [])
       /\ ((forall msg, In msg items -> nullish msg = false) ->
           let call :=
             {| ChatRoute.model := js "gpt-4o";
                ChatRoute.request_messages :=
                  map (fun msg => (get msg (js "role"), get msg (js "content"))) items;
                ChatRoute.temperature := 0.7%float; ChatRoute.max_tokens := 500 |} in
           calls body = [call]
           /\ (ChatRoute.completed create call = true ->
               exists completion,
                 create call = inr completion
                 /\ POST body
                    = {| ChatRoute.status := 200;
                         ChatRoute.payload :=
                           JObj [(js "message",
                                  get (get0 (get completion (js "choices"))) (js "message"))] |})
           /\ (ChatRoute.completed create call = false ->
               POST body = ChatRoute.error_response (js "Failed to generate response") 500)))
   /\ (ChatRoute.status (POST body) = 200 ->
       exists c, calls body = [c] /\ ChatRoute.completed create c = true))
  /\ (ChatRoute.status (POST body) = 200 \/ ChatRoute.status (POST body) = 400
   \/ ChatRoute.status (POST body) = 500)
  /\ (ChatRoute.status (POST body) = 400
      <-> exists b, body = inr b /\ nullish b = false
                    /\ ChatRoute.Array_isArray (get b (js "messages")) = false)
  /\ (ChatRoute.status (POST body) = 400 ->
      POST body = ChatRoute.error_response (js "Valid messages array is required") 400
      /\ calls body = [])
  /\ (ChatRoute.status (POST body) = 500 ->
      POST body = ChatRoute.error_response (js "Failed to generate response") 500)
  /\ (forall c, In c (calls body) ->
      calls body = [c]
      /\ ChatRoute.model c = js "gpt-4o"
      /\ exists b, body = inr b
                   /\ ChatRoute.format (ChatRoute.elements (get b (js "messages")))
                      = inr (ChatRoute.request_messages c))
  /\ (forall c e, In c (calls body) -> create c = inl e ->
      POST body = ChatRoute.error_response (js "Failed to generate response") 500).
Proof.
  split.
  { split; [|split; [|split]].
    - intros e ->. split; reflexivity.
    - intros b -> Hn. unfold ChatRoute.POST, ChatRoute.calls, ChatRoute.try_POST.
      rewrite Hn. split; reflexivity.
    - intros b -> Hn Ha. exact (POST_on_messages b Hn Ha).
    - destruct body as [e|b]; [intros [=]|].
      destruct (nullish b) eqn:Hn.
      { unfold ChatRoute.POST, ChatRoute.try_POST. rewrite Hn. intros [=]. }
      destruct (ChatRoute.Array_isArray (get b (js "messages"))) eqn:Ha.
      2: { unfold ChatRoute.POST, ChatRoute.try_POST. rewrite Hn, Ha, orb_true_r.
           intros [=]. }
      destruct (POST_on_messages b Hn Ha) as [Hthrow Hcall]. cbv zeta in Hthrow, Hcall.
      destruct (existsb nullish (ChatRoute.elements (get b (js "messages")))) eqn:He.
      + apply existsb_exists in He. destruct (Hthrow He) as [-> _]. intros [=].
      + assert (Hall : forall msg, In msg (ChatRoute.elements (get b (js "messages"))) ->
                                   nullish msg = false).
        { intros msg Hin. destruct (nullish msg) eqn:Hm; [|reflexivity].
          assert (existsb nullish (ChatRoute.elements (get b (js "messages"))) = true)
            by (apply existsb_exists; exists msg; auto).
          congruence. }
        destruct (Hcall Hall) as (Hc & _ & Hfail). intros H200.
        eexists. split; [exact Hc|].
        destruct (ChatRoute.completed create _) eqn:Hd; [reflexivity|].
        rewrite (Hfail eq_refl) in H200. discriminate H200. }
  destruct (POST_cases body) as [(Hi & Hp & Hc) | [(Hi & Hp & Hc) | (Hi & c & b & Hc & Hm & Hb & Hf & Hp)]].
  - rewrite Hp, Hc. cbn [ChatRoute.status ChatRoute.error_response In].
    split; [auto|]. split; [split; [intros _; exact Hi | reflexivity]|].
    split; [intros _; split; reflexivity|]. split; [intros [=]|].
    split; [intros c []|intros c e []].
  - rewrite Hp, Hc. cbn [ChatRoute.status ChatRoute.error_response In].
    split; [auto|]. split; [split; [intros [=] | intros H; contradiction]|].
    split; [intros [=]|]. split; [reflexivity|].
    split; [intros c []|intros c e []].
  - rewrite Hc.
    assert (H4 : ChatRoute.status (POST body) <> 400).
    { destruct Hp as [-> | [-> _]]; cbn; discriminate. }
    split; [destruct Hp as [-> | [-> _]]; cbn; auto|].
    split; [split; [intros H; contradiction | intros H; contradiction]|].
    split; [intros H; contradiction|].
    split; [destruct Hp as [-> | [-> _]]; [reflexivity | intros [=]]|].
    split.
    + intros c' [<-|[]]. split; [reflexivity|]. split; [exact Hm|]. exists b. auto.
    + intros c' e [<-|[]] He. destruct Hp as [Hp | [_ [completion Hcr]]]; [exact Hp | congruence].
Qed.

Lemma POST_request_body (api : list (MessageRole * JSValue)) :
  calls (inr (ChatRoute.request_body api false)) = [ChatRoute.conversation_request api]
  /\ (ChatRoute.completed create (ChatRoute.conversation_request api) = true ->
      exists m, POST (inr (ChatRoute.request_body api false))
                = {| ChatRoute.status := 200;
                     ChatRoute.payload := JObj [(js "message", m)] |})
  /\ (ChatRoute.completed create (ChatRoute.conversation_request api) = false ->
      POST (inr (ChatRoute.request_body api false))
      = ChatRoute.error_response (js "Failed to generate response") 500).
Proof.
  pose proof (format_request_body api false) as Hf.
  unfold ChatRoute.POST, ChatRoute.calls, ChatRoute.try_POST, ChatRoute.completed.
  assert (Hn : nullish (ChatRoute.request_body api false) = false) by reflexivity.
  assert (Ht : truthy (get (ChatRoute.request_body api false) (js "messages")) = true)
    by reflexivity.
  assert (Ha : ChatRoute.Array_isArray (get (ChatRoute.request_body api false) (js "messages"))
               = true) by reflexivity.
  rewrite Hn, Ht, Ha, Hf. cbn [negb orb].
  fold (ChatRoute.conversation_request api).
  destruct (create (ChatRoute.conversation_request api)) as [e|completion].
  { cbn. split; [reflexivity|]. split; [intros [=] | reflexivity]. }
  destruct (nullish completion); cbn [negb andb fst snd];
    [split; [reflexivity|]; split; [intros [=] | reflexivity]|].
  destruct (nullish (get completion (js "choices"))); cbn [negb andb fst snd];
    [split; [reflexivity|]; split; [intros [=] | reflexivity]|].
  destruct (nullish (get0 (get completion (js "choices")))); cbn [negb andb fst snd];
    [split; [reflexivity|]; split; [intros [=] | reflexivity]|].
  split; [reflexivity|]. split; [intros _; eexists; reflexivity | intros [=]].
Qed.

Lemma message_payload_has_no_content (m : JSValue) :
  nullish (ChatRoute.received (JObj [(js "message", m)])) = false
  /\ extract_standard (ChatRoute.received (JObj [(js "message", m)])) = JStr [].
Proof. destruct m; split; reflexivity. Qed.

(** X9. [useChat] with streaming disabled, its request answered by the
    [/api/chat] handler (its default endpoint): the handler never refuses
    the request as invalid and asks OpenAI once, for the conversation sent.
    When OpenAI answers, the handler responds [{ message }], in which the
    hook finds neither [content] nor [choices]: the assistant message stays
    empty, without an error, and [onMessageResponse] receives an empty
    message. When OpenAI fails, the hook reports [Server error: 500]. *)
Theorem route_answer_is_lost (chunks : list jsstring) (opts : ChatOptions) (env : Env)
    (st : Hook) (content : jsstring) :
  trim content <> [] ->
  streamingEnabled opts = false ->
  let call := ChatRoute.conversation_request (sent_messages env st content) in
  let env' := ChatRoute.served create chunks env st content in
  let result := addMessage opts env' st content user in
  calls (inr (ChatRoute.request_body (sent_messages env st content) false)) = [call]
  /\ (ChatRoute.completed create call = true ->
      error (fst result) = None
      /\ isLoading (fst result) = false
      /\ (exists earlier,
            messages (fst result)
            = earlier ++ [Message.mk (id_placeholder env) (JStr []) assistant
                            (now_placeholder env) (Some false) None])
      /\ responses (snd result)
         = (if onMessageResponse opts
            then [Message.mk (id_placeholder env) (JStr []) assistant (now_final env) None None]
            else []))
  /\ (ChatRoute.completed create call = false ->
      failed_with opts env (js "Server error: 500") result).
Proof.
  intros Hc Hs call env' result.
  destruct (POST_request_body (sent_messages env st content)) as (Hcalls & Hok & Hfail).
  split; [exact Hcalls|]. split.
  - intros Hdone. destruct (Hok Hdone) as [m Hm].
    destruct (message_payload_has_no_content m) as [Hn He].
    destruct (addMessage_standard JSON_parse Number_toString opts env' st content
                {| ok := true; status := 200; body := Some (chunks, Done);
                   json := inr (ChatRoute.received (JObj [(js "message", m)])) |}
                (ChatRoute.received (JObj [(js "message", m)])) Hc Hs)
      as (H1 & H2 & H3 & H4);
      [subst env'; unfold ChatRoute.served; cbn [outcome]; rewrite Hm; reflexivity
      | reflexivity | reflexivity | exact Hn |].
    rewrite He in H1, H4.
    split; [exact H2|]. split; [exact H3|]. split; [exact H1 | exact H4].
  - intros Hnot.
    apply (addMessage_not_ok JSON_parse Number_toString opts env' st content
             {| ok := false; status := 500; body := Some (chunks, Done);
                json := inr (ChatRoute.received
                               (ChatRoute.payload
                                  (ChatRoute.error_response
                                     (js "Failed to generate response") 500))) |} Hc);
      [subst env'; unfold ChatRoute.served; cbn [outcome]; rewrite (Hfail Hnot); reflexivity
      | reflexivity].
Qed.

End Facts.

Lemma route_answer_is_lost_witness :
  trim (js "Hello") <> []
  /\ responses
       (snd (addMessage sample_JSON_parse sample_Number_toString small_options
               (ChatRoute.served (ChatRoute.completes (js "Hi there")) []
                  (sample_env (refused 503)) talking (js "Hello"))
               talking (js "Hello") user))
     = [Message.mk (js "m2") (JStr []) assistant 2000 None None].
Proof.
  assert (H : trim (js "Hello") <> []) by (vm_compute; discriminate).
  split; [exact H|].
  exact (proj2 (proj2 (proj2
           (proj1 (proj2 (route_answer_is_lost sample_JSON_parse sample_Number_toString
                            (ChatRoute.completes (js "Hi there")) [] small_options
                            (sample_env (refused 503)) talking (js "Hello") H eq_refl))
              eq_refl)))).
Defined.

End RouteProps.


(* ===================================================================== *)
(** * Further properties of [MicButton] *)
(* ===================================================================== *)

Module MicProps.
Import JS Mic MicFacts.

Lemma call_cells (b : bool) (c : Call) (st : State) : cells (call b c st) = cells st.
Proof. destruct b; reflexivity. Qed.

Lemma call_refs (b : bool) (c : Call) (st : State) : refs (call b c st) = refs st.
Proof. destruct b; reflexivity. Qed.

Lemma call_settled (b : bool) (c : Call) (st : State) : settled st -> settled (call b c st).
Proof. destruct b; intros H; exact H. Qed.

Lemma step_settled (p : Props) (st : State) (e : Event) :
  stale st -> settled st -> settled (step p st e).
Proof.
  intros Hs Hc. pose proof Hc as (H1 & H2 & H3).
  destruct e as [granted now| |now|data|now|now|data]; cbn [step].
  - destruct (disabled p || isPermissionDenied (cells st)) eqn:Hd; [exact Hc|].
    destruct (isRecording (cells st)) eqn:Hrec.
    + unfold stopRecording, MediaRecorder_stop. rewrite Hrec. cbn [negb orb].
      unfold active in H1. unfold has_recorder.
      destruct (mediaRecorderRef (refs st)) as [[]|] eqn:Hm; cbn [negb]; try discriminate;
        unfold settled, active; cbn; rewrite ?Hm, ?Hrec; repeat split; try discriminate;
        try (apply H3; reflexivity).
    + unfold startRecording. rewrite Hrec.
      apply orb_false_iff in Hd. destruct Hd as [Hd1 Hd2]. rewrite Hd1, Hd2. cbn [orb].
      destruct granted.
      * unfold visualizeAudio. rewrite Hrec, orb_true_r.
        destruct (onBeforeRecording p), (onRecordingStart p); unfold settled, active; cbn;
          repeat split; try discriminate; assumption.
      * destruct (H2 eq_refl) as (A & B & C).
        destruct (onBeforeRecording p); unfold settled, active in *; cbn;
          rewrite ?Hrec; repeat split; try discriminate; try assumption;
          rewrite <- H1; reflexivity.
  - destruct (isRecording (cells st)) eqn:Hrec; [|exact Hc].
    unfold cancelRecording, MediaRecorder_stop. rewrite Hrec. cbn [negb orb].
    unfold active in H1. unfold has_recorder.
    destruct (mediaRecorderRef (refs st)) as [[]|] eqn:Hm; cbn [negb]; try discriminate;
      apply call_settled; unfold settled, active; cbn; rewrite ?Hm, ?Hrec;
      repeat split; try discriminate; try (apply H3; reflexivity).
  - destruct (timerIntervalRef (refs st)) as [i|] eqn:Hi; [|exact Hc].
    destruct (isRecording (cells st)) eqn:Hrec.
    2: { destruct (H2 eq_refl) as (_ & B & _). congruence. }
    unfold timer_tick, stopRecording.
    destruct Hs as (Hstale & _). rewrite (Hstale i Hi). cbn [negb orb].
    destruct (_ >=? _); unfold settled, active in *; cbn; rewrite ?Hrec;
      (split; [exact H1|]); (split; [discriminate|]); intros _; apply H3; reflexivity.
  - exact Hc.
  - destruct Hs as (_ & Ha & _). rewrite Ha. exact Hc.
  - destruct Hs as (_ & _ & Ht & _). rewrite Ht. exact Hc.
  - destruct (mediaRecorderRef (refs st)) as [[]|] eqn:Hm; try exact Hc.
    unfold onstop, ondataavailable.
    destruct (onRecordingComplete p); unfold settled, active; cbn;
      repeat split; discriminate.
Qed.

Lemma settled_initial : settled initial.
Proof. unfold settled, active. cbn. repeat split; discriminate. Qed.

Lemma run_app (p : Props) (st : State) (a b : list Event) :
  run p st (a ++ b) = run p (run p st a) b.
Proof. unfold run. apply fold_left_app. Qed.

Lemma run_settled (p : Props) (events : list Event) :
  forall st, stale st -> settled st ->
  stale (run p st events) /\ settled (run p st events).
Proof.
  induction events as [|e events IH]; intros st Hs Hc; [split; assumption|].
  cbn. apply IH; [apply step_stale; exact Hs | apply step_settled; assumption].
Qed.

Lemma step_counted (p : Props) (st : State) (e : Event) :
  onRecordingComplete p = true -> onRecordingStart p = true ->
  stale st -> settled st -> counted st -> counted (step p st e).
Proof.
  intros Hcomplete Hstart Hs (H1 & H2 & H3) Hn. unfold counted, completions, starts in *.
  destruct e as [granted now| |now|data|now|now|data]; cbn [step].
  - destruct (disabled p || isPermissionDenied (cells st)) eqn:Hd; [exact Hn|].
    destruct (isRecording (cells st)) eqn:Hrec.
    + unfold stopRecording, MediaRecorder_stop. rewrite Hrec. cbn [negb orb].
      unfold active in *. unfold has_recorder.
      destruct (mediaRecorderRef (refs st)) as [[]|] eqn:Hm; cbn [negb]; try exact Hn;
        cbn; rewrite ?Hm; exact Hn.
    + unfold startRecording. rewrite Hrec.
      apply orb_false_iff in Hd. destruct Hd as [Hd1 Hd2]. rewrite Hd1, Hd2. cbn [orb].
      rewrite <- H1 in Hn. rewrite Hstart.
      destruct granted.
      * unfold visualizeAudio. rewrite Hrec, orb_true_r.
        destruct (onBeforeRecording p); unfold active; cbn;
          rewrite ?List.filter_app, ?length_app; cbn; lia.
      * destruct (onBeforeRecording p); unfold active in *; cbn;
          rewrite ?List.filter_app, ?length_app; cbn;
          destruct (mediaRecorderRef (refs st)) as [[]|]; try discriminate; lia.
  - destruct (isRecording (cells st)) eqn:Hrec; [|exact Hn].
    unfold cancelRecording, MediaRecorder_stop. rewrite Hrec. cbn [negb orb].
    unfold active in *. unfold has_recorder.
    destruct (mediaRecorderRef (refs st)) as [[]|] eqn:Hm; cbn [negb]; try discriminate;
      destruct (onRecordingCancel p); cbn; rewrite ?Hm, ?List.filter_app, ?length_app; cbn;
      lia.
  - destruct (timerIntervalRef (refs st)) as [i|] eqn:Hi; [|exact Hn].
    unfold timer_tick, stopRecording.
    destruct Hs as (Hstale & _). rewrite (Hstale i Hi). cbn [negb orb].
    destruct (_ >=? _); exact Hn.
  - exact Hn.
  - destruct Hs as (_ & Ha & _). rewrite Ha. exact Hn.
  - destruct Hs as (_ & _ & Ht & _). rewrite Ht. exact Hn.
  - unfold active in *.
    destruct (mediaRecorderRef (refs st)) as [[]|] eqn:Hm; try (rewrite Hm; exact Hn).
    unfold onstop, ondataavailable. rewrite Hcomplete. cbn.
    rewrite ?List.filter_app, ?length_app. cbn. lia.
Qed.

Lemma run_counted (p : Props) (events : list Event) :
  onRecordingComplete p = true -> onRecordingStart p = true ->
  forall st, stale st -> settled st -> counted st -> counted (run p st events).
Proof.
  intros Hcomplete Hstart.
  induction events as [|e events IH]; intros st Hs Hc Hn; [exact Hn|].
  cbn. apply IH;
    [apply step_stale; exact Hs | apply step_settled; assumption
    | apply step_counted; assumption].
Qed.

(** ** [startRecording] in two steps *)

Lemma startRecording_in_two_steps (p : Props) (r : Render) (granted : bool) (now : Z)
    (st : State) :
  startRecording p r granted now st
  = if disabled p || isRecording r || isPermissionDenied r then st
    else MicAsync.startRecording_resumes p r granted now
           (call (onBeforeRecording p) BeforeRecording st).
Proof. reflexivity. Qed.

Lemma async_run_app (p : Props) (c : MicAsync.Component) (a b : list MicAsync.Event) :
  MicAsync.run p c (a ++ b) = MicAsync.run p (MicAsync.run p c a) b.
Proof. unfold MicAsync.run. apply fold_left_app. Qed.

(** A click of [Mic] is a click here, answered at once. *)
Lemma expand_step (p : Props) (c : MicAsync.Component) (e : Event) :
  MicAsync.plain c -> stale (MicAsync.held c) -> settled (MicAsync.held c) ->
  MicAsync.plain (MicAsync.run p c (MicAsync.expand e))
  /\ MicAsync.held (MicAsync.run p c (MicAsync.expand e)) = step p (MicAsync.held c) e.
Proof.
  destruct c as [st aw n ab sp lk]. unfold MicAsync.plain. cbn [MicAsync.held
    MicAsync.awaiting MicAsync.abandoned MicAsync.stopping MicAsync.leaked].
  intros (-> & -> & -> & ->) Hs (H1 & H2 & H3).
  destruct e as [granted now| |now|data|now|now|data];
    try (cbn; repeat split; reflexivity).
  cbn [MicAsync.expand MicAsync.run fold_left MicAsync.step MicAsync.held step].
  destruct (disabled p || isPermissionDenied (cells st)) eqn:Hd;
    [cbn; repeat split; reflexivity|].
  destruct (isRecording (cells st)) eqn:Hrec; [cbn; repeat split; reflexivity|].
  unfold MicAsync.startRecording_begins. cbn [MicAsync.held].
  rewrite startRecording_in_two_steps, Hrec.
  apply orb_false_iff in Hd. destruct Hd as [Hd1 Hd2]. rewrite Hd1, Hd2. cbn [orb].
  unfold MicAsync.answer. cbn [MicAsync.awaiting app nth_error MicAsync.held
    MicAsync.abandoned MicAsync.stopping MicAsync.leaked MicAsync.asked].
  rewrite call_refs.
  destruct (H2 eq_refl) as (_ & Hi & _). rewrite Hi.
  unfold active in H1.
  destruct (mediaRecorderRef (refs st)) as [[]|]; try discriminate H1;
    cbn; repeat split; reflexivity.
Qed.

Lemma atomic_run (p : Props) (events : list Event) :
  forall c,
    MicAsync.plain c -> stale (MicAsync.held c) -> settled (MicAsync.held c) ->
    MicAsync.plain (MicAsync.run p c (MicAsync.atomic events))
    /\ MicAsync.held (MicAsync.run p c (MicAsync.atomic events))
       = run p (MicAsync.held c) events.
Proof.
  induction events as [|e events IH]; intros c Hp Hs Hc; [split; [exact Hp | reflexivity]|].
  unfold MicAsync.atomic. cbn [flat_map]. rewrite async_run_app.
  destruct (expand_step p c e Hp Hs Hc) as [Hp' He].
  fold (MicAsync.atomic events).
  destruct (IH (MicAsync.run p c (MicAsync.expand e)) Hp') as [Hp'' Hr].
  - rewrite He. apply step_stale. exact Hs.
  - rewrite He. apply step_settled; assumption.
  - split; [exact Hp''|]. rewrite Hr, He. reflexivity.
Qed.

Lemma plain_initial : MicAsync.plain MicAsync.initial.
Proof. repeat split. Qed.

(** ** What holds of every run *)

Lemma same_protocol_refl (st : State) : MicAsync.same_protocol st st.
Proof. repeat split. Qed.

Lemma same_protocol_trans (a b c : State) :
  MicAsync.same_protocol a b -> MicAsync.same_protocol b c -> MicAsync.same_protocol a c.
Proof.
  intros (A1 & A2 & A3 & A4) (B1 & B2 & B3 & B4). repeat split; congruence.
Qed.

Lemma stopRecording_same (r : Render) (st : State) :
  MicAsync.same_protocol st (stopRecording r st).
Proof.
  unfold stopRecording, MediaRecorder_stop.
  destruct (negb (isRecording r) || negb (has_recorder st)); [apply same_protocol_refl|].
  unfold MicAsync.same_protocol, active.
  destruct (mediaRecorderRef (refs st)) as [[]|] eqn:Hm; cbn; rewrite ?Hm; repeat split.
Qed.

Lemma call_same (b : bool) (c : Call) (st : State) :
  is_start c = false -> is_complete c = false ->
  MicAsync.same_protocol st (call b c st).
Proof.
  intros H1 H2. destruct b; [|apply same_protocol_refl].
  unfold MicAsync.same_protocol, starts, completions, active. cbn.
  rewrite !List.filter_app, !length_app. cbn. rewrite H1, H2. cbn.
  repeat split; lia.
Qed.

Lemma checkSilence_same (p : Props) (r : Render) (now : Z) (l : float) (st : State) :
  MicAsync.same_protocol st (checkSilence p r now l st).
Proof.
  unfold checkSilence, MicAsync.same_protocol, active, has_silenceTimeout.
  repeat match goal with
         | |- context [if ?b then _ else _] => destruct b
         | |- context [match silenceTimeoutRef ?x with _ => _ end] =>
             destruct (silenceTimeoutRef x)
         end; cbn; repeat split.
Qed.

Lemma updateLevel_same (p : Props) (r : Render) (now : Z) (st : State) :
  MicAsync.same_protocol st (updateLevel p r now st).
Proof.
  unfold updateLevel.
  apply (same_protocol_trans _ (setRecordingLevel (level_of (analyserData st)) st));
    [repeat split|].
  eapply same_protocol_trans; [apply checkSilence_same|]. repeat split.
Qed.

Lemma timer_tick_same (p : Props) (i : Interval) (now : Z) (st : State) :
  MicAsync.same_protocol st (timer_tick p i now st).
Proof.
  unfold timer_tick. cbv zeta.
  apply (same_protocol_trans _ (setRecordingDuration ((now - startTime i) / 1000) st));
    [repeat split|].
  destruct (_ >=? _); [apply stopRecording_same | apply same_protocol_refl].
Qed.

(** The events of [Mic] but the click and the stop event. *)
Lemma other_step_same (p : Props) (st : State) (e : Event) :
  match e with ClickButton _ _ | RecorderStops _ => False | _ => True end ->
  MicAsync.same_protocol st (step p st e).
Proof.
  destruct e as [granted now| |now|data|now|now|data]; intros He; try destruct He;
    cbn [step].
  - destruct (isRecording (cells st)); [|apply same_protocol_refl].
    unfold cancelRecording.
    destruct (negb (isRecording (cells st)) || negb (has_recorder st));
      [apply same_protocol_refl|].
    eapply same_protocol_trans; [|apply call_same; reflexivity].
    unfold MediaRecorder_stop, MicAsync.same_protocol, active.
    destruct (mediaRecorderRef (refs st)) as [[]|] eqn:Hm; cbn; rewrite ?Hm; repeat split.
  - destruct (timerIntervalRef (refs st)); [apply timer_tick_same | apply same_protocol_refl].
  - repeat split.
  - destruct (animationFrameRef (refs st)); [apply updateLevel_same | apply same_protocol_refl].
  - destruct (silenceTimeoutRef (refs st)) as [t|]; [|apply same_protocol_refl].
    destruct (pending t && (due t <=? now)); [|apply same_protocol_refl].
    unfold silence_elapsed.
    eapply same_protocol_trans; [|destruct (isRecording (timeout_render t));
                                   [apply stopRecording_same | apply same_protocol_refl]].
    repeat split.
Qed.

(** A stop event delivers one recording and starts none. *)
Lemma onstop_counts (p : Props) (data : Blob) (st : State) :
  onRecordingComplete p = true ->
  let st' := onstop p (ondataavailable data st) in
  starts (calls st') = starts (calls st)
  /\ completions (calls st') = S (completions (calls st))
  /\ mediaRecorderRef (refs st') = mediaRecorderRef (refs st)
  /\ isPermissionDenied (cells st') = isPermissionDenied (cells st).
Proof.
  intros Hc. unfold onstop, ondataavailable. rewrite Hc. cbn.
  unfold starts, completions. rewrite !List.filter_app, !length_app. cbn.
  repeat split; lia.
Qed.

Lemma resumes_granted (p : Props) (r : Render) (now : Z) (st : State) :
  onRecordingStart p = true ->
  let st' := MicAsync.startRecording_resumes p r true now st in
  starts (calls st') = S (starts (calls st))
  /\ completions (calls st') = completions (calls st)
  /\ active st' = true
  /\ isPermissionDenied (cells st') = isPermissionDenied (cells st).
Proof.
  intros Hs. unfold MicAsync.startRecording_resumes. cbv zeta. rewrite Hs.
  match goal with |- context [visualizeAudio p r now ?x] => set (before := x) end.
  assert (Hv : MicAsync.same_protocol before (visualizeAudio p r now before)).
  { unfold visualizeAudio.
    destruct (negb (analyserRef (refs before)) || negb (isRecording r));
      [apply same_protocol_refl | apply updateLevel_same]. }
  destruct Hv as (V1 & V2 & V3 & V4). rewrite V1, V2, V3, V4.
  subst before. unfold starts, completions, active. cbn.
  rewrite !List.filter_app, !length_app. cbn. repeat split; lia.
Qed.

Lemma step_accounted (p : Props) (c : MicAsync.Component) (e : MicAsync.Event) :
  onRecordingComplete p = true -> onRecordingStart p = true ->
  MicAsync.accounted c -> MicAsync.accounted (MicAsync.step p c e).
Proof.
  intros Hcomplete Hstart Ha. unfold MicAsync.accounted in *.
  assert (Hsame : forall f, MicAsync.same_protocol (MicAsync.held c) (f (MicAsync.held c)) ->
                            MicAsync.accounted (MicAsync.on_held f c)).
  { intros f (S1 & S2 & S3 & _). unfold MicAsync.accounted, MicAsync.on_held.
    cbn [MicAsync.held MicAsync.abandoned MicAsync.stopping]. rewrite S1, S2, S3. exact Ha. }
  assert (Hbegin : forall r, MicAsync.accounted (MicAsync.startRecording_begins p r c)).
  { intros r. unfold MicAsync.startRecording_begins.
    destruct (disabled p || isRecording r || isPermissionDenied r); [exact Ha|].
    unfold MicAsync.accounted. cbn [MicAsync.held MicAsync.abandoned MicAsync.stopping].
    destruct (call_same (onBeforeRecording p) BeforeRecording (MicAsync.held c) eq_refl eq_refl)
      as (S1 & S2 & S3 & _).
    rewrite S1, S2, S3. exact Ha. }
  destruct e as [|k granted now|v|k now|data|e]; cbn [MicAsync.step].
  - destruct (disabled p || isPermissionDenied (cells (MicAsync.held c))); [exact Ha|].
    destruct (isRecording (cells (MicAsync.held c)));
      [apply Hsame, stopRecording_same | apply Hbegin].
  - unfold MicAsync.answer. destruct (nth_error (MicAsync.awaiting c) k) as [r|]; [|exact Ha].
    cbn [MicAsync.held MicAsync.abandoned MicAsync.stopping]. destruct granted.
    + destruct (resumes_granted p r now (MicAsync.held c) Hstart) as (S1 & S2 & S3 & _).
      rewrite S1, S2, S3. unfold active in Ha.
      destruct (mediaRecorderRef (refs (MicAsync.held c))) as [[]|]; lia.
    + unfold MicAsync.startRecording_resumes.
      replace (match mediaRecorderRef (refs (MicAsync.held c)) with
               | Some Recording => MicAsync.abandoned c
               | _ => MicAsync.abandoned c
               end) with (MicAsync.abandoned c)
        by (destruct (mediaRecorderRef (refs (MicAsync.held c))) as [[]|]; reflexivity).
      replace (match mediaRecorderRef (refs (MicAsync.held c)) with
               | Some Stopping => MicAsync.stopping c
               | _ => MicAsync.stopping c
               end) with (MicAsync.stopping c)
        by (destruct (mediaRecorderRef (refs (MicAsync.held c))) as [[]|]; reflexivity).
      exact Ha.
  - unfold MicAsync.isRecording_effect. cbv zeta.
    destruct (Bool.eqb v (isRecording (cells (MicAsync.held c)))); [exact Ha|].
    destruct v; [apply Hbegin | apply Hsame, stopRecording_same].
  - destruct (nth_error (MicAsync.leaked c) k) as [i|]; [|exact Ha].
    apply Hsame, timer_tick_same.
  - destruct (MicAsync.stopping c) as [|n] eqn:Hn; [rewrite Hn; exact Ha|].
    cbn [MicAsync.held MicAsync.abandoned MicAsync.stopping].
    destruct (onstop_counts p data (MicAsync.held c) Hcomplete) as (S1 & S2 & S3 & _).
    unfold active in *. rewrite S1, S2, S3. lia.
  - destruct e as [granted now| |now|d|now|now|d]; try exact Ha;
      try (apply Hsame, other_step_same; exact I).
    unfold MicAsync.on_held. cbn [MicAsync.held MicAsync.abandoned MicAsync.stopping step].
    unfold active in *.
    destruct (mediaRecorderRef (refs (MicAsync.held c))) as [[]|] eqn:Hm;
      try (rewrite Hm; exact Ha).
    destruct (onstop_counts p d (set_mediaRecorderRef (Some Inactive) (MicAsync.held c))
                Hcomplete) as (S1 & S2 & S3 & _).
    rewrite S1, S2, S3. cbn. unfold completions, starts in *. lia.
Qed.

Lemma run_accounted (p : Props) (events : list MicAsync.Event) :
  onRecordingComplete p = true -> onRecordingStart p = true ->
  forall c, MicAsync.accounted c -> MicAsync.accounted (MicAsync.run p c events).
Proof.
  intros Hcomplete Hstart.
  induction events as [|e events IH]; intros c Ha; [exact Ha|].
  cbn. apply IH, step_accounted; assumption.
Qed.

(** A recorder the ref has lost while it was recording stays lost. *)
Lemma step_abandoned (p : Props) (c : MicAsync.Component) (e : MicAsync.Event) :
  (MicAsync.abandoned c <= MicAsync.abandoned (MicAsync.step p c e))%nat.
Proof.
  destruct e as [|k granted now|v|k now|data|e]; cbn [MicAsync.step].
  - destruct (disabled p || isPermissionDenied (cells (MicAsync.held c))); [lia|].
    unfold MicAsync.startRecording_begins.
    destruct (isRecording (cells (MicAsync.held c))); cbn; [lia|].
    destruct (disabled p || _ || _); cbn; lia.
  - unfold MicAsync.answer. destruct (nth_error (MicAsync.awaiting c) k); [|lia].
    cbn [MicAsync.abandoned].
    destruct (mediaRecorderRef (refs (MicAsync.held c))) as [[]|], granted; lia.
  - unfold MicAsync.isRecording_effect, MicAsync.startRecording_begins. cbv zeta.
    destruct (Bool.eqb v _); [lia|]. destruct v; cbn; [|lia].
    destruct (disabled p || _ || _); cbn; lia.
  - destruct (nth_error (MicAsync.leaked c) k); cbn; lia.
  - destruct (MicAsync.stopping c); cbn; lia.
  - destruct e; cbn; lia.
Qed.

Lemma run_abandoned (p : Props) (events : list MicAsync.Event) :
  forall c, (MicAsync.abandoned c <= MicAsync.abandoned (MicAsync.run p c events))%nat.
Proof.
  induction events as [|e events IH]; intros c; [cbn; lia|].
  change (MicAsync.run p c (e :: events)) with (MicAsync.run p (MicAsync.step p c e) events).
  pose proof (step_abandoned p c e). pose proof (IH (MicAsync.step p c e)). lia.
Qed.

(** Once the permission is refused and no call awaits it, none is made. *)
Lemma step_refused (p : Props) (c : MicAsync.Component) (e : MicAsync.Event) :
  isPermissionDenied (cells (MicAsync.held c)) = true -> MicAsync.awaiting c = [] ->
  isPermissionDenied (cells (MicAsync.held (MicAsync.step p c e))) = true
  /\ MicAsync.awaiting (MicAsync.step p c e) = []
  /\ MicAsync.asked (MicAsync.step p c e) = MicAsync.asked c
  /\ starts (calls (MicAsync.held (MicAsync.step p c e))) = starts (calls (MicAsync.held c)).
Proof.
  intros Hd Hw.
  assert (Hsame : forall f, MicAsync.same_protocol (MicAsync.held c) (f (MicAsync.held c)) ->
            isPermissionDenied (cells (MicAsync.held (MicAsync.on_held f c))) = true
            /\ MicAsync.awaiting (MicAsync.on_held f c) = []
            /\ MicAsync.asked (MicAsync.on_held f c) = MicAsync.asked c
            /\ starts (calls (MicAsync.held (MicAsync.on_held f c)))
               = starts (calls (MicAsync.held c))).
  { intros f (S1 & _ & _ & S4). unfold MicAsync.on_held. cbn. rewrite S1, S4. auto. }
  assert (Hbegin : MicAsync.startRecording_begins p (cells (MicAsync.held c)) c = c).
  { unfold MicAsync.startRecording_begins. rewrite Hd, orb_true_r. reflexivity. }
  destruct e as [|k granted now|v|k now|data|e]; cbn [MicAsync.step].
  - rewrite Hd, orb_true_r. auto.
  - unfold MicAsync.answer. rewrite Hw. destruct k; cbn; auto.
  - unfold MicAsync.isRecording_effect. cbv zeta.
    destruct (Bool.eqb v _); [auto|].
    destruct v; [rewrite Hbegin; auto | apply Hsame, stopRecording_same].
  - destruct (nth_error (MicAsync.leaked c) k) as [i|]; [|auto].
    apply Hsame, timer_tick_same.
  - destruct (MicAsync.stopping c) as [|n]; [auto|].
    cbn [MicAsync.held MicAsync.awaiting MicAsync.asked].
    unfold onstop, ondataavailable, starts.
    destruct (onRecordingComplete p); cbn; rewrite ?List.filter_app, ?length_app; cbn;
      repeat split; try assumption; lia.
  - destruct e as [granted now| |now|d|now|now|d]; auto;
      try (apply Hsame, other_step_same; exact I).
    unfold MicAsync.on_held. cbn [MicAsync.held MicAsync.awaiting MicAsync.asked step].
    destruct (mediaRecorderRef (refs (MicAsync.held c))) as [[]|]; auto.
    unfold onstop, ondataavailable, starts.
    destruct (onRecordingComplete p); cbn; rewrite ?List.filter_app, ?length_app; cbn;
      repeat split; try assumption; lia.
Qed.

Lemma run_refused (p : Props) (more : list MicAsync.Event) :
  forall c,
    isPermissionDenied (cells (MicAsync.held c)) = true -> MicAsync.awaiting c = [] ->
    isPermissionDenied (cells (MicAsync.held (MicAsync.run p c more))) = true
    /\ MicAsync.awaiting (MicAsync.run p c more) = []
    /\ MicAsync.asked (MicAsync.run p c more) = MicAsync.asked c
    /\ starts (calls (MicAsync.held (MicAsync.run p c more)))
       = starts (calls (MicAsync.held c)).
Proof.
  induction more as [|e more IH]; intros c Hd Hw; [auto|].
  destruct (step_refused p c e Hd Hw) as (A & B & C & D).
  change (MicAsync.run p c (e :: more)) with (MicAsync.run p (MicAsync.step p c e) more).
  destruct (IH (MicAsync.step p c e) A B) as (A' & B' & C' & D').
  repeat split; congruence.
Qed.



Lemma denied_step (p : Props) (st : State) (e : Event) :
  stale st -> settled st -> isPermissionDenied (cells st) = true ->
  cells (step p st e) = cells st /\ refs (step p st e) = refs st
  /\ calls (step p st e) = calls st.
Proof.
  intros (_ & Ha & Ht & _) (H1 & H2 & H3) Hd.
  assert (Hrec : isRecording (cells st) = false).
  { destruct (isRecording (cells st)); [|reflexivity].
    destruct (H3 eq_refl) as [_ H]. congruence. }
  destruct (H2 Hrec) as (_ & Hi & _).
  destruct e as [granted now| |now|data|now|now|data]; cbn [step].
  - rewrite Hd, orb_true_r. repeat split.
  - rewrite Hrec. repeat split.
  - rewrite Hi. repeat split.
  - repeat split.
  - rewrite Ha. repeat split.
  - rewrite Ht. repeat split.
  - unfold active in H1. rewrite Hrec in H1.
    destruct (mediaRecorderRef (refs st)) as [[]|]; try discriminate; repeat split.
Qed.

Lemma denied_run (p : Props) (more : list Event) :
  forall st, stale st -> settled st -> isPermissionDenied (cells st) = true ->
  cells (run p st more) = cells st /\ refs (run p st more) = refs st
  /\ calls (run p st more) = calls st.
Proof.
  induction more as [|e more IH]; intros st Hs Hc Hd; [repeat split|].
  destruct (denied_step p st e Hs Hc Hd) as (A & B & C).
  cbn. rewrite <- A, <- B, <- C.
  apply IH; [apply step_stale; exact Hs | apply step_settled; assumption | rewrite A; exact Hd].
Qed.

(** X11. Once [getUserMedia] has been refused and no call of
    [startRecording] awaits its answer, the permission is never asked for
    again and no recording is started, whatever happens and in whatever
    order (clicks, changes of the [isRecording] prop, timers, stop events;
    what follows [getUserMedia] in [startRecording] is taken not to throw).
    When moreover each [getUserMedia] has been answered before anything
    else happened (and the [isRecording] prop is not passed), the
    component is inert for as long as it is mounted: no click, timer, frame
    or recorder event changes its state or its refs or reaches the
    consumer. A call that awaits its answer at the time of the refusal is
    not held back: of two clicks before the first answer, the first
    refused and the second granted, the second starts a recording although
    the permission counts as refused. *)
Theorem permission_denial_is_final (p : Props) :
  (forall events more : list Event,
     let c := MicAsync.run p MicAsync.initial (MicAsync.atomic events) in
     let c' := MicAsync.run p MicAsync.initial (MicAsync.atomic (events ++ more)) in
     isPermissionDenied (cells (MicAsync.held c)) = true ->
     cells (MicAsync.held c') = cells (MicAsync.held c)
     /\ refs (MicAsync.held c') = refs (MicAsync.held c)
     /\ calls (MicAsync.held c') = calls (MicAsync.held c)
     /\ MicAsync.asked c' = MicAsync.asked c
     /\ isRecording (cells (MicAsync.held c)) = false)
  /\ (forall events more : list MicAsync.Event,
        let c := MicAsync.run p MicAsync.initial events in
        let c' := MicAsync.run p c more in
        isPermissionDenied (cells (MicAsync.held c)) = true ->
        MicAsync.awaiting c = [] ->
        MicAsync.asked c' = MicAsync.asked c
        /\ MicAsync.awaiting c' = []
        /\ starts (calls (MicAsync.held c')) = starts (calls (MicAsync.held c))
        /\ isPermissionDenied (cells (MicAsync.held c')) = true)
  /\ (disabled p = false ->
      let c := MicAsync.run p MicAsync.initial MicAsync.late_grant in
      isPermissionDenied (cells (MicAsync.held c)) = true
      /\ isRecording (cells (MicAsync.held c)) = true
      /\ mediaRecorderRef (refs (MicAsync.held c)) = Some Recording
      /\ MicAsync.asked c = 2%nat
      /\ MicAsync.awaiting c = []).
Proof.
  split; [|split].
  - intros events more c c' Hd.
    destruct (atomic_run p events MicAsync.initial plain_initial stale_initial settled_initial)
      as [Hplain Hheld].
    fold c in Hplain, Hheld. change (MicAsync.held MicAsync.initial) with initial in Hheld.
    destruct (atomic_run p (events ++ more) MicAsync.initial plain_initial stale_initial
                settled_initial) as [_ Hheld'].
    fold c' in Hheld'. change (MicAsync.held MicAsync.initial) with initial in Hheld'.
    destruct (run_settled p events initial stale_initial settled_initial) as [Hs Hc].
    rewrite run_app in Hheld'. rewrite <- Hheld in Hs, Hc, Hheld'.
    destruct (denied_run p more (MicAsync.held c) Hs Hc Hd) as (A & B & C).
    rewrite Hheld'. split; [exact A|]. split; [exact B|]. split; [exact C|]. split.
    + assert (E : c' = MicAsync.run p c (MicAsync.atomic more)).
      { subst c c'. unfold MicAsync.atomic. rewrite flat_map_app. apply async_run_app. }
      rewrite E.
      exact (proj1 (proj2 (proj2 (run_refused p (MicAsync.atomic more) c Hd (proj1 Hplain))))).
    + destruct Hc as (_ & _ & H3).
      destruct (isRecording (cells (MicAsync.held c))); [|reflexivity].
      destruct (H3 eq_refl) as [_ H]. congruence.
  - intros events more c c' Hd Hw.
    destruct (run_refused p more c Hd Hw) as (A & B & C & D). auto.
  - intros Hd c. subst c. destruct p as [d m a oc os ocl ob]. cbn in Hd. subst d.
    destruct ob, os; vm_compute; repeat split.
Qed.

(** The session of [Mic] ends with a refusal: a click and a sound after it
    reach nobody. *)
Lemma permission_denial_is_final_witness :
  isPermissionDenied
    (cells (MicAsync.held
              (MicAsync.run default_props MicAsync.initial (MicAsync.atomic session)))) = true
  /\ calls (MicAsync.held
              (MicAsync.run default_props MicAsync.initial
                 (MicAsync.atomic (session ++ [ClickButton true 10000; Sound loud]))))
     = calls (MicAsync.held
                (MicAsync.run default_props MicAsync.initial (MicAsync.atomic session))).
Proof.
  split; [reflexivity|].
  exact (proj1 (proj2 (proj2
           (proj1 (permission_denial_is_final default_props) session
              [ClickButton true 10000; Sound loud] eq_refl)))).
Defined.

(** ** The timer display *)

Lemma js_inj (a b : string) : js a = js b -> a = b.
Proof.
  unfold js. intros H.
  rewrite <- (string_of_list_ascii_of_string a), <- (string_of_list_ascii_of_string b).
  f_equal. revert H.
  generalize (list_ascii_of_string a) (list_ascii_of_string b).
  intros l; induction l as [|x l IH]; intros [|y l']; cbn; try discriminate; [reflexivity|].
  intros [= Hxy Hl]. f_equal; [|apply IH; exact Hl].
  rewrite <- (ascii_N_embedding x), <- (ascii_N_embedding y), Hxy. reflexivity.
Qed.

Lemma Z_toString_inj (a b : Z) : Z_toString a = Z_toString b -> a = b.
Proof.
  unfold Z_toString. intros H. apply js_inj in H.
  assert (P : forall d, option_map Z.of_int (NilZero.int_of_string (NilZero.string_of_int d))
                        = Some (Z.of_int d)).
  { intros d.
    destruct (Decimal.signed_int_eq_dec d (Decimal.Pos Decimal.Nil)) as [->|H1];
      [rewrite NilZero.isi_posnil; reflexivity|].
    destruct (Decimal.signed_int_eq_dec d (Decimal.Neg Decimal.Nil)) as [->|H2];
      [rewrite NilZero.isi_negnil; reflexivity|].
    rewrite NilZero.isi by assumption. reflexivity. }
  pose proof (P (Z.to_int a)) as Pa. pose proof (P (Z.to_int b)) as Pb.
  rewrite H, Pb in Pa. injection Pa as Pa.
  rewrite !DecimalZ.of_to in Pa. symmetry. exact Pa.
Qed.

Lemma two_digits (n : Z) :
  0 <= n < 60 ->
  padStart 2 48%N (Z_toString n) = [digit (n / 10); digit (n mod 10)].
Proof.
  intros Hn.
  assert (H : forallb (fun k => jseqb (padStart 2 48%N (Z_toString (Z.of_nat k)))
                                  [digit (Z.of_nat k / 10); digit (Z.of_nat k mod 10)])
                (seq 0 60) = true) by (vm_compute; reflexivity).
  rewrite forallb_forall in H.
  specialize (H (Z.to_nat n)). rewrite Z2Nat.id in H by lia.
  apply JSFacts.jseqb_eq. apply H. apply in_seq. lia.
Qed.

(** X12. The timer shows the minutes, a colon and the seconds within the minute
    in exactly two digits, for every duration (a number of seconds that is
    not negative); so two durations are shown alike only when they are
    equal. *)
Theorem formatTime_shows_duration (seconds : Z) :
  0 <= seconds ->
  formatTime seconds
  = Z_toString (seconds / 60) ++ js ":"
    ++ [digit ((seconds mod 60) / 10); digit (seconds mod 10)]
  /\ seconds = 60 * (seconds / 60) + 10 * ((seconds mod 60) / 10) + seconds mod 10
  /\ (forall other, 0 <= other -> formatTime other = formatTime seconds -> other = seconds).
Proof.
  assert (Shape : forall s, 0 <= s ->
            formatTime s = Z_toString (s / 60) ++ js ":"
                           ++ [digit ((s mod 60) / 10); digit (s mod 10)]).
  { intros s Hs. unfold formatTime. cbv zeta.
    rewrite Z.rem_mod_nonneg by lia.
    rewrite two_digits by (apply Z.mod_pos_bound; lia).
    replace ((s mod 60) mod 10) with (s mod 10); [reflexivity|].
    pose proof (Z.mod_pos_bound s 60). pose proof (Z.div_mod s 60).
    pose proof (Z.mod_pos_bound (s mod 60) 10). pose proof (Z.div_mod (s mod 60) 10).
    pose proof (Z.mod_pos_bound s 10). pose proof (Z.div_mod s 10). lia. }
  assert (Sum : forall s, 0 <= s ->
            s = 60 * (s / 60) + 10 * ((s mod 60) / 10) + s mod 10
            /\ 0 <= (s mod 60) / 10 <= 5 /\ 0 <= s mod 10 <= 9).
  { intros s Hs.
    pose proof (Z.mod_pos_bound s 60). pose proof (Z.div_mod s 60).
    pose proof (Z.mod_pos_bound (s mod 60) 10). pose proof (Z.div_mod (s mod 60) 10).
    pose proof (Z.mod_pos_bound s 10). pose proof (Z.div_mod s 10). lia. }
  intros Hs. split; [apply Shape; exact Hs|]. split; [apply Sum; exact Hs|].
  intros other Ho Heq. rewrite (Shape other Ho), (Shape seconds Hs) in Heq.
  change (js ":") with [58%N] in Heq.
  assert (E : forall l (a b c : N), l ++ [a] ++ [b; c] = ((l ++ [a]) ++ [b]) ++ [c]).
  { intros. rewrite <- !app_assoc. reflexivity. }
  rewrite !E in Heq.
  apply app_inj_tail in Heq. destruct Heq as [Heq H0].
  apply app_inj_tail in Heq. destruct Heq as [Heq H1].
  apply app_inj_tail in Heq. destruct Heq as [Heq _].
  apply Z_toString_inj in Heq.
  destruct (Sum other Ho) as (S1 & B1 & B2), (Sum seconds Hs) as (S2 & B3 & B4).
  unfold digit in H0, H1. lia.
Qed.

Lemma formatTime_shows_duration_witness :
  0 <= 125 /\ formatTime 125 = js "2:05".
Proof.
  split; [lia|].
  exact (proj1 (formatTime_shows_duration 125 ltac:(lia))).
Defined.

End MicProps.


(* ===================================================================== *)
(** * Further properties of [src/firebase/firestore.ts] *)
(* ===================================================================== *)

Module FirestoreProps.
Import Firestore FirestoreFacts.

Lemma has_userId_spec (userId : string) (d : Doc) :
  has_userId userId d = true <-> d !! "userId" = Some (VString userId).
Proof.
  unfold has_userId. destruct (d !! "userId") as [[s| | | |]|]; split; try discriminate.
  - intros H. apply String.eqb_eq in H. congruence.
  - intros [= ->]. apply String.eqb_refl.
Qed.

Lemma matches_spec (collection userId c i : string) (d : Doc) :
  matches collection userId ((c, i), d) = true
  <-> c = collection /\ d !! "userId" = Some (VString userId).
Proof.
  unfold matches. cbn [fst snd]. rewrite andb_true_iff, String.eqb_eq, has_userId_spec.
  reflexivity.
Qed.

Lemma history_of_In (u : User) (s : Store) (d : Doc) :
  In d (map snd (history_of u s))
  <-> exists i, s !! (TALK_HISTORY_COLLECTION, i) = Some d
                /\ d !! "userId" = Some (VString (uid u)).
Proof.
  unfold history_of. rewrite in_map_iff. split.
  - intros ([[c i] d'] & Hd & Hin). cbn in Hd. subst d'.
    apply list_elem_of_In, elem_of_map_to_list, map_lookup_filter_Some in Hin as [H1 H2].
    apply matches_spec in H2 as [-> H2]. exists i. split; assumption.
  - intros (i & H1 & H2). exists ((TALK_HISTORY_COLLECTION, i), d). split; [reflexivity|].
    apply list_elem_of_In, elem_of_map_to_list, map_lookup_filter_Some.
    split; [exact H1|]. apply matches_spec. split; [reflexivity | exact H2].
Qed.

Section Facts.

Variable date_leb : Value -> Value -> bool.

Local Abbreviation getUserTalkHistory := (getUserTalkHistory date_leb).

Lemma insert_desc_In (d : Doc) (v : Value) (l : list (Doc * Value)) (x : Doc * Value) :
  In x (insert_desc date_leb d v l) <-> x = (d, v) \/ In x l.
Proof.
  induction l as [|[d' v'] l IH]; cbn.
  - intuition congruence.
  - destruct (date_leb v' v); cbn; [intuition congruence|].
    rewrite IH. intuition congruence.
Qed.

Lemma order_by_date_desc_In (docs : list Doc) (d : Doc) :
  In d (order_by_date_desc date_leb docs) <-> In d docs /\ is_Some (d !! "date").
Proof.
  unfold order_by_date_desc. rewrite in_map_iff.
  assert (H : forall x, In x (fold_right
                                (fun d acc => match d !! "date" with
                                              | Some v => insert_desc date_leb d v acc
                                              | None => acc
                                              end) [] docs)
                        <-> In (fst x) docs /\ fst x !! "date" = Some (snd x)).
  { induction docs as [|d0 docs IH]; intros x; cbn; [tauto|].
    destruct (d0 !! "date") as [v|] eqn:Hv.
    - rewrite insert_desc_In, IH. destruct x as [d' v']. cbn. split.
      + intros [[= -> ->]|[H1 H2]]; auto.
      + intros [[->|H1] H2]; [left; congruence | right; auto].
    - rewrite IH. split; [intros [H1 H2]; auto|].
      intros [[->|H1] H2]; [congruence | auto]. }
  split.
  - intros ([d' v] & <- & Hin). apply H in Hin as [H1 H2]. cbn in *. split; [exact H1|].
    exists v. exact H2.
  - intros [H1 [v H2]]. exists (d, v). split; [reflexivity|]. apply H. split; assumption.
Qed.

Lemma getUserTalkHistory_served (env : Env) (userId : string) (w : World) :
  rejects env (GetDocs TALK_HISTORY_COLLECTION userId) = false ->
  getUserTalkHistory env userId w
  = (Ok (order_by_date_desc date_leb (map snd (history_of {| uid := userId |} (store w)))),
     {| store := store w; sent := sent w ++ [GetDocs TALK_HISTORY_COLLECTION userId] |}).
Proof.
  intros Hq. unfold Firestore.getUserTalkHistory, bind, getDocs.
  rewrite (request_served _ _ _ _ Hq). reflexivity.
Qed.

Lemma listed_spec (s : Store) (userId : string) (d : Doc) :
  In d (order_by_date_desc date_leb (map snd (history_of {| uid := userId |} s)))
  <-> exists i, s !! (TALK_HISTORY_COLLECTION, i) = Some d
                /\ d !! "userId" = Some (VString userId)
                /\ is_Some (d !! "date").
Proof.
  rewrite order_by_date_desc_In, history_of_In. cbn [uid]. split.
  - intros [(i & H1 & H2) H3]. exists i. auto.
  - intros (i & H1 & H2 & H3). split; [exists i; auto | exact H3].
Qed.

(** X13. [getUserTalkHistory(userId)] sends one query and changes nothing. When
    Firestore rejects the query it throws; otherwise it returns the
    documents of [talk_history] whose [userId] is the one asked for and
    that have a [date], and no other: no talk of another user, and no talk
    saved without a [date]. *)
Theorem talk_history_is_per_user (env : Env) (userId : string) (w : World) :
  let query := GetDocs TALK_HISTORY_COLLECTION userId in
  let result := getUserTalkHistory env userId w in
  store (snd result) = store w
  /\ sent (snd result) = sent w ++ [query]
  /\ (rejects env query = true -> fst result = Throws (FirestoreError query))
  /\ (rejects env query = false ->
      exists docs,
        fst result = Ok docs
        /\ forall d, In d docs
                     <-> exists i, store w !! (TALK_HISTORY_COLLECTION, i) = Some d
                                   /\ d !! "userId" = Some (VString userId)
                                   /\ is_Some (d !! "date")).
Proof.
  intros query result. subst result query.
  destruct (rejects env (GetDocs TALK_HISTORY_COLLECTION userId)) eqn:Hq.
  - unfold Firestore.getUserTalkHistory, bind, getDocs.
    rewrite (request_rejected _ _ _ _ Hq). cbn.
    split; [reflexivity|]. split; [reflexivity|]. split; [reflexivity | discriminate].
  - rewrite (getUserTalkHistory_served env userId w Hq). cbn [fst snd store sent].
    split; [reflexivity|]. split; [reflexivity|]. split; [discriminate|].
    intros _. eexists. split; [reflexivity|]. apply listed_spec.
Qed.

(** X14. A talk saved with [saveTalkHistory] is listed by the
    [getUserTalkHistory] of its [userId], under the id [saveTalkHistory]
    returned (which replaces an [id] the item came with), provided the
    item has a [date]; saved without one, it is stored but never listed. *)
Theorem saved_talk_is_listed (env : Env) (historyItem : Doc) (userId : string) (w : World) :
  rejects env (SetDoc (TALK_HISTORY_COLLECTION, new_id env)
                 (<["id" := VString (new_id env)]> historyItem)) = false ->
  rejects env (GetDocs TALK_HISTORY_COLLECTION userId) = false ->
  historyItem !! "userId" = Some (VString userId) ->
  let saved := <["id" := VString (new_id env)]> historyItem in
  let w' := snd (saveTalkHistory env historyItem w) in
  fst (saveTalkHistory env historyItem w) = Ok (new_id env)
  /\ store w' !! (TALK_HISTORY_COLLECTION, new_id env) = Some saved
  /\ exists docs,
       fst (getUserTalkHistory env userId w') = Ok docs
       /\ (is_Some (historyItem !! "date") -> In saved docs)
       /\ (historyItem !! "date" = None -> ~ In saved docs).
Proof.
  intros Hs Hq Hu saved w'. subst w'.
  unfold saveTalkHistory, bind, setDoc. rewrite (request_served _ _ _ _ Hs).
  cbn [fst snd store ret].
  split; [reflexivity|]. split; [apply lookup_insert_eq|].
  rewrite (getUserTalkHistory_served env userId _ Hq). cbn [fst snd store].
  eexists. split; [reflexivity|]. split.
  - intros Hd. apply listed_spec. exists (new_id env).
    split; [apply lookup_insert_eq|].
    subst saved. rewrite !lookup_insert_ne by discriminate. split; assumption.
  - intros Hd Hin. apply listed_spec in Hin as (i & _ & _ & [v Hv]).
    subst saved. rewrite lookup_insert_ne in Hv by discriminate. congruence.
Qed.

Lemma history_of_ext (v : User) (s s' : Store) :
  (forall ref d, matches TALK_HISTORY_COLLECTION (uid v) (ref, d) = true ->
                 (s' !! ref = Some d <-> s !! ref = Some d)) ->
  history_of v s' = history_of v s.
Proof.
  intros H. unfold history_of. f_equal. apply map_eq. intros ref. apply option_eq. intros d.
  rewrite !map_lookup_filter_Some. split; intros [H1 H2]; (split; [|exact H2]);
    apply (H ref d H2); exact H1.
Qed.

(** X15. When Firestore serves every request, [deleteUserData(user)] leaves
    nothing of the user: [getUserSettings] then returns [null] and
    [getUserTalkHistory] the empty list. Every other user reads the
    settings and the history they read before. *)
Theorem deleted_account_leaves_nothing (env : Env) (u : User) (w : World) :
  (forall r, rejects env r = false) ->
  let w' := snd (deleteUserData env (Some u) w) in
  fst (deleteUserData env (Some u) w) = Ok tt
  /\ fst (getUserSettings env (Some u) w') = Ok None
  /\ fst (getUserTalkHistory env (uid u) w') = Ok []
  /\ forall v, uid v <> uid u ->
       fst (getUserSettings env (Some v) w') = fst (getUserSettings env (Some v) w)
       /\ fst (getUserTalkHistory env (uid v) w') = fst (getUserTalkHistory env (uid v) w).
Proof.
  intros Hserve w'.
  destruct (deleteUserData_settled env u w (Hserve _) (Hserve _))
    as (_ & _ & Hh & Hl & Hr & _).
  fold w' in Hl.
  assert (Hstore : forall ref,
            store w' !! ref
            = if bool_decide (ref = (USERS_COLLECTION, uid u)) then None
              else if bool_decide (ref ∈ map fst (history_of u (store w))) then None
              else store w !! ref).
  { intros ref. rewrite Hl, Hserve. cbn [negb]. rewrite andb_true_r. reflexivity. }
  split; [apply Hr; intros ref _; apply Hserve|].
  split; [|split].
  - unfold getUserSettings, getDoc. rewrite (request_served _ _ _ _ (Hserve _)). cbn [fst].
    rewrite Hstore, bool_decide_eq_true_2 by reflexivity. reflexivity.
  - rewrite (getUserTalkHistory_served env (uid u) w' (Hserve _)). cbn [fst]. f_equal.
    destruct (order_by_date_desc _ _) as [|d l] eqn:E; [reflexivity|].
    assert (Hin : In d (order_by_date_desc date_leb
                          (map snd (history_of {| uid := uid u |} (store w')))))
      by (rewrite E; left; reflexivity).
    apply listed_spec in Hin as (i & H1 & H2 & _).
    rewrite Hstore in H1.
    destruct (bool_decide _); [discriminate|].
    destruct (bool_decide_reflect
                ((TALK_HISTORY_COLLECTION, i) ∈ map fst (history_of u (store w))))
      as [Hin|Hnin]; [discriminate|].
    exfalso. apply Hnin. apply Hh. exists d. split; [exact H1|].
    apply matches_spec. split; [reflexivity | exact H2].
  - intros v Hv. split.
    + unfold getUserSettings, getDoc. rewrite !(request_served _ _ _ _ (Hserve _)). cbn [fst].
      rewrite Hstore.
      rewrite bool_decide_eq_false_2 by (intros [= H]; apply Hv; exact H).
      rewrite bool_decide_eq_false_2; [reflexivity|].
      intros Hin. apply Hh in Hin as (d & _ & Hm). discriminate.
    + rewrite !(getUserTalkHistory_served env (uid v) _ (Hserve _)). cbn [fst].
      do 3 f_equal. apply history_of_ext. cbn [uid]. intros [c i] d Hm.
      apply matches_spec in Hm as [-> Hm].
      rewrite Hstore. rewrite bool_decide_eq_false_2 by discriminate.
      destruct (bool_decide_reflect
                  ((TALK_HISTORY_COLLECTION, i) ∈ map fst (history_of u (store w))))
        as [Hin|Hnin]; [|reflexivity].
      apply Hh in Hin as (d' & Hd' & Hm'). apply matches_spec in Hm' as [_ Hm'].
      split; [discriminate|]. intros Hd. rewrite Hd in Hd'. injection Hd' as <-.
      rewrite Hm in Hm'. injection Hm' as Hm'. contradiction.
Qed.

End Facts.

Lemma saveUserSettings_served (env : Env) (u : User) (settings : Doc) (w : World) :
  (forall r, rejects env r = false) ->
  saveUserSettings env (Some u) settings w
  = (Ok tt,
     {| store := <[(USERS_COLLECTION, uid u) :=
                     merged env settings (store w !! (USERS_COLLECTION, uid u))]> (store w);
        sent := (sent w ++ [GetDoc (USERS_COLLECTION, uid u)])
                ++ [SetDoc (USERS_COLLECTION, uid u)
                      (merged env settings (store w !! (USERS_COLLECTION, uid u)))] |}).
Proof.
  intros Hserve. unfold saveUserSettings, bind, getDoc, setDoc.
  rewrite (request_served _ _ _ _ (Hserve _)). cbn [fst snd store sent].
  rewrite (request_served _ _ _ _ (Hserve _)). cbn [fst snd store sent].
  unfold merged. destruct (store w !! (USERS_COLLECTION, uid u)); reflexivity.
Qed.

Lemma getUserSettings_served (env : Env) (u : User) (w : World) :
  (forall r, rejects env r = false) ->
  getUserSettings env (Some u) w
  = (Ok (store w !! (USERS_COLLECTION, uid u)),
     {| store := store w; sent := sent w ++ [GetDoc (USERS_COLLECTION, uid u)] |}).
Proof.
  intros Hserve. unfold getUserSettings, getDoc.
  rewrite (request_served _ _ _ _ (Hserve _)). reflexivity.
Qed.

(** X16. Saving settings and reading them back: [getUserSettings] returns the
    document [saveUserSettings] wrote, never [null], with every field of
    the settings as given, but [updatedAt] and, for a user who had no
    document, [createdAt]; saving what was read changes [updatedAt] and
    nothing else; and no other user reads anything new. *)
Theorem settings_round_trip (env env' : Env) (u : User) (settings : Doc) (w : World) :
  (forall r, rejects env r = false) ->
  (forall r, rejects env' r = false) ->
  let userRef := (USERS_COLLECTION, uid u) in
  let w1 := snd (saveUserSettings env (Some u) settings w) in
  exists written : Doc,
    fst (getUserSettings env (Some u) w1) = Ok (Some written)
    /\ store (snd (getUserSettings env (Some u) w1)) = store w1
    /\ (forall field v, field <> "updatedAt" ->
         field <> "createdAt" \/ is_Some (store w !! userRef) ->
         settings !! field = Some v -> written !! field = Some v)
    /\ store (snd (saveUserSettings env' (Some u) written w1))
       = <[userRef := <["updatedAt" := VTimestamp (now env')]> written]> (store w1)
    /\ (forall v, uid v <> uid u ->
         fst (getUserSettings env (Some v) w1) = fst (getUserSettings env (Some v) w)).
Proof.
  intros Hserve Hserve' userRef w1. subst w1.
  rewrite (saveUserSettings_served env u settings w Hserve). cbn [snd]. fold userRef.
  rewrite (getUserSettings_served env u _ Hserve). cbn [fst snd store]. fold userRef.
  rewrite lookup_insert_eq.
  eexists. split; [reflexivity|]. split; [reflexivity|]. split; [|split].
  - intros field v Hf Hc Hv. unfold merged.
    destruct (store w !! userRef) as [stored|].
    + rewrite lookup_insert_ne by congruence.
      rewrite lookup_union, Hv. destruct (stored !! field); reflexivity.
    + destruct Hc as [Hc|[x Hx]]; [|discriminate].
      rewrite !lookup_insert_ne by congruence. rewrite lookup_union, Hv, lookup_empty.
      reflexivity.
  - rewrite (saveUserSettings_served env' u _ _ Hserve'). cbn [snd store]. fold userRef.
    rewrite lookup_insert_eq. unfold merged at 1. rewrite map_union_idemp. reflexivity.
  - intros v Hv. rewrite !(getUserSettings_served env v _ Hserve). cbn [fst store].
    rewrite lookup_insert_ne; [reflexivity|]. intros [= H]. apply Hv. symmetry. exact H.
Qed.

Lemma saved_talk_is_listed_witness :
  rejects (serving 10)
    (SetDoc (TALK_HISTORY_COLLECTION, new_id (serving 10))
       (<["id" := VString (new_id (serving 10))]> (dated 5 (talk "alice" 95)))) = false
  /\ rejects (serving 10) (GetDocs TALK_HISTORY_COLLECTION "alice") = false
  /\ dated 5 (talk "alice" 95) !! "userId" = Some (VString "alice")
  /\ exists docs,
       fst (getUserTalkHistory by_timestamp (serving 10) "alice"
              (snd (saveTalkHistory (serving 10) (dated 5 (talk "alice" 95)) sample_world)))
       = Ok docs
       /\ In (<["id" := VString "h3"]> (dated 5 (talk "alice" 95))) docs.
Proof.
  split; [reflexivity|]. split; [reflexivity|]. split; [reflexivity|].
  destruct (saved_talk_is_listed by_timestamp (serving 10) (dated 5 (talk "alice" 95)) "alice"
              sample_world eq_refl eq_refl eq_refl)
    as (_ & _ & docs & H1 & H2 & _).
  exists docs. split; [exact H1|]. apply H2. exists (VTimestamp 5). reflexivity.
Defined.

Lemma deleted_account_leaves_nothing_witness :
  (forall r, rejects (serving 10) r = false)
  /\ fst (getUserSettings (serving 10) (Some alice)
            (snd (deleteUserData (serving 10) (Some alice) sample_world))) = Ok None
  /\ fst (getUserTalkHistory by_timestamp (serving 10) "alice"
            (snd (deleteUserData (serving 10) (Some alice) sample_world))) = Ok [].
Proof.
  split; [intros r; reflexivity|].
  destruct (deleted_account_leaves_nothing by_timestamp (serving 10) alice sample_world
              (fun r => eq_refl))
    as (_ & H1 & H2 & _).
  split; [exact H1 | exact H2].
Defined.

Lemma settings_round_trip_witness :
  (forall r, rejects (serving 10) r = false)
  /\ (forall r, rejects (serving 20) r = false)
  /\ exists written : Doc,
       fst (getUserSettings (serving 10) (Some alice)
              (snd (saveUserSettings (serving 10) (Some alice) (<["language" := VString "fr"]> ∅)
                      sample_world)))
       = Ok (Some written)
       /\ written !! "language" = Some (VString "fr").
Proof.
  split; [intros r; reflexivity|]. split; [intros r; reflexivity|].
  destruct (settings_round_trip (serving 10) (serving 20) alice (<["language" := VString "fr"]> ∅)
              sample_world (fun r => eq_refl) (fun r => eq_refl))
    as (written & H1 & _ & H3 & _).
  exists written. split; [exact H1|].
  apply H3; [discriminate | left; discriminate | reflexivity].
Defined.

End FirestoreProps.


(* ===================================================================== *)
(** * Further properties of the [/api/tts] handler *)
(* ===================================================================== *)

Module TtsProps.
Import JS JSFacts Tts TtsFacts.

Lemma voice_is_included (l : list jsstring) (v : JSValue) :
  includes l v = true <-> exists s, v = JStr s /\ In s l.
Proof.
  unfold includes. destruct v; try (split; [discriminate | intros (s' & [=] & _)]).
  rewrite existsb_exists. split.
  - intros (x & Hin & Heq). apply jseqb_eq in Heq. subst x. exists s. auto.
  - intros (s' & [= <-] & Hin). exists s. split; [exact Hin | apply jseqb_refl].
Qed.

Section Facts.

Variable StringToNumber : jsstring -> float.
Variable Number_toString : float -> jsstring.
Variable wording : Wording.
Variable speech : SpeechRequest -> ApiError + list N.

Local Abbreviation POST := (POST StringToNumber Number_toString wording speech).
Local Abbreviation try_POST := (try_POST StringToNumber Number_toString wording speech).

(** X17. Whatever the request, OpenAI is called at most once, and only for
    input that passed every check: the model is [tts-1], the voice is one
    of the six names, the text is truthy (not necessarily a string) and the
    speed is a number from 0.25 to 4.0, never [NaN]. Audio is answered
    only with status 200 and is what OpenAI returned for that call. *)
Theorem openai_gets_checked_requests (request : Request) :
  (length (snd (POST request)) <= 1)%nat
  /\ (forall call, In call (snd (POST request)) ->
      apiKeyConfigured request = true
      /\ model call = js "tts-1"
      /\ (exists name, voice call = JStr name /\ In name validVoices)
      /\ truthy (input call) = true
      /\ in_speed_range (speed call) = true
      /\ PrimFloat.is_nan (speed call) = false)
  /\ (forall response audioData,
      fst (POST request) = Some response -> body response = Audio audioData ->
      response_status response = 200
      /\ exists call, snd (POST request) = [call] /\ speech call = inr audioData).
Proof.
  assert (Hcaught : forall e response a, caught e = Some response -> body response <> Audio a).
  { intros e response a. unfold caught, NextResponse_json. cbv zeta.
    destruct (_ && _); [|discriminate]. intros [= <-]. discriminate. }
  unfold Tts.POST, Tts.try_POST.
  destruct (apiKeyConfigured request); cbn [negb].
  2: { cbn. split; [lia|]. split; [intros c []|intros r a [= <-] [=]]. }
  destruct (json request) as [e|parsed].
  { cbn [fst snd length]. split; [lia|]. split; [intros c []|].
    intros r a E B. destruct (Hcaught _ _ a E B). }
  destruct (nullish parsed).
  { cbn. split; [lia|]. split; [intros c []|intros r a [= <-] [=]]. }
  destruct (truthy (get parsed (js "text"))) eqn:Ht; cbn [negb].
  2: { cbn. split; [lia|]. split; [intros c []|intros r a [= <-] [=]]. }
  destruct (includes validVoices _) eqn:Hv; cbn [negb].
  2: { cbn. split; [lia|]. split; [intros c []|intros r a [= <-] [=]]. }
  destruct (Number _ _ _) as [parsedSpeed|] eqn:Hn.
  2: { cbn. split; [lia|]. split; [intros c []|intros r a [= <-] [=]]. }
  destruct (speed_rejected _) eqn:Hs.
  { cbn. split; [lia|]. split; [intros c []|intros r a [= <-] [=]]. }
  assert (Hvalid : forall call,
            call = {| model := js "tts-1";
                      voice := default_to (JStr (js "alloy")) (get parsed (js "voice"));
                      input := get parsed (js "text");
                      speed := parsedSpeed |} ->
            true = true
            /\ model call = js "tts-1"
            /\ (exists name, voice call = JStr name /\ In name validVoices)
            /\ truthy (input call) = true
            /\ in_speed_range (speed call) = true
            /\ PrimFloat.is_nan (speed call) = false).
  { intros call ->. cbn [model voice input speed].
    split; [reflexivity|]. split; [reflexivity|].
    split; [apply voice_is_included; exact Hv|]. split; [exact Ht|].
    split.
    - rewrite speed_rejected_spec in Hs. apply negb_false_iff in Hs. exact Hs.
    - unfold speed_rejected in Hs. apply orb_false_iff in Hs as [Hs _].
      apply orb_false_iff in Hs as [Hs _]. exact Hs. }
  cbv zeta. destruct (speech _) as [e|audioData] eqn:Hsp; cbn [fst snd length].
  - split; [lia|]. split.
    + intros c [<-|[]]. apply Hvalid. reflexivity.
    + intros r a E B. destruct (Hcaught _ _ a E B).
  - split; [lia|]. split.
    + intros c [<-|[]]. apply Hvalid. reflexivity.
    + intros r a [= <-] [= <-]. split; [reflexivity|].
      eexists. split; [reflexivity | exact Hsp].
Qed.

End Facts.

End TtsProps.


(* ===================================================================== *)
(** * Properties of the account deletion *)
(* ===================================================================== *)

Module SettingsProps.
Import Firestore FirestoreFacts FirestoreProps Settings.

(** X18. [handleDeleteAccount] does nothing but show a text unless the
    confirmation is exactly [DELETE] and a password was typed: no request
    reaches Firestore or Firebase Auth. And when the deletion of the
    Firestore data throws, Firebase Auth is not called at all: the account
    stays, and the page shows that error and stops loading. *)
Theorem account_deletion_is_guarded (env : Env) (aenv : AuthEnv)
    (deleteConfirmation deletePassword : string) (page : Page) (sys : System) :
  let result := handleDeleteAccount env aenv deleteConfirmation deletePassword page sys in
  (deleteConfirmation <> "DELETE" \/ deletePassword = "" ->
   snd result = sys
   /\ (exists s, error (fst result) = Some (Text s))
   /\ loading (fst result) = loading page
   /\ pushed (fst result) = pushed page)
  /\ (forall u e w',
      deleteConfirmation = "DELETE" -> deletePassword <> "" ->
      currentUser sys = Some u ->
      deleteUserData env (Some (user u)) (world sys) = (Throws e, w') ->
      snd result = with_world sys w'
      /\ error (fst result) = Some (MessageOf (FromFirestore e))
      /\ loading (fst result) = false
      /\ pushed (fst result) = pushed page).
Proof.
  intros result. subst result. unfold handleDeleteAccount. split.
  - intros H.
    destruct (String.eqb_spec deleteConfirmation "DELETE") as [Hc|Hc]; cbn [negb].
    + destruct H as [H|H]; [contradiction|]. subst deletePassword. cbn.
      split; [reflexivity|]. split; [eexists; reflexivity|]. split; reflexivity.
    + cbn. split; [reflexivity|]. split; [eexists; reflexivity|]. split; reflexivity.
  - intros u e w' -> Hp Hu Hd. cbn [String.eqb Ascii.eqb Bool.eqb negb].
    destruct (String.eqb_spec deletePassword "") as [H|_]; [contradiction|].
    unfold try_delete. rewrite Hu, Hd. cbn.
    split; [reflexivity|]. split; [reflexivity|]. split; reflexivity.
Qed.

(** X19. The Firestore data goes before the password is checked. With a
    confirmed deletion and Firestore serving every request, the user's
    settings document and every talk of theirs are deleted whatever
    Firebase Auth then says. When Auth refuses the password or the
    deletion, the account stays, the page shows Auth's error, stops loading
    and does not leave; only when Auth accepts both is the account deleted
    and the page sent to [/]. *)
Theorem data_is_deleted_before_the_password_is_checked (env : Env) (aenv : AuthEnv)
    (deletePassword address : string) (page : Page) (sys : System) (u : AuthUser) :
  deletePassword <> "" ->
  currentUser sys = Some u ->
  email u = Some address ->
  address <> "" ->
  (forall r, rejects env r = false) ->
  let result := handleDeleteAccount env aenv "DELETE" deletePassword page sys in
  let reauthenticate := Reauthenticate address deletePassword in
  let delete := DeleteUser (uid (user u)) in
  store (world (snd result)) !! (USERS_COLLECTION, uid (user u)) = None
  /\ (forall i d,
      store (world sys) !! (TALK_HISTORY_COLLECTION, i) = Some d ->
      d !! "userId" = Some (VString (uid (user u))) ->
      store (world (snd result)) !! (TALK_HISTORY_COLLECTION, i) = None)
  /\ (auth_rejects aenv reauthenticate = true ->
      account (snd result) = account sys
      /\ auth_sent (snd result) = auth_sent sys ++ [reauthenticate]
      /\ error (fst result) = Some (MessageOf (AuthError reauthenticate))
      /\ loading (fst result) = false
      /\ pushed (fst result) = pushed page)
  /\ (auth_rejects aenv reauthenticate = false -> auth_rejects aenv delete = true ->
      account (snd result) = account sys
      /\ error (fst result) = Some (MessageOf (AuthError delete))
      /\ pushed (fst result) = pushed page)
  /\ (auth_rejects aenv reauthenticate = false -> auth_rejects aenv delete = false ->
      account (snd result) = false
      /\ auth_sent (snd result) = auth_sent sys ++ [reauthenticate; delete]
      /\ error (fst result) = None
      /\ pushed (fst result) = pushed page ++ ["/"]).
Proof.
  intros Hp Hu He Ha Hserve result reauthenticate delete.
  destruct (deleteUserData_settled env (user u) (world sys) (Hserve _) (Hserve _))
    as (_ & _ & Hh & Hl & Hr & _).
  assert (Hok : fst (deleteUserData env (Some (user u)) (world sys)) = Ok tt)
    by (apply Hr; intros ref _; apply Hserve).
  assert (Hfalsy : falsy (email u) = false).
  { rewrite He. cbn. apply String.eqb_neq. exact Ha. }
  assert (Hw : world (snd result) = snd (deleteUserData env (Some (user u)) (world sys))
               /\ (auth_rejects aenv reauthenticate = true ->
                   account (snd result) = account sys
                   /\ auth_sent (snd result) = auth_sent sys ++ [reauthenticate]
                   /\ error (fst result) = Some (MessageOf (AuthError reauthenticate))
                   /\ loading (fst result) = false
                   /\ pushed (fst result) = pushed page)
               /\ (auth_rejects aenv reauthenticate = false -> auth_rejects aenv delete = true ->
                   account (snd result) = account sys
                   /\ error (fst result) = Some (MessageOf (AuthError delete))
                   /\ pushed (fst result) = pushed page)
               /\ (auth_rejects aenv reauthenticate = false -> auth_rejects aenv delete = false ->
                   account (snd result) = false
                   /\ auth_sent (snd result) = auth_sent sys ++ [reauthenticate; delete]
                   /\ error (fst result) = None
                   /\ pushed (fst result) = pushed page ++ ["/"])).
  { subst result reauthenticate delete. unfold handleDeleteAccount.
    cbn [String.eqb Ascii.eqb Bool.eqb negb].
    destruct (String.eqb_spec deletePassword "") as [H|_]; [contradiction|].
    unfold try_delete. rewrite Hu.
    destruct (deleteUserData env (Some (user u)) (world sys)) as [[[]|e] w'];
      cbn [fst] in Hok; [|discriminate].
    unfold deleteUserAccount, with_world. cbn [currentUser world account auth_sent].
    rewrite Hu, Hfalsy, He.
    destruct (auth_rejects aenv (Reauthenticate address deletePassword)).
    - cbn. split; [reflexivity|]. split; [intros _; repeat split|].
      split; intros [=].
    - destruct (auth_rejects aenv (DeleteUser (uid (user u)))).
      + cbn. split; [reflexivity|]. split; [intros [=]|].
        split; [intros _ _; repeat split | intros _ [=]].
      + cbn. split; [reflexivity|]. split; [intros [=]|].
        split; [intros _ [=]|]. intros _ _. split; [reflexivity|].
        split; [rewrite <- app_assoc; reflexivity|]. split; reflexivity. }
  destruct Hw as (Hw & H1 & H2 & H3).
  split; [|split; [|split; [exact H1 | split; [exact H2 | exact H3]]]].
  - rewrite Hw, Hl. rewrite bool_decide_eq_true_2 by reflexivity. reflexivity.
  - intros i d Hd Hid. rewrite Hw, Hl.
    rewrite bool_decide_eq_false_2 by discriminate.
    rewrite bool_decide_eq_true_2, Hserve; [reflexivity|].
    apply Hh. exists d. split; [exact Hd|]. apply matches_spec. split; [reflexivity | exact Hid].
Qed.

(** Alice mistypes her password: her settings and her talks are gone, her
    account is still there. *)
Lemma data_is_deleted_before_the_password_is_checked_witness :
  "secret" <> ""
  /\ "alice@example.com" <> ""
  /\ (forall r, rejects (serving 10) r = false)
  /\ store (world (snd (handleDeleteAccount (serving 10) wrong_password "DELETE" "secret"
                          settings_page alice_signed_in))) !! ("users", "alice") = None
  /\ account (snd (handleDeleteAccount (serving 10) wrong_password "DELETE" "secret"
                     settings_page alice_signed_in)) = true.
Proof.
  assert (H1 : "secret" <> "") by discriminate.
  assert (H2 : "alice@example.com" <> "") by discriminate.
  split; [exact H1|]. split; [exact H2|]. split; [intros r; reflexivity|].
  destruct (data_is_deleted_before_the_password_is_checked (serving 10) wrong_password
              "secret" "alice@example.com" settings_page alice_signed_in
              {| user := alice; email := Some "alice@example.com" |}
              H1 eq_refl eq_refl H2 (fun r => eq_refl))
    as (A & _ & B & _).
  split; [exact A|]. exact (proj1 (B eq_refl)).
Defined.

End SettingsProps.


(* ===================================================================== *)
(** * Properties of the saved conversations *)
(* ===================================================================== *)

Module ConversationProps.
Import JS JSFacts Firestore FirestoreFacts FirestoreProps Conversation.

Lemma starts_with_spec (sub s : jsstring) :
  starts_with sub s = true <-> exists post, s = sub ++ post.
Proof.
  revert s. induction sub as [|x sub IH]; intros s; cbn.
  - split; [intros _; exists s; reflexivity | reflexivity].
  - destruct s as [|y s]; [split; [discriminate | intros [post [=]]]|].
    rewrite andb_true_iff, N.eqb_eq, IH. split.
    + intros [-> [post ->]]. exists post. reflexivity.
    + intros [post [= -> ->]]. split; [reflexivity | exists post; reflexivity].
Qed.

(** [includes] is the occurrence of one string in another. *)
Lemma includes_spec (s sub : jsstring) :
  includes s sub = true <-> exists pre post, s = pre ++ sub ++ post.
Proof.
  induction s as [|c s IH].
  - cbn [includes]. rewrite orb_false_r, starts_with_spec. split.
    + intros [post H]. exists [], post. exact H.
    + intros (pre & post & H). destruct pre; [exists post; exact H|discriminate].
  - cbn [includes]. rewrite orb_true_iff, starts_with_spec, IH. split.
    + intros [[post H]|(pre & post & H)].
      * exists [], post. exact H.
      * exists (c :: pre), post. rewrite H. reflexivity.
    + intros (pre & post & H). destruct pre as [|c' pre].
      * left. exists post. exact H.
      * right. injection H as -> H. exists pre, post. exact H.
Qed.

Lemma unique_from_NoDup (l seen : list string) :
  NoDup l -> (forall x, In x seen -> ~ In x l) -> unique_from seen l = l.
Proof.
  revert seen. induction l as [|x l IH]; intros seen Hn Hs; [reflexivity|].
  cbn [unique_from].
  destruct (existsb (String.eqb x) seen) eqn:E.
  - apply existsb_exists in E as (y & Hy & Heq). apply String.eqb_eq in Heq. subst y.
    exfalso. apply (Hs x Hy). left. reflexivity.
  - apply NoDup_cons in Hn as [Hx Hn]. f_equal. apply IH; [exact Hn|].
    intros y [<-|Hy] Hin; [apply Hx, list_elem_of_In; exact Hin|].
    apply (Hs y Hy). right. exact Hin.
Qed.

Lemma NoDup_map_fst_filter {A B : Type} (f : A * B -> bool) (l : list (A * B)) :
  NoDup (map fst l) -> NoDup (map fst (List.filter f l)).
Proof.
  induction l as [|x l IH]; cbn; [intros H; exact H|].
  intros H. apply NoDup_cons in H as [Hx Hn].
  destruct (f x); [|apply IH; exact Hn].
  cbn. apply NoDup_cons. split; [|apply IH; exact Hn].
  intros Hin. apply Hx. apply list_elem_of_In. apply list_elem_of_In in Hin.
  apply in_map_iff in Hin as (y & Hy & Hin).
  apply List.filter_In in Hin as [Hin _]. apply in_map_iff. exists y. auto.
Qed.

Lemma topic_names_NoDup : NoDup (map fst topicKeywords).
Proof.
  apply NoDup_ListNoDup. cbn.
  repeat (apply List.NoDup_cons; [cbn; intuition discriminate|]). apply List.NoDup_nil.
Qed.

Section Facts.

Variable toLowerCase : jsstring -> jsstring.
Variable date_leb : Value -> Value -> bool.

Local Abbreviation mentions := (mentions toLowerCase).
Local Abbreviation matchedTopics := (matchedTopics toLowerCase).
Local Abbreviation extractTopics := (extractTopics toLowerCase).
Local Abbreviation historyItem := (historyItem toLowerCase).
Local Abbreviation saveConversationToFirebase := (saveConversationToFirebase toLowerCase).

Lemma matchedTopics_NoDup (text : jsstring) : NoDup (matchedTopics text).
Proof. apply NoDup_map_fst_filter. exact topic_names_NoDup. Qed.

Lemma matchedTopics_spec (text : jsstring) (t : string) :
  In t (matchedTopics text)
  <-> exists keywords k pre post,
        In (t, keywords) topicKeywords /\ In k keywords
        /\ toLowerCase text = pre ++ toLowerCase (js k) ++ post.
Proof.
  unfold Conversation.matchedTopics. rewrite in_map_iff. split.
  - intros ([t' keywords] & <- & Hin). apply List.filter_In in Hin as [Hin Hm].
    apply existsb_exists in Hm as (k & Hk & Hi). apply includes_spec in Hi as (pre & post & Hi).
    exists keywords, k, pre, post. auto.
  - intros (keywords & k & pre & post & Hin & Hk & Hi). exists (t, keywords).
    split; [reflexivity|]. apply List.filter_In. split; [exact Hin|].
    apply existsb_exists. exists k. split; [exact Hk|]. apply includes_spec.
    exists pre, post. exact Hi.
Qed.

Lemma extractTopics_firstn (text : jsstring) :
  extractTopics text = firstn 5 (matchedTopics text)
  /\ (length (extractTopics text) <= 5)%nat.
Proof.
  assert (E : extractTopics text = firstn 5 (matchedTopics text)).
  { unfold Conversation.extractTopics, unique.
    rewrite unique_from_NoDup; [reflexivity | apply matchedTopics_NoDup | intros x []]. }
  split; [exact E | rewrite E; apply firstn_le_length].
Qed.

(** X20. [extractTopics] returns at most five topics, each once, in the order
    of the table: the first five of the topics one of whose keywords
    occurs, as a substring, in the lower-cased text. Every topic is
    returned when no more than five match; a sixth match is dropped. *)
Theorem extractTopics_first_five_matches (text : jsstring) :
  (length (extractTopics text) <= 5)%nat
  /\ NoDup (extractTopics text)
  /\ extractTopics text = firstn 5 (matchedTopics text)
  /\ (forall t, In t (matchedTopics text)
                <-> exists keywords k pre post,
                      In (t, keywords) topicKeywords /\ In k keywords
                      /\ toLowerCase text = pre ++ toLowerCase (js k) ++ post)
  /\ (forall t, In t (extractTopics text) -> In t (matchedTopics text))
  /\ ((length (matchedTopics text) <= 5)%nat -> extractTopics text = matchedTopics text)
  /\ ((5 < length (matchedTopics text))%nat ->
      exists t, In t (matchedTopics text) /\ ~ In t (extractTopics text)).
Proof.
  destruct (extractTopics_firstn text) as [E Hlen].
  pose proof (matchedTopics_NoDup text) as Hn.
  split; [exact Hlen|].
  split; [rewrite E; rewrite <- (firstn_skipn 5 (matchedTopics text)) in Hn;
          apply NoDup_app in Hn as (Hn & _); exact Hn|].
  split; [exact E|]. split; [apply matchedTopics_spec|].
  split; [intros t Hin; rewrite E in Hin;
          rewrite <- (firstn_skipn 5 (matchedTopics text)); apply in_or_app; left; exact Hin|].
  split; [intros H; rewrite E; apply firstn_all2; exact H|].
  intros H. rewrite E.
  rewrite <- (firstn_skipn 5 (matchedTopics text)) in Hn.
  destruct (List.skipn 5 (matchedTopics text)) as [|t rest] eqn:Hs.
  { exfalso.
    assert (Hl : length (List.skipn 5 (matchedTopics text)) = 0%nat) by (rewrite Hs; reflexivity).
    rewrite length_drop in Hl. lia. }
  exists t. split.
  - rewrite <- (firstn_skipn 5 (matchedTopics text)), Hs. apply in_or_app. right. left.
    reflexivity.
  - intros Hin. apply NoDup_app in Hn as (_ & Hd & _).
    apply (Hd t); [apply list_elem_of_In; exact Hin | left].
Qed.

Lemma mentions_spec (lowercaseText : jsstring) (keywords : list string) :
  mentions lowercaseText keywords = true
  <-> exists k pre post, In k keywords /\ lowercaseText = pre ++ toLowerCase (js k) ++ post.
Proof.
  unfold Conversation.mentions. rewrite existsb_exists. split.
  - intros (k & Hk & Hi). apply includes_spec in Hi as (pre & post & Hi). eauto.
  - intros (k & pre & post & Hk & Hi). exists k. split; [exact Hk|].
    apply includes_spec. eauto.
Qed.

(** X21. Keywords are matched inside words: [eat] occurs in [weather], so every
    text that mentions the weather is filed under Food as well as under
    Weather ([toLowerCase] leaving the two keywords as they are, as it
    does). *)
Theorem keywords_match_inside_words (text : jsstring) :
  toLowerCase (js "weather") = js "weather" ->
  toLowerCase (js "eat") = js "eat" ->
  (exists pre post, toLowerCase text = pre ++ js "weather" ++ post) ->
  exists rest, extractTopics text = "Weather" :: "Food" :: rest.
Proof.
  intros Hw He (pre & post & Ht).
  assert (H1 : mentions (toLowerCase text)
                 ["weather"; "rain"; "sunny"; "cold"; "hot"; "temperature"; "wind"; "forecast"]
               = true).
  { apply mentions_spec. exists "weather", pre, post. rewrite Hw.
    split; [left; reflexivity | exact Ht]. }
  assert (H2 : mentions (toLowerCase text)
                 ["food"; "eat"; "restaurant"; "cooking"; "recipe"; "delicious"; "meal";
                  "dinner"; "lunch"] = true).
  { apply mentions_spec. exists "eat", (pre ++ js "w"), (js "her" ++ post). rewrite He.
    split; [right; left; reflexivity|]. rewrite Ht, <- !app_assoc. reflexivity. }
  destruct (extractTopics_firstn text) as [E _].
  rewrite E. unfold Conversation.matchedTopics.
  assert (Ht' : topicKeywords
                = ("Weather", ["weather"; "rain"; "sunny"; "cold"; "hot"; "temperature"; "wind";
                               "forecast"])
                  :: ("Food", ["food"; "eat"; "restaurant"; "cooking"; "recipe"; "delicious";
                               "meal"; "dinner"; "lunch"])
                  :: List.skipn 2 topicKeywords) by reflexivity.
  rewrite Ht'. generalize (List.skipn 2 topicKeywords). intros others.
  cbn [List.filter snd]. rewrite H1, H2. cbn [map fst firstn].
  eexists. reflexivity.
Qed.

Lemma score_of_bounds (count : Z) :
  50 <= score_of count <= 100
  /\ (count <= 5 -> score_of count = 50)
  /\ (5 <= count <= 10 -> score_of count = 10 * count)
  /\ (10 <= count -> score_of count = 100).
Proof. unfold score_of. cbv zeta. lia. Qed.

Lemma saved_lookups (env : Env) (durationSeconds : Z) (page : Page) (i : string) :
  let saved := <["id" := VString i]> (historyItem env durationSeconds page) in
  saved !! "userId" = Some (VString (userId_of (currentUser page)))
  /\ saved !! "date" = Some (VTimestamp (now env))
  /\ saved !! "score" = Some (VNumber (score_of (Z.of_nat (length (messages page)))))
  /\ saved !! "topics"
     = Some (VArray (map VString
                       (extractTopics (js (String.concat " " (map content (messages page)))))))
  /\ saved !! "id" = Some (VString i).
Proof.
  cbv zeta. unfold Conversation.historyItem.
  repeat split;
    repeat (first [ apply lookup_insert_eq | rewrite lookup_insert_ne by discriminate ]).
Qed.

Lemma saveConversationToFirebase_served (env : Env) (durationSeconds : Z) (page : Page)
    (w : World) :
  skipped page = false ->
  rejects env (SetDoc (TALK_HISTORY_COLLECTION, new_id env)
                 (<["id" := VString (new_id env)]> (historyItem env durationSeconds page)))
  = false ->
  snd (saveConversationToFirebase env durationSeconds page w)
  = {| store := <[(TALK_HISTORY_COLLECTION, new_id env) :=
                    <["id" := VString (new_id env)]> (historyItem env durationSeconds page)]>
                  (store w);
       sent := sent w ++ [SetDoc (TALK_HISTORY_COLLECTION, new_id env)
                            (<["id" := VString (new_id env)]>
                               (historyItem env durationSeconds page))] |}.
Proof.
  intros Hs Hr. unfold Conversation.saveConversationToFirebase. rewrite Hs. cbn [snd].
  unfold saveTalkHistory, bind, setDoc. rewrite (request_served _ _ _ _ Hr). reflexivity.
Qed.

(** X22. [saveConversationToFirebase] never throws. It sends nothing unless the
    user is signed in, the conversation has started and the render has at
    least three messages; then it sends one write, of a new talk. Once
    written, the talk has a score from 50 to 100, at most five topics and
    the user's id, and the user's [getUserTalkHistory] lists it. *)
Theorem conversation_is_saved_as_a_talk (env : Env) (durationSeconds : Z) (page : Page)
    (w : World) :
  let result := saveConversationToFirebase env durationSeconds page w in
  let saved := <["id" := VString (new_id env)]> (historyItem env durationSeconds page) in
  let write := SetDoc (TALK_HISTORY_COLLECTION, new_id env) saved in
  fst result = Ok tt
  /\ (skipped page = true -> snd result = w)
  /\ (skipped page = false -> sent (snd result) = sent w ++ [write])
  /\ (skipped page = false -> rejects env write = false ->
      store (snd result) = <[(TALK_HISTORY_COLLECTION, new_id env) := saved]> (store w)
      /\ (exists score, saved !! "score" = Some (VNumber score) /\ 50 <= score <= 100)
      /\ (exists topics, saved !! "topics" = Some (VArray (map VString topics))
                         /\ (length topics <= 5)%nat)
      /\ saved !! "userId" = Some (VString (userId_of (currentUser page)))
      /\ (rejects env (GetDocs TALK_HISTORY_COLLECTION (userId_of (currentUser page))) = false ->
          exists docs,
            fst (getUserTalkHistory date_leb env (userId_of (currentUser page)) (snd result))
            = Ok docs
            /\ In saved docs)).
Proof.
  intros result saved write. subst result.
  split; [unfold Conversation.saveConversationToFirebase; destruct (skipped page); reflexivity|].
  split; [intros Hs; unfold Conversation.saveConversationToFirebase; rewrite Hs; reflexivity|].
  split.
  - intros Hs. unfold Conversation.saveConversationToFirebase. rewrite Hs. cbn [snd].
    unfold saveTalkHistory, bind, setDoc, request.
    fold saved. fold write. destruct (rejects env write); reflexivity.
  - intros Hs Hr.
    rewrite (saveConversationToFirebase_served env durationSeconds page w Hs Hr).
    cbn [store]. fold saved.
    destruct (saved_lookups env durationSeconds page (new_id env)) as (L1 & L2 & L3 & L4 & _).
    fold saved in L1, L2, L3, L4.
    split; [reflexivity|].
    split; [eexists; split; [exact L3 | apply score_of_bounds]|].
    split; [eexists; split; [exact L4 | apply extractTopics_firstn]|].
    split; [exact L1|].
    intros Hq. rewrite (getUserTalkHistory_served date_leb env _ _ Hq). cbn [fst store].
    eexists. split; [reflexivity|]. apply listed_spec. exists (new_id env).
    split; [apply lookup_insert_eq|]. split; [exact L1|]. eexists. exact L2.
Qed.

(** X23. Each call of [saveConversationToFirebase] creates a talk of its own
    (the ids Firestore generates being distinct): two calls for the same
    user leave two talks, both listed in the user's history, the earlier
    one neither replaced nor updated. The page calls it after every
    exchange from the fifth message on. *)
Theorem every_save_adds_another_talk (env1 env2 : Env) (d1 d2 : Z) (page1 page2 : Page)
    (w : World) :
  skipped page1 = false -> skipped page2 = false ->
  (forall r, rejects env1 r = false) -> (forall r, rejects env2 r = false) ->
  new_id env1 <> new_id env2 ->
  currentUser page2 = currentUser page1 ->
  let w1 := snd (saveConversationToFirebase env1 d1 page1 w) in
  let w2 := snd (saveConversationToFirebase env2 d2 page2 w1) in
  let saved1 := <["id" := VString (new_id env1)]> (historyItem env1 d1 page1) in
  let saved2 := <["id" := VString (new_id env2)]> (historyItem env2 d2 page2) in
  store w2 !! (TALK_HISTORY_COLLECTION, new_id env1) = Some saved1
  /\ store w2 !! (TALK_HISTORY_COLLECTION, new_id env2) = Some saved2
  /\ saved1 <> saved2
  /\ exists docs,
       fst (getUserTalkHistory date_leb env2 (userId_of (currentUser page1)) w2) = Ok docs
       /\ In saved1 docs /\ In saved2 docs.
Proof.
  intros Hs1 Hs2 Hr1 Hr2 Hid Hu w1 w2 saved1 saved2. subst w1 w2.
  rewrite (saveConversationToFirebase_served env1 d1 page1 w Hs1 (Hr1 _)).
  rewrite (saveConversationToFirebase_served env2 d2 page2 _ Hs2 (Hr2 _)).
  cbn [store]. fold saved1 saved2.
  destruct (saved_lookups env1 d1 page1 (new_id env1)) as (A1 & A2 & _ & _ & A5).
  destruct (saved_lookups env2 d2 page2 (new_id env2)) as (B1 & B2 & _ & _ & B5).
  fold saved1 in A1, A2, A5. fold saved2 in B1, B2, B5. rewrite Hu in B1.
  assert (L1 : (<[(TALK_HISTORY_COLLECTION, new_id env2) := saved2]>
                  (<[(TALK_HISTORY_COLLECTION, new_id env1) := saved1]> (store w)) : Store)
               !! (TALK_HISTORY_COLLECTION, new_id env1) = Some saved1).
  { rewrite lookup_insert_ne by congruence. apply lookup_insert_eq. }
  split; [exact L1|]. split; [apply lookup_insert_eq|].
  split; [intros E; rewrite E, B5 in A5; congruence|].
  rewrite (getUserTalkHistory_served date_leb env2 _ _ (Hr2 _)). cbn [fst store].
  eexists. split; [reflexivity|]. split; apply listed_spec.
  - exists (new_id env1). split; [exact L1|]. split; [exact A1 | eexists; exact A2].
  - exists (new_id env2). split; [apply lookup_insert_eq|].
    split; [exact B1 | eexists; exact B2].
Qed.

End Facts.

Lemma keywords_match_inside_words_witness :
  ascii_toLowerCase (js "weather") = js "weather"
  /\ ascii_toLowerCase (js "eat") = js "eat"
  /\ (exists pre post,
        ascii_toLowerCase (js "The Weather is nice") = pre ++ js "weather" ++ post)
  /\ exists rest,
       extractTopics ascii_toLowerCase (js "The Weather is nice") = "Weather" :: "Food" :: rest.
Proof.
  assert (H : exists pre post,
             ascii_toLowerCase (js "The Weather is nice") = pre ++ js "weather" ++ post)
    by (exists (js "the "), (js " is nice"); reflexivity).
  split; [reflexivity|]. split; [reflexivity|]. split; [exact H|].
  exact (keywords_match_inside_words ascii_toLowerCase (js "The Weather is nice")
           eq_refl eq_refl H).
Defined.

Lemma every_save_adds_another_talk_witness :
  skipped small_talk = false /\ skipped longer_talk = false
  /\ (forall r, rejects (serving_as 10 "h3") r = false)
  /\ (forall r, rejects (serving_as 20 "h4") r = false)
  /\ new_id (serving_as 10 "h3") <> new_id (serving_as 20 "h4")
  /\ exists docs,
       fst (getUserTalkHistory by_timestamp (serving_as 20 "h4") "alice"
              (snd (saveConversationToFirebase ascii_toLowerCase (serving_as 20 "h4") 4
                      longer_talk
                      (snd (saveConversationToFirebase ascii_toLowerCase (serving_as 10 "h3") 2
                              small_talk sample_world)))))
       = Ok docs
       /\ In (<["id" := VString "h3"]>
                (historyItem ascii_toLowerCase (serving_as 10 "h3") 2 small_talk)) docs
       /\ In (<["id" := VString "h4"]>
                (historyItem ascii_toLowerCase (serving_as 20 "h4") 4 longer_talk)) docs.
Proof.
  assert (Hid : new_id (serving_as 10 "h3") <> new_id (serving_as 20 "h4")) by discriminate.
  split; [reflexivity|]. split; [reflexivity|].
  split; [intros r; reflexivity|]. split; [intros r; reflexivity|]. split; [exact Hid|].
  exact (proj2 (proj2 (proj2
           (every_save_adds_another_talk ascii_toLowerCase by_timestamp
              (serving_as 10 "h3") (serving_as 20 "h4") 2 4 small_talk longer_talk sample_world
              eq_refl eq_refl (fun r => eq_refl) (fun r => eq_refl) Hid eq_refl)))).
Defined.

(** ** The exchange with [/api/chat] *)

Lemma format_chat_body (systemMessage : string) (messages : list Message)
    (transcription : string) :
  ChatRoute.format
    (ChatRoute.elements (get (chat_body systemMessage messages transcription) (js "messages")))
  = inr (ChatRoute.request_messages (chat_call systemMessage messages transcription)).
Proof.
  unfold chat_body, chat_call. cbn [ChatRoute.request_messages].
  generalize (chat_messages systemMessage messages transcription). intros l.
  cbn [ChatRoute.received flat_map snd fst app get lookup_field].
  replace (jseqb (js "messages") (js "messages")) with true by reflexivity.
  cbn [ChatRoute.elements]. rewrite map_map.
  induction l as [|[r c] l IH]; [reflexivity|].
  cbn [map ChatRoute.format fst snd]. rewrite IH. reflexivity.
Qed.

Lemma received_message (m : JSValue) :
  nullish (ChatRoute.received (JObj [(js "message", m)])) = false
  /\ get (ChatRoute.received (JObj [(js "message", m)])) (js "message") = ChatRoute.received m.
Proof. destruct m; split; reflexivity. Qed.

(** X25. The voice conversation page and the [/api/chat] handler agree: the
    handler is asked once, for the system message, the messages of the
    render and the transcription, in this order; when OpenAI answers with a
    first choice, the assistant message the page adds has the [content] of
    that choice's [message] (the page throws when the choice has no
    message); when OpenAI fails in any way, the page throws
    [Failed to get AI response]. *)
Theorem voice_page_reads_the_answer
    (create : ChatRoute.CompletionRequest -> Thrown + JSValue)
    (systemMessage : string) (messages : list Message) (transcription : string) :
  let call := chat_call systemMessage messages transcription in
  let result := exchange create systemMessage messages transcription in
  ChatRoute.calls create (inr (chat_body systemMessage messages transcription)) = [call]
  /\ (ChatRoute.completed create call = false ->
      result = inl (new_Error (js "Failed to get AI response")))
  /\ (forall completion, create call = inr completion ->
      ChatRoute.completed create call = true ->
      let answer := ChatRoute.received (first_message completion) in
      (nullish answer = false -> result = inr (get answer (js "content")))
      /\ (nullish answer = true -> exists e, result = inl e)).
Proof.
  intros call result. subst result.
  pose proof (format_chat_body systemMessage messages transcription) as Hf.
  unfold exchange, ChatRoute.POST, ChatRoute.calls, ChatRoute.try_POST, ChatRoute.completed.
  assert (Hn : nullish (chat_body systemMessage messages transcription) = false) by reflexivity.
  assert (Ht : truthy (get (chat_body systemMessage messages transcription) (js "messages"))
               = true) by reflexivity.
  assert (Ha : ChatRoute.Array_isArray
                 (get (chat_body systemMessage messages transcription) (js "messages")) = true)
    by reflexivity.
  rewrite Hn, Ht, Ha, Hf. cbn [negb orb].
  change {| ChatRoute.model := js "gpt-4o";
            ChatRoute.request_messages :=
              ChatRoute.request_messages (chat_call systemMessage messages transcription);
            ChatRoute.temperature := 0.7%float; ChatRoute.max_tokens := 500 |}
    with call.
  destruct (create call) as [e|completion].
  { cbn. split; [reflexivity|]. split; [reflexivity | intros c [=]]. }
  destruct (nullish completion); cbn [negb andb fst snd];
    [split; [reflexivity|]; split; [reflexivity | intros c _ [=]]|].
  destruct (nullish (get completion (js "choices"))); cbn [negb andb fst snd];
    [split; [reflexivity|]; split; [reflexivity | intros c _ [=]]|].
  destruct (nullish (get0 (get completion (js "choices")))); cbn [negb andb fst snd];
    [split; [reflexivity|]; split; [reflexivity | intros c _ [=]]|].
  split; [reflexivity|]. split; [intros [=]|].
  intros c [= <-] _. cbv zeta. cbn [ChatRoute.status ChatRoute.payload].
  change ((200 <=? 200) && (200 <=? 299)) with true. cbn [negb].
  fold (first_message completion).
  destruct (received_message (first_message completion)) as [H1 H2].
  rewrite H1, H2.
  destruct (nullish (ChatRoute.received (first_message completion)));
    split; try discriminate; intros _; [eexists|]; reflexivity.
Qed.

End ConversationProps.


(* ===================================================================== *)
(** * Properties of the most talked topics *)
(* ===================================================================== *)

Module HistoryProps.
Import History.

(** ** The stable sort *)

Section Sorting.

Context {A : Type}.
Variable precedes : A -> A -> bool.

Lemma insert_sorted_Permutation (x : A) (l : list A) :
  Permutation (insert_sorted precedes x l) (x :: l).
Proof.
  induction l as [|y l IH]; cbn; [reflexivity|].
  destruct (precedes x y); [reflexivity|].
  rewrite IH. apply perm_swap.
Qed.

Lemma stable_sort_Permutation (l : list A) : Permutation (stable_sort precedes l) l.
Proof.
  induction l as [|x l IH]; cbn; [reflexivity|].
  rewrite insert_sorted_Permutation, IH. reflexivity.
Qed.

Hypothesis precedes_total : forall a b, precedes a b = true \/ precedes b a = true.
Hypothesis precedes_trans :
  forall a b c, precedes a b = true -> precedes b c = true -> precedes a c = true.

Lemma insert_sorted_sorted (x : A) (l : list A) :
  StronglySorted (fun a b => precedes a b = true) l ->
  StronglySorted (fun a b => precedes a b = true) (insert_sorted precedes x l).
Proof.
  induction 1 as [|y l Hl IH Hy]; cbn; [repeat constructor|].
  destruct (precedes x y) eqn:E.
  - constructor; [constructor; assumption|].
    constructor; [exact E|].
    eapply List.Forall_impl; [|exact Hy]. intros z Hz. eapply precedes_trans; eassumption.
  - constructor; [exact IH|].
    assert (Hyx : precedes y x = true) by (destruct (precedes_total x y); congruence).
    eapply Permutation_Forall; [symmetry; apply insert_sorted_Permutation|].
    constructor; assumption.
Qed.

Lemma stable_sort_sorted (l : list A) :
  StronglySorted (fun a b => precedes a b = true) (stable_sort precedes l).
Proof.
  induction l as [|x l IH]; cbn; [constructor|]. apply insert_sorted_sorted. exact IH.
Qed.

End Sorting.

Lemma StronglySorted_firstn_skipn {A : Type} (R : A -> A -> Prop) (n : nat) (l : list A) :
  StronglySorted R l ->
  forall a b, In a (firstn n l) -> In b (skipn n l) -> R a b.
Proof.
  intros H. revert n. induction H as [|x l Hl IH Hx]; intros n a b Ha Hb.
  - destruct n; cbn in Ha; contradiction.
  - destruct n as [|n]; cbn in Ha, Hb; [contradiction|].
    destruct Ha as [<-|Ha].
    + rewrite Forall_forall in Hx. apply Hx.
      apply list_elem_of_In. rewrite <- (firstn_skipn n l). apply in_or_app. right. exact Hb.
    + apply (IH n); assumption.
Qed.

Lemma StronglySorted_firstn {A : Type} (R : A -> A -> Prop) (n : nat) (l : list A) :
  StronglySorted R l -> StronglySorted R (firstn n l).
Proof.
  intros H. revert n. induction H as [|x l Hl IH Hx]; intros [|n]; cbn; try constructor.
  - apply IH.
  - rewrite Forall_forall in *. intros y Hy. apply Hx.
    apply list_elem_of_In. apply list_elem_of_In in Hy.
    rewrite <- (firstn_skipn n l). apply in_or_app. left. exact Hy.
Qed.

Lemma filter_partition_Permutation {A : Type} (p : A -> bool) (l : list A) :
  Permutation (List.filter p l ++ List.filter (fun x => negb (p x)) l) l.
Proof.
  induction l as [|x l IH]; cbn; [reflexivity|].
  destruct (p x); cbn.
  - constructor. exact IH.
  - rewrite <- Permutation_middle. constructor. exact IH.
Qed.

Lemma Object_entries_Permutation (o : TopicCount) : Permutation (Object_entries o) o.
Proof.
  unfold Object_entries. rewrite stable_sort_Permutation. apply filter_partition_Permutation.
Qed.

(** ** The counts *)

Lemma bump_keys (t : string) (acc : TopicCount) (k : string) :
  In k (map fst (bump t acc)) <-> k = t \/ In k (map fst acc).
Proof.
  induction acc as [|[k' n] acc IH]; cbn.
  - intuition congruence.
  - destruct (String.eqb_spec k' t) as [->|Hne]; cbn.
    + intuition congruence.
    + rewrite IH. intuition congruence.
Qed.

Lemma bump_NoDup (t : string) (acc : TopicCount) :
  NoDup (map fst acc) -> NoDup (map fst (bump t acc)).
Proof.
  induction acc as [|[k' n] acc IH]; cbn; intros H.
  - apply NoDup_singleton.
  - apply NoDup_cons in H as [Hk H].
    destruct (String.eqb_spec k' t) as [->|Hne]; cbn.
    + apply NoDup_cons. split; assumption.
    + apply NoDup_cons. split; [|apply IH; exact H].
      intros Hin. apply list_elem_of_In, bump_keys in Hin as [->|Hin]; [congruence|].
      apply Hk, list_elem_of_In. exact Hin.
Qed.

Lemma bump_count (t : string) (acc : TopicCount) (k : string) :
  count_in (bump t acc) k = count_in acc k + (if String.eqb t k then 1 else 0).
Proof.
  induction acc as [|[k' n] acc IH]; cbn.
  - destruct (String.eqb t k); lia.
  - destruct (String.eqb_spec k' t) as [->|Hne]; cbn.
    + destruct (String.eqb t k); [destruct (n =? 0) eqn:E; lia | lia].
    + destruct (String.eqb_spec k' k) as [->|Hk].
      * destruct (String.eqb_spec t k); [congruence | lia].
      * exact IH.
Qed.

Lemma count_in_In (acc : TopicCount) (k : string) (n : Z) :
  NoDup (map fst acc) ->
  (In (k, n) acc <-> In k (map fst acc) /\ count_in acc k = n).
Proof.
  induction acc as [|[k' n'] acc IH]; cbn; intros H; [tauto|].
  apply NoDup_cons in H as [Hk H]. specialize (IH H).
  destruct (String.eqb_spec k' k) as [->|Hne].
  - split.
    + intros [[= ->]|Hin]; [auto|].
      exfalso. apply Hk, list_elem_of_In, in_map_iff. exists (k, n). auto.
    + intros [_ ->]. left. reflexivity.
  - rewrite IH. split.
    + intros [[= -> ->]|[H1 H2]]; [congruence | auto].
    + intros [[Heq|H1] H2]; [congruence | auto].
Qed.

Lemma topicCount_flat (history : list (list string)) :
  topicCount history = fold_left (fun acc topic => bump topic acc) (concat history) [].
Proof.
  unfold topicCount. generalize (@nil (string * Z)).
  induction history as [|talk history IH]; intros acc; cbn; [reflexivity|].
  rewrite fold_left_app. apply IH.
Qed.

Lemma fold_bump (l : list string) :
  forall acc, NoDup (map fst acc) ->
  let final := fold_left (fun acc topic => bump topic acc) l acc in
  NoDup (map fst final)
  /\ (forall k, In k (map fst final) <-> In k (map fst acc) \/ In k l)
  /\ (forall k, count_in final k = count_in acc k + Z.of_nat (count_occ string_dec l k)).
Proof.
  induction l as [|t l IH]; intros acc Hn; cbn.
  - split; [exact Hn|]. split; [tauto | intros; lia].
  - destruct (IH (bump t acc) (bump_NoDup t acc Hn)) as (H1 & H2 & H3).
    split; [exact H1|]. split.
    + intros k. rewrite H2, bump_keys. intuition congruence.
    + intros k. rewrite H3, bump_count.
      destruct (string_dec t k) as [->|Hne].
      * rewrite String.eqb_refl. lia.
      * destruct (String.eqb_spec t k); [congruence | lia].
Qed.

Lemma topicCount_spec (history : list (list string)) :
  NoDup (map fst (topicCount history))
  /\ forall t n, In (t, n) (topicCount history)
                 <-> In t (concat history) /\ n = occurrences history t.
Proof.
  rewrite topicCount_flat.
  destruct (fold_bump (concat history) [] NoDup_nil_2) as (H1 & H2 & H3).
  split; [exact H1|]. intros t n. rewrite (count_in_In _ _ _ H1), H2, H3.
  unfold occurrences. cbn. intuition lia.
Qed.

Lemma count_occ_pos (l : list string) (t : string) :
  In t l -> 0 < Z.of_nat (count_occ string_dec l t).
Proof. intros H. apply (count_occ_In string_dec) in H. lia. Qed.

(** X24. The page shows at most five topics, each once, with the number of
    times it occurs in the talks of the history, the most frequent first.
    A topic that occurs is left out only when five are shown, none of
    which occurs less often. *)
Theorem most_talked_topics_are_shown (history : list (list string)) :
  plain history ->
  let shown := calculateMostTalkedTopics history in
  (length shown <= 5)%nat
  /\ NoDup (map fst shown)
  /\ (forall t n, In (t, n) shown ->
       In t (concat history) /\ n = occurrences history t /\ 0 < n)
  /\ StronglySorted (fun a b => snd b <= snd a) shown
  /\ (forall t, In t (concat history) -> ~ In t (map fst shown) ->
       length shown = 5%nat
       /\ forall e, In e shown -> occurrences history t <= snd e).
Proof.
  intros _ shown. subst shown. unfold calculateMostTalkedTopics.
  set (sorted := stable_sort by_count (Object_entries (topicCount history))).
  destruct (topicCount_spec history) as [Hn Hspec].
  assert (HP : Permutation sorted (topicCount history)).
  { subst sorted. rewrite stable_sort_Permutation. apply Object_entries_Permutation. }
  assert (HS : StronglySorted (fun a b => by_count a b = true) sorted).
  { subst sorted. apply stable_sort_sorted.
    - intros a b. unfold by_count. lia.
    - intros a b c. unfold by_count. lia. }
  assert (Hsub : forall e, In e (firstn 5 sorted) -> In e (topicCount history)).
  { intros e He. apply list_elem_of_In. rewrite <- HP. apply list_elem_of_In.
    rewrite <- (firstn_skipn 5 sorted). apply in_or_app. left. exact He. }
  split; [apply firstn_le_length|]. split; [|split; [|split]].
  - assert (Hn' : NoDup (map fst sorted)) by (rewrite HP; exact Hn).
    rewrite <- (firstn_skipn 5 sorted), map_app in Hn'.
    apply NoDup_app in Hn' as [Hn' _]. exact Hn'.
  - intros t n Hin. apply Hsub, Hspec in Hin as [H1 ->].
    split; [exact H1|]. split; [reflexivity|]. apply count_occ_pos. exact H1.
  - apply StronglySorted_firstn.
    clear -HS. induction HS as [|x l Hl IH Hx]; constructor; [exact IH|].
    eapply List.Forall_impl; [|exact Hx]. intros y Hy. unfold by_count in Hy. lia.
  - intros t Ht Hnot.
    assert (Hin : In (t, occurrences history t) sorted).
    { apply list_elem_of_In. rewrite HP. apply list_elem_of_In. apply Hspec. auto. }
    rewrite <- (firstn_skipn 5 sorted) in Hin. apply in_app_or in Hin as [Hin|Hin].
    { exfalso. apply Hnot. apply in_map_iff. exists (t, occurrences history t). auto. }
    split.
    + apply firstn_length_le.
      assert (Hl : (0 < length (List.skipn 5 sorted))%nat)
        by (destruct (List.skipn 5 sorted); [contradiction | cbn; lia]).
      rewrite length_drop in Hl. lia.
    + intros e He.
      pose proof (StronglySorted_firstn_skipn _ 5 sorted HS e _ He Hin) as H.
      unfold by_count in H. cbn [snd] in H. lia.
Qed.

(** Six topics occur in the sample; Books, which occurs once, is left out. *)
Lemma most_talked_topics_are_shown_witness :
  plain sample_history
  /\ calculateMostTalkedTopics sample_history
     = [("Food", 3); ("Weather", 2); ("Work", 2); ("Travel", 1); ("Music", 1)]
  /\ forall e, In e (calculateMostTalkedTopics sample_history) ->
                occurrences sample_history "Books" <= snd e.
Proof.
  assert (Hp : plain sample_history).
  { intros topic Hin Hinh. cbn in Hin, Hinh. intuition (subst; discriminate). }
  split; [exact Hp|]. split; [vm_compute; reflexivity|].
  apply (proj2 (proj2 (proj2 (proj2 (most_talked_topics_are_shown sample_history Hp))))).
  - cbn. tauto.
  - vm_compute. intuition discriminate.
Defined.

End HistoryProps.


(* ===================================================================== *)
(** * Properties of the talk detail page *)
(* ===================================================================== *)

Module DetailProps.
Import Firestore FirestoreFacts FirestoreProps TalkDetail.

(** X26. The detail page writes nothing, and what it asks of Firestore is
    one read, of the document of the given id in [talk_history], when a
    user is signed in, and nothing when none is (it then goes to the login
    page). It shows a talk exactly when a user is signed in, Firestore
    serves the read and the document of that id exists with the user's id
    as its [userId]: a talk of another user is never shown, whoever knows
    its id, and the page then says so. *)
Theorem talk_is_shown_to_its_owner_only (env : Env) (user : option User)
    (conversationId : string) (w : World) :
  let result := load env user conversationId opened w in
  store (snd result) = store w
  /\ sent (snd result)
     = sent w ++ match user with
                 | Some _ => [GetDoc (TALK_HISTORY_COLLECTION, conversationId)]
                 | None => []
                 end
  /\ (user = None ->
      fst result
      = {| conversation := None; loading := true; error := None; pushed := ["/login"] |})
  /\ (forall d, conversation (fst result) = Some d
      <-> exists u, user = Some u
                    /\ rejects env (GetDoc (TALK_HISTORY_COLLECTION, conversationId)) = false
                    /\ store w !! (TALK_HISTORY_COLLECTION, conversationId) = Some d
                    /\ d !! "userId" = Some (VString (uid u)))
  /\ (forall u d, user = Some u ->
      rejects env (GetDoc (TALK_HISTORY_COLLECTION, conversationId)) = false ->
      store w !! (TALK_HISTORY_COLLECTION, conversationId) = Some d ->
      d !! "userId" <> Some (VString (uid u)) ->
      conversation (fst result) = None
      /\ error (fst result) = Some "You don't have permission to view this conversation").
Proof.
  intros result. subst result. unfold load.
  destruct user as [u|].
  2: { cbn. split; [reflexivity|]. split; [symmetry; apply app_nil_r|].
       split; [reflexivity|]. split; [|intros u d [=]].
       intros d. split; [intros [=] | intros (u & [=] & _)]. }
  unfold getDoc.
  change ("talk_history", conversationId) with (TALK_HISTORY_COLLECTION, conversationId).
  destruct (rejects env (GetDoc (TALK_HISTORY_COLLECTION, conversationId))) eqn:Hr.
  { rewrite (request_rejected _ _ _ _ Hr). cbn. split; [reflexivity|].
    split; [reflexivity|]. split; [intros [=]|].
    split; [|intros u' d _ [=]].
    intros d. split; [intros [=] | intros (u' & _ & [=] & _)]. }
  rewrite (request_served _ _ _ _ Hr). cbn [fst snd].
  destruct (store w !! (TALK_HISTORY_COLLECTION, conversationId)) as [data|] eqn:Hd.
  2: { cbn. split; [reflexivity|]. split; [reflexivity|]. split; [intros [=]|].
       split; [|intros u' d _ _ [=]].
       intros d. split; [intros [=] | intros (u' & _ & _ & [=] & _)]. }
  unfold belongs_to. destruct (has_userId (uid u) data) eqn:Hu; cbn.
  - apply has_userId_spec in Hu. split; [reflexivity|].
    split; [reflexivity|]. split; [intros [=]|]. split.
    + intros d. split.
      * intros [= <-]. exists u. auto.
      * intros (u' & [= <-] & _ & [= <-] & _). reflexivity.
    + intros u' d [= <-] _ [= <-] Hne. contradiction.
  - split; [reflexivity|]. split; [reflexivity|]. split; [intros [=]|]. split.
    + intros d. split; [intros [=]|].
      intros (u' & [= <-] & _ & [= <-] & Hid). apply has_userId_spec in Hid. congruence.
    + intros u' d _ _ _ _. split; reflexivity.
Qed.

(** X27. From the save to the detail page: a talk saved with [saveTalkHistory]
    opens, under the id returned, for the user it was saved for, with
    every field as saved, and for no other user. *)
Theorem saved_talk_opens_for_its_user (env : Env) (historyItem : Doc) (u : User) (w : World) :
  (forall r, rejects env r = false) ->
  historyItem !! "userId" = Some (VString (uid u)) ->
  let saved := <["id" := VString (new_id env)]> historyItem in
  let w' := snd (saveTalkHistory env historyItem w) in
  fst (saveTalkHistory env historyItem w) = Ok (new_id env)
  /\ fst (load env (Some u) (new_id env) opened w')
     = {| conversation := Some saved; loading := false; error := None; pushed := [] |}
  /\ (forall v, uid v <> uid u ->
      conversation (fst (load env (Some v) (new_id env) opened w')) = None
      /\ error (fst (load env (Some v) (new_id env) opened w'))
         = Some "You don't have permission to view this conversation").
Proof.
  intros Hserve Hu saved w'. subst w'.
  unfold saveTalkHistory, bind, setDoc. rewrite (request_served _ _ _ _ (Hserve _)).
  cbn [fst snd ret]. split; [reflexivity|].
  assert (Hid : saved !! "userId" = Some (VString (uid u)))
    by (subst saved; rewrite lookup_insert_ne by discriminate; exact Hu).
  unfold load, getDoc.
  change ("talk_history", new_id env) with (TALK_HISTORY_COLLECTION, new_id env).
  split.
  - rewrite (request_served _ _ _ _ (Hserve _)). cbn [fst snd store].
    rewrite lookup_insert_eq. fold saved. unfold belongs_to.
    rewrite (proj2 (has_userId_spec (uid u) saved) Hid). reflexivity.
  - intros v Hv. rewrite (request_served _ _ _ _ (Hserve _)). cbn [fst snd store].
    rewrite lookup_insert_eq. fold saved. unfold belongs_to.
    destruct (has_userId (uid v) saved) eqn:E.
    + apply has_userId_spec in E. rewrite Hid in E. injection E as E. congruence.
    + split; reflexivity.
Qed.

(** Alice's talk opens for Alice and not for Bob. *)
Lemma saved_talk_opens_for_its_user_witness :
  (forall r, rejects (serving 10) r = false)
  /\ talk "alice" 95 !! "userId" = Some (VString (uid alice))
  /\ conversation (fst (load (serving 10) (Some alice) "h3" opened
                         (snd (saveTalkHistory (serving 10) (talk "alice" 95) sample_world))))
     = Some (<["id" := VString "h3"]> (talk "alice" 95))
  /\ conversation (fst (load (serving 10) (Some bob) "h3" opened
                         (snd (saveTalkHistory (serving 10) (talk "alice" 95) sample_world))))
     = None.
Proof.
  split; [intros r; reflexivity|]. split; [reflexivity|].
  destruct (saved_talk_opens_for_its_user (serving 10) (talk "alice" 95) alice sample_world
              (fun r => eq_refl) eq_refl) as (_ & H1 & H2).
  split.
  - exact (f_equal conversation H1).
  - exact (proj1 (H2 bob ltac:(discriminate))).
Defined.

End DetailProps.
